(** * Anti-Keylogger: a shallow embedding of the detection pipeline

  The development follows the layout of the Python sources:

  - [Text]        : the [str] operations the code relies on
                    ([lower], [in], [join], [str(int)]);
  - [Enumerator]  : [src/enumerator.py], the fact records and the probe;
  - [Heuristics]  : [src/heuristics.py], the rule engine and its scoring;
  - [Monitor]     : [src/monitor.py], one scan cycle of [HookMonitor];
  - [Detector]    : [keylogger_detector.py], the decision core.

  Python [int] is [Z]; Python [float] is the kernel's binary64
  ([PrimFloat]); [str] is a byte string ([string]), UTF-8 encoded, with
  [lower] acting on the ASCII letters; a [dict] is a [gmap], a [set] a
  [gset]; [None] and raised exceptions are written out as [option] or as
  an explicit outcome type. *)

From Stdlib Require Import ZArith String Ascii List Floats DecimalString.
From stdpp Require Import gmap strings list fin_maps fin_sets.
Import ListNotations.

#[local] Set Warnings "-inexact-float,-clear-no-such-hyp".
#[local] Open Scope string_scope.
#[local] Open Scope Z_scope.

(** ** Strings *)

Module Text.

(** [c.lower()] on one byte: only [A]..[Z] change. *)
Definition lower_char (c : ascii) : ascii :=
  let n := nat_of_ascii c in
  if ((65 <=? n) && (n <=? 90))%nat then ascii_of_nat (n + 32) else c.

(** [s.lower()] on the bytes of a string.  Python also lowers the
    letters outside ASCII; the model leaves them as they are. *)
Fixpoint lower (s : string) : string :=
  match s with
  | EmptyString => EmptyString
  | String c r => String (lower_char c) (lower r)
  end.

(** [needle in hay] for two strings: substring search. *)
Fixpoint contains (needle hay : string) : bool :=
  String.prefix needle hay
  || match hay with
     | EmptyString => false
     | String _ r => contains needle r
     end.

(** [sep.join(l)] *)
Fixpoint join (sep : string) (l : list string) : string :=
  match l with
  | [] => ""
  | [x] => x
  | x :: r => x ++ sep ++ join sep r
  end.

(** [str(z)] for an [int], as an f-string renders it. *)
Definition str (z : Z) : string := NilZero.string_of_int (Z.to_int z).

(** [x in l] for a list of strings. *)
Definition mem (x : string) (l : list string) : bool :=
  existsb (String.eqb x) l.

(** [any(pat in s for pat in pats)] *)
Definition any_in (pats : list string) (s : string) : bool :=
  existsb (fun pat => contains pat s) pats.

End Text.

(** ** enumerator.py: the fact records *)

Module Enumerator.

Record ProcessInfo := mkProcessInfo {
  pid : Z;
  name : string;
  path : string;
  parent_pid : Z;
  is_signed : bool;
  user_account : string;
  is_hidden_window : bool;
  is_service : bool;
  loaded_dlls : list string;
  privileges : list string;
  timestamp : string
}.

Record HookInfo := mkHookInfo {
  hook_id : Z;
  hook_type : string;
  owner_pid : Z;
  owner_process : string;
  module_path : string;
  hook_timestamp : string
}.

(** What the operating system answers during one probe cycle: the pids
    [EnumProcesses] lists and, per pid, what [get_process_info] builds
    ([None]: the process is gone or access is denied). *)
Record OsView := mkOsView {
  os_pids : list Z;
  os_process : Z -> option ProcessInfo
}.

Definition common_hook_processes : list string :=
  ["explorer.exe"; "skype.exe"; "discord.exe"; "slack.exe";
   "teams.exe"; "obs64.exe"; "obs32.exe"].

Definition _likely_has_hooks (proc_info : ProcessInfo) : bool :=
  Text.mem (Text.lower (name proc_info)) common_hook_processes.

(** The [for pid in pids] loop of [WindowsAPIEnumerator.detect_hooks],
    with its two locals [hook_id] and [hooks]. *)
Fixpoint detect_hooks_loop (os : OsView) (now : string) (pids : list Z)
    (hook_id : Z) (hooks : list HookInfo) : list HookInfo :=
  match pids with
  | [] => hooks
  | pid :: rest =>
      match os_process os pid with
      | None => detect_hooks_loop os now rest hook_id hooks
      | Some proc_info =>
          let has_hook_indicators :=
            existsb (fun dll => Text.contains "user32" (Text.lower dll))
                    (loaded_dlls proc_info)
            || existsb (fun dll => Text.contains "hook" (Text.lower dll))
                       (loaded_dlls proc_info) in
          if has_hook_indicators || _likely_has_hooks proc_info
          then
            let hook := mkHookInfo hook_id "WH_KEYBOARD_LL" pid
                          (name proc_info) (path proc_info) now in
            detect_hooks_loop os now rest (hook_id + 1) (hooks ++ [hook])
          else detect_hooks_loop os now rest hook_id hooks
      end
  end.

(** [WindowsAPIEnumerator.detect_hooks] *)
Definition detect_hooks (os : OsView) (now : string) : list HookInfo :=
  detect_hooks_loop os now (os_pids os) 1 [].

(** The processes [detect_hooks] reports: those whose facts can be read
    and that load a user32 or hook module or carry a listed name. *)
Definition is_candidate (os : OsView) (pid : Z) : bool :=
  match os_process os pid with
  | None => false
  | Some proc_info =>
      existsb (fun dll => Text.contains "user32" (Text.lower dll))
              (loaded_dlls proc_info)
      || existsb (fun dll => Text.contains "hook" (Text.lower dll))
                 (loaded_dlls proc_info)
      || _likely_has_hooks proc_info
  end.

(** Two hook records describe the same observable registration. *)
Definition same_registration (h1 h2 : HookInfo) : Prop :=
  owner_pid h1 = owner_pid h2
  /\ hook_type h1 = hook_type h2
  /\ module_path h1 = module_path h2.

(** Two probe cycles around the exit of process 10: process 20 keeps its
    hook, and is the second candidate at first and the only one later. *)
Definition exit_proc (pid : Z) (nm : string) : ProcessInfo :=
  mkProcessInfo pid nm ("C:\Apps\" ++ nm) 4 true "DESKTOP\User" false false
    ["ntdll.dll"; "user32.dll"] ["NORMAL"] "".

Definition exit_os_before : OsView :=
  mkOsView [10; 20]
    (fun pid => if pid =? 10 then Some (exit_proc 10 "first.exe")
                else if pid =? 20 then Some (exit_proc 20 "second.exe")
                else None).

Definition exit_os_after : OsView :=
  mkOsView [20]
    (fun pid => if pid =? 20 then Some (exit_proc 20 "second.exe") else None).

(** [MockEnumerator] *)
Definition mock_enumerate_processes : list Z :=
  [4; 1234; 2248; 4120; 8192; 5678].

Definition mock_data (now : string) : gmap Z ProcessInfo :=
  <[4 := mkProcessInfo 4 "System" "C:\Windows\System32\ntoskrnl.exe"
           0 true "NT AUTHORITY\SYSTEM" true true
           ["ntdll.dll"; "kernel32.dll"] ["SYSTEM"] now]>
  (<[1234 := mkProcessInfo 1234 "svchost.exe" "C:\Windows\System32\svchost.exe"
           4 true "NT AUTHORITY\NETWORK SERVICE" true true
           ["ntdll.dll"; "kernel32.dll"; "user32.dll"] ["NORMAL"] now]>
  (<[2248 := mkProcessInfo 2248 "explorer.exe" "C:\Windows\explorer.exe"
           1234 true "DESKTOP\User" false false
           ["ntdll.dll"; "kernel32.dll"; "user32.dll"; "shell32.dll"]
           ["NORMAL"] now]>
  (<[4120 := mkProcessInfo 4120 "badproc.exe" "C:\Temp\badproc.exe"
           2248 false "DESKTOP\User" true false
           ["ntdll.dll"; "kernel32.dll"; "user32.dll"; "suspicious.dll"]
           ["ELEVATED"] now]>
  (<[8192 := mkProcessInfo 8192 "unknown.exe"
           "C:\Users\User\AppData\Local\Temp\unknown.exe"
           2248 false "DESKTOP\User" false false
           ["ntdll.dll"; "kernel32.dll"] ["NORMAL"] now]>
  (<[5678 := mkProcessInfo 5678 "chrome.exe"
           "C:\Program Files\Google\Chrome\Application\chrome.exe"
           2248 true "DESKTOP\User" false false
           ["ntdll.dll"; "kernel32.dll"; "user32.dll"] ["NORMAL"] now]>
   ∅))))).

Definition mock_get_process_info (now : string) (pid : Z) : option ProcessInfo :=
  mock_data now !! pid.

Definition mock_detect_hooks (now : string) : list HookInfo :=
  [ mkHookInfo 1 "WH_KEYBOARD_LL" 2248 "explorer.exe"
      "C:\Windows\explorer.exe" now;
    mkHookInfo 2 "WH_KEYBOARD_LL" 4120 "badproc.exe"
      "C:\Temp\badproc.exe" now;
    mkHookInfo 3 "WH_KEYBOARD" 8192 "unknown.exe"
      "C:\Users\User\AppData\Local\Temp\unknown.exe" now ].

(** The two methods the monitor calls on its enumerator, as one cycle
    sees them. *)
Record Probe := mkProbe {
  probe_detect_hooks : list HookInfo;
  probe_get_process_info : Z -> option ProcessInfo
}.

Definition windows_probe (os : OsView) (now : string) : Probe :=
  mkProbe (detect_hooks os now) (os_process os).

Definition mock_probe (now : string) : Probe :=
  mkProbe (mock_detect_hooks now) (mock_get_process_info now).

(** What [detect_hooks] writes in a record: the constant type, the time of
    the probe, and the name and path read from the owner. *)
Definition hook_describes (os : OsView) (now : string) (h : HookInfo) : Prop :=
  hook_type h = "WH_KEYBOARD_LL"
  /\ hook_timestamp h = now
  /\ exists proc_info,
       os_process os (owner_pid h) = Some proc_info
       /\ owner_process h = name proc_info
       /\ module_path h = path proc_info.

End Enumerator.

(** ** heuristics.py *)

Module Heuristics.

Inductive RiskLevel := LOW | MEDIUM | HIGH | UNKNOWN.

Record RiskRule := mkRiskRule {
  rule_id : string;
  name : string;
  description : string;
  weight : Z;
  triggered : bool;
  evidence : string
}.

Record RiskAssessment := mkRiskAssessment {
  pid : Z;
  process_name : string;
  risk_score : Z;
  risk_level : RiskLevel;
  triggered_rules : list RiskRule;
  explanation : string;
  timestamp : string
}.

(** The engine object: [self.sensitivity] and the mutable [self.rules]. *)
Record HeuristicEngine := mkHeuristicEngine {
  sensitivity : string;
  rules : gmap string RiskRule
}.

Definition new_rule (id nm descr : string) (w : Z) : RiskRule :=
  mkRiskRule id nm descr w false "".

Definition _initialize_rules : gmap string RiskRule :=
  <["unsigned_binary" :=
      new_rule "R001" "Unsigned Binary"
        "Executable lacks valid digital signature" 25]>
  (<["hidden_window" :=
      new_rule "R002" "Hidden Window"
        "Process has no visible windows (may be hiding)" 20]>
  (<["unusual_path" :=
      new_rule "R003" "Unusual Path"
        "Executable located in suspicious directory" 30]>
  (<["elevated_privileges" :=
      new_rule "R004" "Unexpected Elevation"
        "Process has elevated privileges without clear reason" 15]>
  (<["suspicious_dll" :=
      new_rule "R005" "Suspicious DLL"
        "Process loaded unusual or injected DLLs" 25]>
  (<["orphan_process" :=
      new_rule "R006" "Orphan Process"
        "Parent process no longer exists" 10]>
  (<["temp_location" :=
      new_rule "R007" "Temp Directory Execution"
        "Executable running from temporary directory" 20]>
  (<["name_spoofing" :=
      new_rule "R008" "Name Spoofing"
        "Process name mimics system process but path differs" 35]>
  (<["service_anomaly" :=
      new_rule "R009" "Unknown Service"
        "Marked as service but not recognized" 15]>
  (<["multiple_hooks" :=
      new_rule "R010" "Multiple Hooks"
        "Process has registered multiple keyboard hooks" 20]>
   ∅))))))))).

(** [float(z)] for an [int] of moderate size (exact below 2^53). *)
Definition float_of_int (z : Z) : float :=
  if z <? 0 then PrimFloat.opp (PrimFloat.of_uint63 (Uint63.of_Z (- z)))
  else PrimFloat.of_uint63 (Uint63.of_Z z).

(** [int(f)]: truncation toward zero.  Python raises on an infinity or a
    NaN; the products of the rule weights are finite, and the model
    returns 0 there. *)
Definition int_of_float (f : float) : Z :=
  match Prim2SF f with
  | S754_finite s m e =>
      let mag := if 0 <=? e then Z.pos m * 2 ^ e else Z.pos m / 2 ^ (- e) in
      if s then - mag else mag
  | _ => 0
  end.

(** [rule.weight = int(rule.weight * k)] *)
Definition scale_weight (k : float) (r : RiskRule) : RiskRule :=
  mkRiskRule (rule_id r) (name r) (description r)
    (int_of_float (PrimFloat.mul (float_of_int (weight r)) k))
    (triggered r) (evidence r).

(** [HeuristicEngine.__init__] *)
Definition HeuristicEngine_init (sens : string) : HeuristicEngine :=
  let rs := _initialize_rules in
  mkHeuristicEngine sens
    (if String.eqb sens "high" then scale_weight 1.3%float <$> rs
     else if String.eqb sens "low" then scale_weight 0.7%float <$> rs
     else rs).

(** The state one call of [analyze_process] threads through the checks:
    the rule objects of the engine and the local list [triggered].  A rule
    object is appended at most once per call and is not written again
    before the call returns, so the list holds its value at that moment. *)
Record Run := mkRun {
  run_rules : gmap string RiskRule;
  run_triggered : list RiskRule
}.

Definition reset_rule (r : RiskRule) : RiskRule :=
  mkRiskRule (rule_id r) (name r) (description r) (weight r) false "".

Definition mark_rule (ev : string) (r : RiskRule) : RiskRule :=
  mkRiskRule (rule_id r) (name r) (description r) (weight r) true ev.

(** The shared tail of every check:
    [rule = self.rules[key]; rule.triggered = True; rule.evidence = ev;
     triggered.append(rule)].  [None] is Python's [KeyError]. *)
Definition fire (key ev : string) (st : Run) : option Run :=
  r ← run_rules st !! key;
  let r' := mark_rule ev r in
  Some (mkRun (<[key := r']> (run_rules st)) (run_triggered st ++ [r'])).

Definition _check_unsigned_binary (proc : Enumerator.ProcessInfo) (st : Run) : option Run :=
  if negb (Enumerator.is_signed proc)
  then fire "unsigned_binary" ("No valid signature found for " ++ Enumerator.path proc) st
  else Some st.

Definition _check_hidden_window (proc : Enumerator.ProcessInfo) (st : Run) : option Run :=
  if Enumerator.is_hidden_window proc && negb (Enumerator.is_service proc)
  then fire "hidden_window" "Process runs without visible windows" st
  else Some st.

Definition suspicious_paths : list string :=
  [":\users\"; ":\temp\"; ":\downloads\"; ":\appdata\roaming\"].

(** The [for sus_path in suspicious_paths: ... break] loop. *)
Fixpoint unusual_path_loop (pats : list string) (proc : Enumerator.ProcessInfo)
    (path_lower : string) (st : Run) : option Run :=
  match pats with
  | [] => Some st
  | sus_path :: rest =>
      if Text.contains sus_path path_lower
      then fire "unusual_path" ("Executing from " ++ Enumerator.path proc) st
      else unusual_path_loop rest proc path_lower st
  end.

Definition _check_unusual_path (proc : Enumerator.ProcessInfo) (st : Run) : option Run :=
  let path_lower := Text.lower (Enumerator.path proc) in
  if Text.contains "\windows\" path_lower
     || Text.contains "\program files" path_lower
  then Some st
  else unusual_path_loop suspicious_paths proc path_lower st.

Definition system_elevated : list string :=
  ["taskmgr.exe"; "regedit.exe"; "cmd.exe"; "powershell.exe"].

Definition _check_elevated_privileges (proc : Enumerator.ProcessInfo) (st : Run) : option Run :=
  if Text.mem "ELEVATED" (Enumerator.privileges proc) && negb (Enumerator.is_service proc)
  then
    if negb (Text.mem (Text.lower (Enumerator.name proc)) system_elevated)
    then fire "elevated_privileges"
           ("Process has elevated privileges: "
            ++ Text.join ", " (Enumerator.privileges proc)) st
    else Some st
  else Some st.

Definition suspicious_dll_patterns : list string :=
  ["hook"; "inject"; "keylog"; "capture"; "spy";
   "monitor"; "intercept"; "suspicious"].

(** The inner [for pattern in suspicious_dll_patterns] loop; [None] when
    it falls through, the state after [return] otherwise. *)
Fixpoint dll_pattern_loop (pats : list string) (dll dll_lower : string)
    (st : Run) : option (option Run) :=
  match pats with
  | [] => None
  | pattern :: rest =>
      if Text.contains pattern dll_lower
      then Some (fire "suspicious_dll" ("Loaded suspicious DLL: " ++ dll) st)
      else dll_pattern_loop rest dll dll_lower st
  end.

(** The outer [for dll in proc.loaded_dlls] loop. *)
Fixpoint dll_loop (dlls : list string) (st : Run) : option Run :=
  match dlls with
  | [] => Some st
  | dll :: rest =>
      match dll_pattern_loop suspicious_dll_patterns dll (Text.lower dll) st with
      | Some returned => returned
      | None => dll_loop rest st
      end
  end.

Definition _check_suspicious_dlls (proc : Enumerator.ProcessInfo) (st : Run) : option Run :=
  dll_loop (Enumerator.loaded_dlls proc) st.

Definition _check_orphan_process (proc : Enumerator.ProcessInfo) (st : Run) : option Run :=
  if (0 <? Enumerator.parent_pid proc) && (Enumerator.parent_pid proc <? 4)
     && (100 <? Enumerator.pid proc)
  then fire "orphan_process"
         ("Parent PID " ++ Text.str (Enumerator.parent_pid proc) ++ " likely terminated") st
  else Some st.

Definition temp_paths : list string :=
  ["\temp\"; "\tmp\"; "\appdata\local\temp"].

Fixpoint temp_location_loop (pats : list string) (proc : Enumerator.ProcessInfo)
    (path_lower : string) (st : Run) : option Run :=
  match pats with
  | [] => Some st
  | temp_path :: rest =>
      if Text.contains temp_path path_lower
      then fire "temp_location" ("Running from temp: " ++ Enumerator.path proc) st
      else temp_location_loop rest proc path_lower st
  end.

Definition _check_temp_location (proc : Enumerator.ProcessInfo) (st : Run) : option Run :=
  temp_location_loop temp_paths proc (Text.lower (Enumerator.path proc)) st.

(** The literal dict [system_procs] of [_check_name_spoofing]. *)
Definition system_procs : gmap string string :=
  <["system" := "\windows\system32\ntoskrnl.exe"]>
  (<["svchost.exe" := "\windows\system32\svchost.exe"]>
  (<["explorer.exe" := "\windows\explorer.exe"]>
  (<["lsass.exe" := "\windows\system32\lsass.exe"]>
  (<["csrss.exe" := "\windows\system32\csrss.exe"]>
  (<["winlogon.exe" := "\windows\system32\winlogon.exe"]>
   ∅))))).

Definition _check_name_spoofing (proc : Enumerator.ProcessInfo) (st : Run) : option Run :=
  let name_lower := Text.lower (Enumerator.name proc) in
  match system_procs !! name_lower with
  | Some expected_path =>
      if negb (Text.contains expected_path (Text.lower (Enumerator.path proc)))
      then fire "name_spoofing"
             (Enumerator.name proc ++ " running from unexpected path: "
              ++ Enumerator.path proc) st
      else Some st
  | None => Some st
  end.

Definition _check_service_anomaly (proc : Enumerator.ProcessInfo) (st : Run) : option Run :=
  if Enumerator.is_service proc && negb (Enumerator.is_signed proc)
  then fire "service_anomaly" ("Unsigned service: " ++ Enumerator.name proc) st
  else Some st.

Definition _check_multiple_hooks (hook_count : Z) (st : Run) : option Run :=
  if 2 <? hook_count
  then fire "multiple_hooks"
         ("Process registered " ++ Text.str hook_count ++ " hooks") st
  else Some st.

Definition _generate_explanation (trig : list RiskRule) (score : Z) : string :=
  match trig with
  | [] => "No suspicious indicators detected. Score: " ++ Text.str score
          ++ "/100 (LOW risk)"
  | _ =>
      let explanations :=
        map (fun rule => name rule ++ " (+" ++ Text.str (weight rule) ++ ")") trig in
      "Score: " ++ Text.str score ++ "/100. Triggered: "
      ++ Text.join ", " explanations
  end.

(** [sum(rule.weight for rule in triggered)] *)
Definition total_weight (trig : list RiskRule) : Z :=
  fold_left Z.add (map weight trig) 0.

(** [HeuristicEngine.analyze_process(proc_info, hook_count)].  [now] is the
    reading of [datetime.now().isoformat()]; the engine is returned with
    its rule objects as the call leaves them. *)
Definition analyze_process (self : HeuristicEngine) (proc_info : Enumerator.ProcessInfo)
    (hook_count : Z) (now : string) : option (RiskAssessment * HeuristicEngine) :=
  let st0 := mkRun (reset_rule <$> rules self) [] in
  st ← _check_unsigned_binary proc_info st0;
  st ← _check_hidden_window proc_info st;
  st ← _check_unusual_path proc_info st;
  st ← _check_elevated_privileges proc_info st;
  st ← _check_suspicious_dlls proc_info st;
  st ← _check_orphan_process proc_info st;
  st ← _check_temp_location proc_info st;
  st ← _check_name_spoofing proc_info st;
  st ← _check_service_anomaly proc_info st;
  st ← _check_multiple_hooks hook_count st;
  let trig := run_triggered st in
  let score := total_weight trig in
  let level :=
    if 61 <=? score then HIGH
    else if 31 <=? score then MEDIUM
    else LOW in
  Some (mkRiskAssessment (Enumerator.pid proc_info) (Enumerator.name proc_info)
          score level trig (_generate_explanation trig score) now,
        mkHeuristicEngine (sensitivity self) (run_rules st)).

(** [analyze_hook]: the hook itself is not looked at. *)
Definition analyze_hook (self : HeuristicEngine) (hook : Enumerator.HookInfo)
    (proc_info : Enumerator.ProcessInfo) (now : string) :=
  analyze_process self proc_info 1 now.

Definition classify_risk (score : Z) : RiskLevel :=
  if 61 <=? score then HIGH
  else if 31 <=? score then MEDIUM
  else if 0 <=? score then LOW
  else UNKNOWN.

(** The engines a program can hold: built by [__init__] with sensitivity
    [s], then used for any number of [analyze_process] calls. *)
Inductive engine_from (s : string) : HeuristicEngine -> Prop :=
| engine_fresh : engine_from s (HeuristicEngine_init s)
| engine_used eng proc hook_count now a eng' :
    engine_from s eng ->
    analyze_process eng proc hook_count now = Some (a, eng') ->
    engine_from s eng'.

(** *** Closed forms of the checks

    Every check either leaves the state alone or ends in [fire key ev].
    [steps] lists, in the order [analyze_process] runs the checks, the key
    of each and the evidence it fires with ([None]: it does not fire);
    [exec] runs such a list. *)

Definition outcome (hit : bool) (ev : string) : option string :=
  if hit then Some ev else None.

Definition exec_one (s : string * option string) (st : Run) : option Run :=
  match snd s with
  | Some ev => fire (fst s) ev st
  | None => Some st
  end.

Fixpoint exec (l : list (string * option string)) (st : Run) : option Run :=
  match l with
  | [] => Some st
  | s :: rest => st' ← exec_one s st; exec rest st'
  end.

Definition steps (proc : Enumerator.ProcessInfo) (hook_count : Z)
    : list (string * option string) :=
  let path_lower := Text.lower (Enumerator.path proc) in
  [ ("unsigned_binary",
     outcome (negb (Enumerator.is_signed proc))
       ("No valid signature found for " ++ Enumerator.path proc));
    ("hidden_window",
     outcome (Enumerator.is_hidden_window proc && negb (Enumerator.is_service proc))
       "Process runs without visible windows");
    ("unusual_path",
     outcome (negb (Text.contains "\windows\" path_lower
                    || Text.contains "\program files" path_lower)
              && Text.any_in suspicious_paths path_lower)
       ("Executing from " ++ Enumerator.path proc));
    ("elevated_privileges",
     outcome (Text.mem "ELEVATED" (Enumerator.privileges proc)
              && negb (Enumerator.is_service proc)
              && negb (Text.mem (Text.lower (Enumerator.name proc)) system_elevated))
       ("Process has elevated privileges: "
        ++ Text.join ", " (Enumerator.privileges proc)));
    ("suspicious_dll",
     match find (fun dll => Text.any_in suspicious_dll_patterns (Text.lower dll))
                (Enumerator.loaded_dlls proc) with
     | Some dll => Some ("Loaded suspicious DLL: " ++ dll)
     | None => None
     end);
    ("orphan_process",
     outcome ((0 <? Enumerator.parent_pid proc) && (Enumerator.parent_pid proc <? 4)
              && (100 <? Enumerator.pid proc))
       ("Parent PID " ++ Text.str (Enumerator.parent_pid proc) ++ " likely terminated"));
    ("temp_location",
     outcome (Text.any_in temp_paths path_lower)
       ("Running from temp: " ++ Enumerator.path proc));
    ("name_spoofing",
     match system_procs !! Text.lower (Enumerator.name proc) with
     | Some expected_path =>
         outcome (negb (Text.contains expected_path path_lower))
           (Enumerator.name proc ++ " running from unexpected path: "
            ++ Enumerator.path proc)
     | None => None
     end);
    ("service_anomaly",
     outcome (Enumerator.is_service proc && negb (Enumerator.is_signed proc))
       ("Unsigned service: " ++ Enumerator.name proc));
    ("multiple_hooks",
     outcome (2 <? hook_count)
       ("Process registered " ++ Text.str hook_count ++ " hooks")) ].

(** The keys of the ten rules, in the order of the checks. *)
Definition rule_keys : list string :=
  [ "unsigned_binary"; "hidden_window"; "unusual_path"; "elevated_privileges";
    "suspicious_dll"; "orphan_process"; "temp_location"; "name_spoofing";
    "service_anomaly"; "multiple_hooks" ].

(** The keys of the steps that fire. *)
Fixpoint fired (l : list (string * option string)) : list string :=
  match l with
  | [] => []
  | (k, Some _) :: rest => k :: fired rest
  | (_, None) :: rest => fired rest
  end.

(** What no call ever writes in a rule object. *)
Definition static (r : RiskRule) : string * Z := (rule_id r, weight r).

Definition same_static (m1 m2 : gmap string RiskRule) : Prop :=
  forall k, static <$> (m1 !! k) = static <$> (m2 !! k).

(** The weight and the id a rule key has in an engine built with
    sensitivity [s]. *)
Definition weight_at (s key : string) : Z :=
  default 0 (weight <$> rules (HeuristicEngine_init s) !! key).

Definition id_at (key : string) : string :=
  default "" (rule_id <$> _initialize_rules !! key).

Definition sum_Z (l : list Z) : Z := foldr Z.add 0 l.

(** The level [analyze_process] gives a score. *)
Definition level_of (score : Z) : RiskLevel :=
  if 61 <=? score then HIGH
  else if 31 <=? score then MEDIUM
  else LOW.

(** The engines whose rules carry the ids and weights [__init__] gave them. *)
Definition engine_ok (s : string) (eng : HeuristicEngine) : Prop :=
  same_static (rules eng) (rules (HeuristicEngine_init s)).

(** The process of the name-spoofing scenario; the three fields the
    scenario leaves open are arguments. *)
Definition spoof_proc (ppid : Z) (user ts : string) : Enumerator.ProcessInfo :=
  Enumerator.mkProcessInfo 4120 "svchost.exe" "C:\Temp\svchost.exe" ppid false user
    true false ["user32.dll"; "suspicious.dll"] ["ELEVATED"] ts.

End Heuristics.

(** ** monitor.py *)

Module Monitor.

Import Heuristics.

Record MonitorEvent := mkMonitorEvent {
  event_type : string;
  hook_info : option Enumerator.HookInfo;
  process_info : option Enumerator.ProcessInfo;
  risk_assessment : option RiskAssessment;
  timestamp : string;
  details : string
}.

(** One invocation of a subscriber: which callback, with which event. *)
Definition Call : Type := nat * MonitorEvent.

(** A registered callback is code of the caller.  It is known by an
    identity, and by what a call does: given the calls made so far and the
    event, it returns ([None]) or raises an [Exception] with a message.
    A callback that raises something [except Exception] does not catch
    (a [KeyboardInterrupt], a [SystemExit]) or that changes the monitor it
    is called from is not modelled. *)
Record Callback := mkCallback {
  cb_id : nat;
  cb_raises : list Call -> MonitorEvent -> option string
}.

(** What the monitor prints through [self.ui]. *)
Inductive UiLine :=
| ui_info (msg : string)
| ui_warning (msg : string)
| ui_error (msg : string)
| ui_alert (level : string) (msg : string).

(** The fields of [HookMonitor] a scan reads or writes, the lines printed
    so far and the subscriber calls made so far. *)
Record HookMonitor := mkHookMonitor {
  heuristics : HeuristicEngine;
  known_hooks : gmap Z Enumerator.HookInfo;
  known_processes : gmap Z Enumerator.ProcessInfo;
  events : list MonitorEvent;
  on_event_callbacks : list Callback;
  ui_out : list UiLine;
  calls : list Call
}.

(** [HookMonitor.__init__] *)
Definition HookMonitor_init (sensitivity : string) : HookMonitor :=
  mkHookMonitor (HeuristicEngine_init sensitivity) ∅ ∅ [] [] [] [].

Definition add_event_callback (self : HookMonitor) (callback : Callback) : HookMonitor :=
  mkHookMonitor (heuristics self) (known_hooks self) (known_processes self)
    (events self) (on_event_callbacks self ++ [callback]) (ui_out self) (calls self).

Definition set_heuristics (self : HookMonitor) (e : HeuristicEngine) : HookMonitor :=
  mkHookMonitor e (known_hooks self) (known_processes self)
    (events self) (on_event_callbacks self) (ui_out self) (calls self).

Definition set_known_hooks (self : HookMonitor) (m : gmap Z Enumerator.HookInfo) : HookMonitor :=
  mkHookMonitor (heuristics self) m (known_processes self)
    (events self) (on_event_callbacks self) (ui_out self) (calls self).

Definition set_known_process (self : HookMonitor) (pid : Z)
    (p : Enumerator.ProcessInfo) : HookMonitor :=
  mkHookMonitor (heuristics self) (known_hooks self) (<[pid := p]> (known_processes self))
    (events self) (on_event_callbacks self) (ui_out self) (calls self).

Definition append_event (self : HookMonitor) (e : MonitorEvent) : HookMonitor :=
  mkHookMonitor (heuristics self) (known_hooks self) (known_processes self)
    (events self ++ [e]) (on_event_callbacks self) (ui_out self) (calls self).

Definition ui_print (self : HookMonitor) (l : UiLine) : HookMonitor :=
  mkHookMonitor (heuristics self) (known_hooks self) (known_processes self)
    (events self) (on_event_callbacks self) (ui_out self ++ [l]) (calls self).

Definition record_call (self : HookMonitor) (c : Call) : HookMonitor :=
  mkHookMonitor (heuristics self) (known_hooks self) (known_processes self)
    (events self) (on_event_callbacks self) (ui_out self) (calls self ++ [c]).

Definition level_str (l : RiskLevel) : string :=
  match l with
  | HIGH => "HIGH" | MEDIUM => "MEDIUM" | LOW => "LOW" | UNKNOWN => "UNKNOWN"
  end.

(** [_alert_event] *)
Definition _alert_event (self : HookMonitor) (event : MonitorEvent) : HookMonitor :=
  match risk_assessment event with
  | Some a =>
      let risk_str := level_str (risk_level a) in
      let msg := details event ++ " | " ++ "Risk: " ++ risk_str ++ " ("
                 ++ Text.str (risk_score a) ++ "/100)" in
      let msg :=
        match triggered_rules a with
        | [] => msg
        | _ => msg ++ " | Flags: "
               ++ Text.join ", " (map Heuristics.name (take 2 (triggered_rules a)))
        end in
      ui_print self (ui_alert (level_str (risk_level a)) msg)
  | None => ui_print self (ui_info (details event))
  end.

(** [for callback in self.on_event_callbacks: try: callback(event)
     except Exception as e: self.ui.print_error(...)] *)
Fixpoint trigger_callbacks (cbs : list Callback) (event : MonitorEvent)
    (self : HookMonitor) : HookMonitor :=
  match cbs with
  | [] => self
  | callback :: rest =>
      let outcome := cb_raises callback (calls self) event in
      let self := record_call self (cb_id callback, event) in
      let self :=
        match outcome with
        | None => self
        | Some e => ui_print self (ui_error ("Callback error: " ++ e))
        end in
      trigger_callbacks rest event self
  end.

(** A method body that may raise: the monitor as the body left it, and
    [Some] message when an exception escaped. *)
Definition Outcome : Type := HookMonitor * option string.

Definition bind_outcome (o : Outcome) (k : HookMonitor -> Outcome) : Outcome :=
  match o with
  | (self, None) => k self
  | (self, Some e) => (self, Some e)
  end.

(** [_handle_new_hook] *)
Definition _handle_new_hook (self : HookMonitor) (enum : Enumerator.Probe)
    (now : string) (hook : Enumerator.HookInfo) : Outcome :=
  match Enumerator.probe_get_process_info enum (Enumerator.owner_pid hook) with
  | None =>
      (ui_print self
         (ui_warning ("New hook detected but cannot access process "
                      ++ Text.str (Enumerator.owner_pid hook))), None)
  | Some proc_info =>
      match analyze_hook (heuristics self) hook proc_info now with
      | None => (self, Some "KeyError")
      | Some (assessment, engine) =>
          let self := set_heuristics self engine in
          let event :=
            mkMonitorEvent "hook_added" (Some hook) (Some proc_info)
              (Some assessment) now
              ("New " ++ Enumerator.hook_type hook ++ " hook from "
               ++ Enumerator.name proc_info ++ " (PID "
               ++ Text.str (Enumerator.owner_pid hook) ++ ")") in
          let self := append_event self event in
          let self := set_known_process self (Enumerator.owner_pid hook) proc_info in
          let self := _alert_event self event in
          (trigger_callbacks (on_event_callbacks self) event self, None)
      end
  end.

(** [_handle_removed_hook] *)
Definition _handle_removed_hook (self : HookMonitor) (now : string)
    (hook_id : Z) : Outcome :=
  match known_hooks self !! hook_id with
  | None => (self, Some "KeyError")
  | Some removed_hook =>
      let event :=
        mkMonitorEvent "hook_removed" (Some removed_hook)
          (known_processes self !! Enumerator.owner_pid removed_hook)
          None now
          ("Hook " ++ Text.str hook_id ++ " removed from "
           ++ Enumerator.owner_process removed_hook ++ " (PID "
           ++ Text.str (Enumerator.owner_pid removed_hook) ++ ")") in
      let self := append_event self event in
      let self := ui_print self (ui_info ("Hook removed: " ++ details event)) in
      (trigger_callbacks (on_event_callbacks self) event self, None)
  end.

(** [_check_process_changes] *)
Definition _check_process_changes (self : HookMonitor) (enum : Enumerator.Probe)
    (now : string) (hook : Enumerator.HookInfo) : Outcome :=
  let old_proc := known_processes self !! Enumerator.owner_pid hook in
  match Enumerator.probe_get_process_info enum (Enumerator.owner_pid hook) with
  | None => (self, None)
  | Some new_proc =>
      let changes : list string :=
        match old_proc with
        | None => []
        | Some old_proc =>
            let path_change : list string :=
              if negb (String.eqb (Enumerator.path old_proc) (Enumerator.path new_proc))
              then ["path changed from " ++ Enumerator.path old_proc ++ " to "
                    ++ Enumerator.path new_proc]
              else [] in
            let signature_change : list string :=
              if negb (Bool.eqb (Enumerator.is_signed old_proc)
                                (Enumerator.is_signed new_proc))
              then ["signature status changed"] else [] in
            let dll_change : list string :=
              if bool_decide (Enumerator.loaded_dlls old_proc
                              ≠ Enumerator.loaded_dlls new_proc)
              then
                let new_dlls : gset string :=
                  list_to_set (Enumerator.loaded_dlls new_proc)
                  ∖ list_to_set (Enumerator.loaded_dlls old_proc) in
                match elements new_dlls with
                | [] => []
                | l => ["loaded new DLLs: " ++ Text.join ", " (take 3 l)]
                end
              else [] in
            (path_change ++ signature_change ++ dll_change)%list
        end in
      (* every append to [changes] comes with [changed = True] *)
      match changes with
      | [] => (self, None)
      | _ =>
          match analyze_hook (heuristics self) hook new_proc now with
          | None => (self, Some "KeyError")
          | Some (assessment, engine) =>
              let self := set_heuristics self engine in
              let event :=
                mkMonitorEvent "process_changed" (Some hook) (Some new_proc)
                  (Some assessment) now
                  ("Process " ++ Enumerator.name new_proc ++ " changed: "
                   ++ Text.join "; " changes) in
              let self := append_event self event in
              let self := set_known_process self (Enumerator.owner_pid hook) new_proc in
              match risk_level assessment with
              | HIGH => (_alert_event self event, None)
              | _ => (self, None)
              end
          end
      end
  end.

(** A [for x in l: body(x)] loop whose body may raise. *)
Fixpoint for_each {A : Type} (body : HookMonitor -> A -> Outcome) (l : list A)
    (self : HookMonitor) : Outcome :=
  match l with
  | [] => (self, None)
  | x :: rest => bind_outcome (body self x) (for_each body rest)
  end.

(** [{hook.hook_id: hook for hook in current_hooks}]: a later hook with
    the same id replaces an earlier one. *)
Definition hooks_by_id (current_hooks : list Enumerator.HookInfo)
    : gmap Z Enumerator.HookInfo :=
  fold_left (fun m hook => <[Enumerator.hook_id hook := hook]> m) current_hooks ∅.

(** The [try] block of [_perform_scan].  Python does not fix the order in
    which a [set] is iterated; the model iterates in the order of
    [elements]. *)
Definition scan_body (self : HookMonitor) (enum : Enumerator.Probe)
    (now : string) : Outcome :=
  let current_hooks := Enumerator.probe_detect_hooks enum in
  let current_hook_ids : gset Z :=
    list_to_set (map Enumerator.hook_id current_hooks) in
  let known_hook_ids : gset Z := dom (known_hooks self) in
  let new_hook_ids := current_hook_ids ∖ known_hook_ids in
  bind_outcome
    (for_each
       (fun self hook_id =>
          match find (fun h => Z.eqb (Enumerator.hook_id h) hook_id) current_hooks with
          | Some hook => _handle_new_hook self enum now hook
          | None => (self, Some "StopIteration")
          end)
       (elements new_hook_ids) self)
    (fun self =>
  let removed_hook_ids := known_hook_ids ∖ current_hook_ids in
  bind_outcome
    (for_each (fun self hook_id => _handle_removed_hook self now hook_id)
       (elements removed_hook_ids) self)
    (fun self =>
  bind_outcome
    (for_each
       (fun self hook =>
          if bool_decide (Enumerator.hook_id hook ∈ dom (known_hooks self))
          then _check_process_changes self enum now hook
          else (self, None))
       current_hooks self)
    (fun self =>
  (set_known_hooks self (hooks_by_id current_hooks), None)))).

(** [_perform_scan]: an exception that escapes the body is printed and
    the scan ends there. *)
Definition _perform_scan (self : HookMonitor) (enum : Enumerator.Probe)
    (now : string) : HookMonitor :=
  match scan_body self enum now with
  | (self, None) => self
  | (self, Some e) => ui_print self (ui_error ("Error during scan: " ++ e))
  end.

(** The scans of [_monitor_loop], one per element of [cycles]. *)
Definition run_scans (self : HookMonitor)
    (cycles : list (Enumerator.Probe * string)) : HookMonitor :=
  fold_left (fun self c => _perform_scan self (fst c) (snd c)) cycles self.

(** The monitors a program can hold. *)
Inductive reachable : HookMonitor -> Prop :=
| reach_init s : reachable (HookMonitor_init s)
| reach_callback self cb : reachable self -> reachable (add_event_callback self cb)
| reach_scan self enum now : reachable self -> reachable (_perform_scan self enum now).

(** The events a scan appended. *)
Definition new_events (before after : HookMonitor) : list MonitorEvent :=
  drop (length (events before)) (events after).

Definition new_calls (before after : HookMonitor) : list Call :=
  drop (length (calls before)) (calls after).

(** The hook ids of the events of one type. *)
Definition event_hook_ids (ty : string) (evs : list MonitorEvent) : gset Z :=
  list_to_set
    (omap (fun e =>
             if String.eqb (event_type e) ty
             then Enumerator.hook_id <$> hook_info e else None) evs).

(** The calls that hand [evs] to the subscribers [cbs], event by event and
    in registration order.  [_check_process_changes] records its event
    without calling the subscribers. *)
Definition deliveries (cbs : list Callback) (evs : list MonitorEvent) : list Call :=
  flat_map
    (fun e =>
       if String.eqb (event_type e) "process_changed" then []
       else map (fun cb => (cb_id cb, e)) cbs)
    evs.

(** [self'] is [self] after the events [evs] were recorded and delivered. *)
Definition extends (self self' : HookMonitor) (evs : list MonitorEvent) : Prop :=
  events self' = (events self ++ evs)%list
  /\ calls self' = (calls self ++ deliveries (on_event_callbacks self) evs)%list
  /\ known_hooks self' = known_hooks self
  /\ on_event_callbacks self' = on_event_callbacks self.

(** The ids of the hooks the probe reports. *)
Definition current_ids (enum : Enumerator.Probe) : gset Z :=
  list_to_set (map Enumerator.hook_id (Enumerator.probe_detect_hooks enum)).

(** The probe can read the process that owns the (first) hook with this id. *)
Definition accessible (enum : Enumerator.Probe) (hook_id : Z) : bool :=
  match find (fun h => Z.eqb (Enumerator.hook_id h) hook_id)
             (Enumerator.probe_detect_hooks enum) with
  | Some hook =>
      match Enumerator.probe_get_process_info enum (Enumerator.owner_pid hook) with
      | Some _ => true
      | None => false
      end
  | None => false
  end.

Definition event_id (e : MonitorEvent) : option Z :=
  Enumerator.hook_id <$> hook_info e.

(** What one pass of a loop of [_perform_scan] records: for a new id, one
    hook_added event when the owner can be read and nothing otherwise; for
    a removed id, one hook_removed event; for a hook that stays, only
    process_changed events. *)
Definition added_for (enum : Enumerator.Probe) (id : Z) (evs : list MonitorEvent) : Prop :=
  if accessible enum id
  then exists e, evs = [e] /\ event_type e = "hook_added" /\ event_id e = Some id
  else evs = [].

Definition removed_for (id : Z) (evs : list MonitorEvent) : Prop :=
  exists e, evs = [e] /\ event_type e = "hook_removed" /\ event_id e = Some id.

Definition changed_for (hook : Enumerator.HookInfo) (evs : list MonitorEvent) : Prop :=
  Forall (fun e => event_type e = "process_changed") evs.

(** What every monitor a program can hold satisfies: the engine has its
    ten rules, and [known_hooks] maps each id to a hook with that id. *)
Definition monitor_ok (self : HookMonitor) : Prop :=
  (exists s, engine_ok s (heuristics self))
  /\ (forall k h, known_hooks self !! k = Some h -> Enumerator.hook_id h = k).

(** *** Scenarios *)

(** A probe that reports hook 7 of a process it cannot read. *)
Definition ghost_probe : Enumerator.Probe :=
  Enumerator.mkProbe
    [Enumerator.mkHookInfo 7 "WH_KEYBOARD_LL" 99 "ghost.exe" "C:\ghost.exe" "t"]
    (fun _ => None).

(** The monitor-diff scenario on the mock population: hooks A = 1, B = 2 and
    C = 3; the first cycle reports A and B, the second B and C. *)
Definition probe_AB (now : string) : Enumerator.Probe :=
  Enumerator.mkProbe (take 2 (Enumerator.mock_detect_hooks now))
    (Enumerator.mock_get_process_info now).

Definition probe_BC (now : string) : Enumerator.Probe :=
  Enumerator.mkProbe (drop 1 (Enumerator.mock_detect_hooks now))
    (Enumerator.mock_get_process_info now).

Definition after_AB : HookMonitor :=
  _perform_scan (HookMonitor_init "medium") (probe_AB "t1") "t1".

Definition after_BC : HookMonitor :=
  _perform_scan after_AB (probe_BC "t2") "t2".

(** The subscriber-isolation scenario: [s1] raises on every call, [s2]
    returns; both are registered, in this order, and one scan of the mock
    probe has run. *)
Definition s1 : Callback := mkCallback 1 (fun _ _ => Some "s1 failed").
Definition s2 : Callback := mkCallback 2 (fun _ _ => None).

Definition two_subscribers : HookMonitor :=
  add_event_callback (add_event_callback (HookMonitor_init "medium") s1) s2.

Definition two_subscribers_scanned : HookMonitor :=
  _perform_scan two_subscribers (Enumerator.mock_probe "t") "t".




(** [add_event_callback] called once for each element of [cbs], in order. *)
Definition register_all (self : HookMonitor) (cbs : list Callback) : HookMonitor :=
  fold_left add_event_callback cbs self.

(** A process that keeps its keyboard hook and loads one more module
    between two cycles of the Windows probe. *)
Definition late_dll_os (dlls : list string) : Enumerator.OsView :=
  Enumerator.mkOsView [20]
    (fun pid =>
       if pid =? 20
       then Some (Enumerator.mkProcessInfo 20 "updater.exe"
                    "C:\Users\u\AppData\Local\Temp\updater.exe" 4 false
                    "DESKTOP\u" true false dlls ["NORMAL"] "")
       else None).

(** One subscriber that records every call, and the two cycles. *)
Definition watched : HookMonitor :=
  add_event_callback (HookMonitor_init "medium") s2.

Definition watched_first : HookMonitor :=
  _perform_scan watched
    (Enumerator.windows_probe (late_dll_os ["ntdll.dll"; "user32.dll"]) "t1") "t1".

Definition watched_second : HookMonitor :=
  _perform_scan watched_first
    (Enumerator.windows_probe
       (late_dll_os ["ntdll.dll"; "user32.dll"; "keyhook.dll"]) "t2") "t2".

(** The dict [risk_order] of [get_events]. *)
Definition risk_order (level : RiskLevel) : Z :=
  match level with
  | LOW => 0
  | MEDIUM => 1
  | HIGH => 2
  | UNKNOWN => -1
  end.

(** [get_events]: an absent or empty [event_type] and an absent [min_risk]
    do not filter. *)
Definition get_events (self : HookMonitor) (ty : option string)
    (min_risk : option RiskLevel) : list MonitorEvent :=
  let filtered := events self in
  let filtered :=
    match ty with
    | None | Some "" => filtered
    | Some ty => List.filter (fun e => String.eqb (event_type e) ty) filtered
    end in
  match min_risk with
  | None => filtered
  | Some min_risk =>
      let min_level := risk_order min_risk in
      List.filter
        (fun e =>
           match risk_assessment e with
           | None => false
           | Some a => min_level <=? risk_order (risk_level a)
           end)
        filtered
  end.

(** What the three handlers record: a removal carries no assessment, an
    addition and a change carry one; every event names its hook. *)
Definition event_wf (e : MonitorEvent) : Prop :=
  is_Some (hook_info e)
  /\ match risk_assessment e with
     | None => event_type e = "hook_removed"
     | Some _ => event_type e = "hook_added" \/ event_type e = "process_changed"
     end.

(** One entry of the list [snapshot] returns. *)
Record SnapshotItem := mkSnapshotItem {
  item_hook : Enumerator.HookInfo;
  item_process : Enumerator.ProcessInfo;
  item_assessment : RiskAssessment;
  item_timestamp : string
}.





End Monitor.

(** ** keylogger_detector.py: the decision core *)

Module Detector.

Record KeyloggerDetection := mkKeyloggerDetection {
  pid : Z;
  name : string;
  path : string;
  confidence : float;
  evidence : list string;
  threat_score : Z;
  network_activity : bool;
  file_logging : bool;
  memory_suspicious : bool;
  process_injection : bool
}.

(** The [proc] dict handed to [analyze_process]: each key may be absent,
    and [proc.get(key, default)] reads it. *)
Record ProcDict := mkProcDict {
  d_name : option string;
  d_path : option string;
  d_pid : option Z;
  d_is_signed : option bool;
  d_is_hidden : option bool
}.

(** *** What the operating system answers

    [psutil] and [win32api] are outside the repository.  Each query the
    code makes is a field; [None] stands for a query that raised one of
    the exceptions the surrounding [try] catches ([NoSuchProcess],
    [AccessDenied], [AttributeError]). *)

Record Connection := mkConnection {
  status : string;
  raddr : option (string * Z)      (* [(ip, port)], or the empty tuple *)
}.

Record ParentProcess := mkParentProcess {
  parent_name : option string;     (* [parent.name()] *)
  parent_is_running : bool         (* [parent.is_running()] *)
}.

Record PsProcess := mkPsProcess {
  net_connections : option (list Connection);
  open_files : option (list string);       (* the [.path] of each entry *)
  memory_rss : option Z;                   (* [memory_info().rss] *)
  parent : option (option ParentProcess);  (* [proc.parent()], maybe [None] *)
  proc_name : option string;               (* [proc.name()] *)
  cmdline : option (list string);
  num_threads : option Z
}.

Record Os := mkOs {
  ps_process : Z -> option PsProcess;      (* [psutil.Process(pid)] *)
  get_publisher : string -> option string  (* [_get_publisher(path)] *)
}.

Definition trusted_publishers : gset string :=
  list_to_set
    [ "microsoft corporation"; "microsoft windows"; "microsoft";
      "apple inc."; "apple inc"; "apple computer, inc."; "apple";
      "google llc"; "google inc."; "google";
      "hp inc."; "hewlett-packard"; "hp development company"; "hp";
      "dell inc."; "dell computer corporation"; "dell";
      "lenovo"; "lenovo group limited";
      "asus"; "asustek computer inc.";
      "logitech inc."; "logitech";
      "razer inc."; "razer";
      "corsair memory, inc."; "corsair";
      "steelseries"; "steelseries aps";
      "nvidia corporation"; "nvidia";
      "advanced micro devices, inc."; "amd"; "ati technologies inc.";
      "intel corporation"; "intel";
      "realtek semiconductor corp."; "realtek";
      "mozilla corporation"; "mozilla foundation"; "mozilla";
      "oracle corporation"; "oracle america, inc."; "oracle";
      "adobe inc."; "adobe systems incorporated"; "adobe";
      "vmware, inc."; "vmware";
      "citrix systems, inc."; "citrix";
      "symantec corporation"; "norton";
      "mcafee, llc"; "mcafee inc."; "mcafee";
      "trend micro inc."; "trend micro";
      "kaspersky lab"; "kaspersky";
      "avast software"; "avg technologies";
      "malwarebytes inc."; "malwarebytes";
      "zoom video communications, inc."; "zoom";
      "cisco systems, inc."; "cisco";
      "slack technologies, inc."; "slack";
      "discord inc."; "discord";
      "telegram messenger llp"; "telegram";
      "whatsapp inc."; "whatsapp";
      "spotify ab"; "spotify ltd"; "spotify";
      "valve corporation"; "valve";
      "epic games, inc."; "epic games";
      "dropbox, inc."; "dropbox";
      "box, inc."; "box";
      "jetbrains s.r.o."; "jetbrains";
      "github, inc."; "github";
      "atlassian pty ltd"; "atlassian" ].

Definition safe_process_names : gset string :=
  list_to_set
    [ "system"; "smss.exe"; "csrss.exe"; "wininit.exe"; "services.exe";
      "lsass.exe"; "svchost.exe"; "explorer.exe"; "taskhostw.exe";
      "dwm.exe"; "winlogon.exe"; "fontdrvhost.exe"; "sihost.exe";
      "ctfmon.exe"; "taskmgr.exe"; "registry"; "spoolsv.exe";
      "shellhost.exe"; "lockapp.exe"; "runtimebroker.exe";
      "applicationframehost.exe"; "startmenuexperiencehost.exe";
      "searchhost.exe"; "widgets.exe"; "textinputhost.exe";
      "securityhealthsystray.exe"; "securityhealthservice.exe";
      "winword.exe"; "excel.exe"; "powerpnt.exe"; "outlook.exe";
      "onenote.exe"; "teams.exe"; "onedrive.exe";
      "chrome.exe"; "firefox.exe"; "msedge.exe"; "iexplore.exe";
      "opera.exe"; "brave.exe";
      "code.exe"; "devenv.exe"; "sublime_text.exe"; "notepad.exe";
      "notepad++.exe"; "pycharm64.exe"; "idea64.exe";
      "discord.exe"; "slack.exe"; "zoom.exe"; "spotify.exe";
      "vlc.exe"; "steam.exe" ].

(** The list [trusted_paths] of [_is_trusted_location]. *)
Definition trusted_paths : list string :=
  [ "c:\windows\system32";
    "c:\windows\syswow64";
    "c:\windows\explorer.exe";
    "c:\program files\windowsapps";
    "c:\windows\systemapps";
    "c:\windows\winsxs";
    "c:\program files\hp";
    "c:\program files\nvidia corporation";
    "c:\program files\logioptionsplus";
    "c:\program files\logioptions";
    "c:\program files\dell";
    "c:\program files\intel";
    "c:\program files\amd";
    "c:\program files\realtek" ].

(** [_is_trusted_location].  The two Program Files patterns are raw
    string literals that end in two backslashes. *)
Definition _is_trusted_location (file_path : string) : bool :=
  let path_lower := Text.lower file_path in
  if Text.contains "c:\program files\\" path_lower
     || Text.contains "c:\program files (x86)\\" path_lower
  then
    if Text.any_in ["\temp\"; "\cache\"; "\downloads\"] path_lower
    then false
    else true
  else Text.any_in trusted_paths path_lower.

(** [_is_suspicious_location] *)
Definition _is_suspicious_location (file_path : string) : bool :=
  Text.any_in
    [ "\temp\"; "\tmp\";
      "appdata\local\temp";
      "appdata\roaming\temp";
      "\downloads\";
      "\desktop\";
      "\documents\random" ]
    (Text.lower file_path).

(** The dict [critical_processes], in the order [items()] yields it. *)
Definition critical_processes : list (string * string) :=
  [ ("svchost.exe", "c:\windows\system32");
    ("csrss.exe", "c:\windows\system32");
    ("lsass.exe", "c:\windows\system32");
    ("winlogon.exe", "c:\windows\system32");
    ("explorer.exe", "c:\windows");
    ("dwm.exe", "c:\windows\system32") ].

Fixpoint spoofing_loop (items : list (string * string))
    (name name_lower path_lower : string) : bool * string :=
  match items with
  | [] => (false, "")
  | (sys_name, required_path) :: rest =>
      if String.eqb name_lower sys_name
         && negb (Text.contains required_path path_lower)
      then (true, "'" ++ name ++ "' found in WRONG location (not "
                  ++ required_path ++ ")")
      else spoofing_loop rest name name_lower path_lower
  end.

(** [_detect_name_spoofing] *)
Definition _detect_name_spoofing (name path : string) : bool * string :=
  spoofing_loop critical_processes name (Text.lower name) (Text.lower path).

Definition keywords : list string :=
  [ "keylog"; "keystroke"; "keycapture"; "keyrecord";
    "pynput"; "pyhook"; "keyboard_hook"; "kb_hook";
    "hook_keys"; "capture_keys"; "record_keys" ].

(** [_has_keylogger_keywords] *)
Definition _has_keylogger_keywords (name path : string) : list string :=
  let full_text := Text.lower (name ++ " " ++ path) in
  List.filter (fun kw => Text.contains kw full_text) keywords.

Definition standard_ports : list Z := [80; 443; 53; 22; 21; 25; 587].

(** [_check_network_exfiltration] *)
Definition _check_network_exfiltration (os : Os) (pid : Z) : bool * string :=
  match ps_process os pid with
  | None => (false, "")
  | Some proc =>
      match net_connections proc with
      | None => (false, "")
      | Some connections =>
          let suspicious_connections :=
            omap (fun conn =>
                    if String.eqb (status conn) "ESTABLISHED"
                    then match raddr conn with
                         | Some (ip, port) =>
                             if negb (existsb (Z.eqb port) standard_ports)
                             then Some (ip ++ ":" ++ Text.str port)
                             else None
                         | None => None
                         end
                    else None)
                 connections in
          match suspicious_connections with
          | [] => (false, "")
          | _ => (true, "Outbound connections: "
                        ++ Text.join ", " (take 3 suspicious_connections))
          end
      end
  end.

Definition suspicious_patterns : list string :=
  [ "log"; "dump"; "capture"; "record"; "output";
    ".txt"; ".dat"; ".bin"; "temp"; "cache" ].

(** [_check_file_logging] *)
Definition _check_file_logging (os : Os) (pid : Z) : bool * string :=
  match ps_process os pid with
  | None => (false, "")
  | Some proc =>
      match open_files proc with
      | None => (false, "")
      | Some files =>
          let suspicious_files :=
            List.filter
              (fun file =>
                 let file_lower := Text.lower file in
                 Text.any_in suspicious_patterns file_lower
                 && Text.any_in ["\temp\"; "\appdata\"; "\users\"] file_lower)
              files in
          match suspicious_files with
          | [] => (false, "")
          | first :: _ => (true, "Writing to: " ++ first)
          end
      end
  end.

(** [f"{rss / (1024*1024):.1f}"]: the quotient by 2^20 is exact in
    binary64 for [rss] below 2^53, and ['.1f'] rounds that value to one
    decimal, ties to even. *)
Definition format_mb (rss : Z) : string :=
  let n := Z.abs rss * 10 in
  let q := n / 1048576 in
  let r := n mod 1048576 in
  let tenths :=
    if (1048576 <? 2 * r) || ((2 * r =? 1048576) && Z.odd q) then q + 1 else q in
  (if rss <? 0 then "-" else "")
  ++ Text.str (tenths / 10) ++ "." ++ Text.str (tenths mod 10).

(** [_check_memory_patterns] *)
Definition _check_memory_patterns (os : Os) (pid : Z) : bool * string :=
  match ps_process os pid with
  | None => (false, "")
  | Some proc =>
      match memory_rss proc with
      | None => (false, "")
      | Some rss =>
          if rss <? 10 * 1024 * 1024
          then (true, "Minimal memory footprint: " ++ format_mb rss ++ "MB")
          else if 500 * 1024 * 1024 <? rss
          then (true, "Excessive memory usage: " ++ format_mb rss ++ "MB")
          else (false, "")
      end
  end.

(** [_check_process_ancestry] *)
Definition _check_process_ancestry (os : Os) (pid : Z) : bool * string :=
  match ps_process os pid with
  | None => (false, "")
  | Some proc =>
      match parent proc with
      | None | Some None => (false, "")
      | Some (Some par) =>
          match parent_name par, proc_name proc with
          | Some pname, Some name =>
              let parent_name := Text.lower pname in
              let proc_name := Text.lower name in
              if Text.mem proc_name ["svchost.exe"; "csrss.exe"; "lsass.exe"]
                 && negb (Text.mem parent_name ["services.exe"; "wininit.exe"])
              then (true, "Suspicious parent: " ++ pname ++ " ‚Üí " ++ name)
              else if Text.mem parent_name
                        ["python.exe"; "pythonw.exe"; "powershell.exe"; "cmd.exe"]
              then (true, "Spawned from: " ++ pname)
              else if negb (parent_is_running par)
              then (true, "Orphaned process (parent terminated)")
              else (false, "")
          | _, _ => (false, "")
          end
      end
  end.

(** [_check_dll_injection_indicators] *)
Definition _check_dll_injection_indicators (os : Os) (pid : Z) : bool * string :=
  match ps_process os pid with
  | None => (false, "")
  | Some proc =>
      match cmdline proc with
      | None => (false, "")
      | Some _ =>
          match num_threads proc with
          | None => (false, "")
          | Some n =>
              if n <? 3
              then (true, "Minimal threads: " ++ Text.str n ++ " (likely injected)")
              else (false, "")
          end
      end
  end.

(** The locals [evidence], [threat_score] and [confidence]. *)
Record Tally := mkTally {
  tally_evidence : list string;
  tally_threat : Z;
  tally_confidence : float
}.

(** [if fired: evidence.append(line); threat_score += points;
     confidence += conf] *)
Definition indicator (fired : bool) (line : string) (points : Z) (conf : float)
    (t : Tally) : Tally :=
  if fired
  then mkTally (tally_evidence t ++ [line]) (tally_threat t + points)
         (tally_confidence t + conf)%float
  else t.

(** [_advanced_behavioral_analysis]: [(confidence, evidence)]; the threat
    field of the tally counts the lines, which is [len(evidence)]. *)
Definition _advanced_behavioral_analysis (os : Os) (pid : Z) : float * list string :=
  let t := mkTally [] 0 0.0%float in
  let '(has_network, net_msg) := _check_network_exfiltration os pid in
  let t := indicator has_network ("üåê NETWORK EXFILTRATION: " ++ net_msg) 1 0.35%float t in
  let '(has_logging, log_msg) := _check_file_logging os pid in
  let t := indicator has_logging ("üìù FILE LOGGING: " ++ log_msg) 1 0.3%float t in
  let '(mem_suspicious, mem_msg) := _check_memory_patterns os pid in
  let t := indicator mem_suspicious ("üß† MEMORY PATTERN: " ++ mem_msg) 1 0.2%float t in
  let '(suspicious_parent, parent_msg) := _check_process_ancestry os pid in
  let t := indicator suspicious_parent ("üë®‚Äçüë¶ PROCESS ANCESTRY: " ++ parent_msg) 1 0.25%float t in
  let '(dll_inject, dll_msg) := _check_dll_injection_indicators os pid in
  let t := indicator dll_inject ("üíâ DLL INJECTION: " ++ dll_msg) 1 0.3%float t in
  (tally_confidence t, tally_evidence t).

(** [if publisher:] for an [Optional[str]] *)
Definition truthy (publisher : option string) : bool :=
  match publisher with
  | Some "" | None => false
  | Some _ => true
  end.

(** Stage 1 of [analyze_process]: [true] when one of the three early
    [return None] is taken. *)
Definition whitelisted (os : Os) (name path : string) : bool :=
  if bool_decide (Text.lower name ∈ safe_process_names)
     && negb (fst (_detect_name_spoofing name path))
  then true
  else if _is_trusted_location path
          && negb (fst (_detect_name_spoofing name path))
  then true
  else
    let publisher := get_publisher os path in
    match publisher with
    | Some pub =>
        truthy publisher
        && existsb (fun trusted => Text.contains trusted (Text.lower pub))
                   (elements trusted_publishers)
        && negb (fst (_detect_name_spoofing name path))
    | None => false
    end.

(** Stage 2 of [analyze_process], from [evidence = []] to the line before
    the flags: the three locals as the decision finds them. *)
Definition accumulate (os : Os) (proc : ProcDict) : Tally :=
  let name := default "" (d_name proc) in
  let path := default "" (d_path proc) in
  let pid := default 0 (d_pid proc) in
  let publisher := get_publisher os path in
  let t := mkTally [] 0 0.0%float in
  let '(is_spoofing, spoof_msg) := _detect_name_spoofing name path in
  let t := indicator is_spoofing ("üö® NAME SPOOFING: " ++ spoof_msg) 2 0.4%float t in
  let keywords := _has_keylogger_keywords name path in
  let t := indicator (match keywords with [] => false | _ => true end)
             ("üö® KEYLOGGER KEYWORDS: " ++ Text.join ", " keywords) 2 0.5%float t in
  let is_signed := default false (d_is_signed proc) in
  let t := indicator (negb is_signed) "‚ö†Ô∏è Unsigned binary with keyboard hook" 1 0.2%float t in
  let t := indicator (_is_suspicious_location path)
             ("‚ö†Ô∏è Suspicious location: " ++ path) 1 0.25%float t in
  let t := indicator (negb (truthy publisher) && negb (_is_trusted_location path))
             "‚ö†Ô∏è Unknown publisher in non-standard location" 1 0.15%float t in
  let t := indicator (default false (d_is_hidden proc)) "‚ö†Ô∏è Hidden process with keyboard hook" 1 0.2%float t in
  let '(adv_confidence, adv_evidence) := _advanced_behavioral_analysis os pid in
  if (0 <? adv_confidence)%float
  then mkTally (tally_evidence t ++ adv_evidence)
         (tally_threat t + Z.of_nat (length adv_evidence))
         (tally_confidence t + adv_confidence)%float
  else t.

(** [min(confidence, 1.0)] *)
Definition clamp (confidence : float) : float :=
  if (1.0 <? confidence)%float then 1.0%float else confidence.

(** The flags and the decision at the end of [analyze_process]. *)
Definition decide_detection (proc : ProcDict) (t : Tally) : option KeyloggerDetection :=
  let evidence := tally_evidence t in
  let network_activity := existsb (Text.contains "NETWORK") evidence in
  let file_logging := existsb (Text.contains "FILE LOGGING") evidence in
  let memory_suspicious := existsb (Text.contains "MEMORY") evidence in
  let process_injection :=
    existsb (fun e => Text.contains "INJECTION" e || Text.contains "ANCESTRY" e)
            evidence in
  if 3 <=? tally_threat t
  then Some (mkKeyloggerDetection
               (default 0 (d_pid proc)) (default "" (d_name proc))
               (default "" (d_path proc))
               (clamp (tally_confidence t)) evidence (tally_threat t)
               network_activity file_logging memory_suspicious process_injection)
  else None.

(** [ProductionKeyloggerDetector.analyze_process] *)
Definition analyze_process (os : Os) (proc : ProcDict) : option KeyloggerDetection :=
  if whitelisted os (default "" (d_name proc)) (default "" (d_path proc))
  then None
  else decide_detection proc (accumulate os proc).


(** *** The confidence as a function of which indicators fire *)

Definition add_if (fired : bool) (conf acc : float) : float :=
  if fired then (acc + conf)%float else acc.

(** What [_advanced_behavioral_analysis] returns as confidence when the
    network, file, memory, ancestry and injection checks fire as given. *)
Definition advanced_confidence (net file mem anc inj : bool) : float :=
  add_if inj 0.3 (add_if anc 0.25 (add_if mem 0.2
    (add_if file 0.3 (add_if net 0.35 0.0))))%float.

(** The local [confidence] at the decision when the eleven indicators fire
    as given. *)
Definition total_confidence (spoof kw unsigned susp unknown hidden
                             net file mem anc inj : bool) : float :=
  let base :=
    add_if hidden 0.2 (add_if unknown 0.15 (add_if susp 0.25
      (add_if unsigned 0.2 (add_if kw 0.5 (add_if spoof 0.4 0.0)))))%float in
  let adv := advanced_confidence net file mem anc inj in
  if (0 <? adv)%float then (base + adv)%float else base.

(** *** Scenarios *)

(** An operating system that answers no [psutil] query and knows no
    publisher. *)
Definition silent_os : Os := mkOs (fun _ => None) (fun _ => None).

(** The process of the name-spoofing scenario with two threads, a small
    resident set and an established connection to port 4444. *)
Definition spoof_os : Os :=
  mkOs (fun pid =>
          if pid =? 4120
          then Some (mkPsProcess
                       (Some [mkConnection "ESTABLISHED" (Some ("203.0.113.7", 4444))])
                       (Some []) (Some 5242880)
                       (Some (Some (mkParentProcess (Some "explorer.exe") true)))
                       (Some "svchost.exe") (Some ["svchost.exe"]) (Some 2))
          else None)
       (fun _ => None).

Definition spoof_dict : ProcDict :=
  mkProcDict (Some "svchost.exe") (Some "C:\Temp\svchost.exe") (Some 4120)
    (Some false) (Some true).

(** A safe name in its trusted location, with every other indicator on:
    unsigned, hidden, and the behaviour of [spoof_os]. *)
Definition genuine_dict : ProcDict :=
  mkProcDict (Some "svchost.exe") (Some "C:\Windows\System32\svchost.exe") (Some 4120)
    (Some false) (Some true).

(** *** The eleven indicators of [analyze_process] *)

Record Indicators := mkIndicators {
  i_spoof : bool;
  i_keywords : bool;
  i_unsigned : bool;
  i_location : bool;
  i_unknown : bool;
  i_hidden : bool;
  i_network : bool;
  i_file : bool;
  i_memory : bool;
  i_ancestry : bool;
  i_injection : bool
}.

(** Which of the eleven tests of stage 2 hold for a process. *)
Definition indicators (os : Os) (proc : ProcDict) : Indicators :=
  let name := default "" (d_name proc) in
  let path := default "" (d_path proc) in
  let pid := default 0 (d_pid proc) in
  mkIndicators
    (fst (_detect_name_spoofing name path))
    (match _has_keylogger_keywords name path with [] => false | _ => true end)
    (negb (default false (d_is_signed proc)))
    (_is_suspicious_location path)
    (negb (truthy (get_publisher os path)) && negb (_is_trusted_location path))
    (default false (d_is_hidden proc))
    (fst (_check_network_exfiltration os pid))
    (fst (_check_file_logging os pid))
    (fst (_check_memory_patterns os pid))
    (fst (_check_process_ancestry os pid))
    (fst (_check_dll_injection_indicators os pid)).

Definition points (fired : bool) (p : Z) : Z := if fired then p else 0.

(** The advanced lines are merged when their confidence is positive. *)
Definition advanced_merged (i : Indicators) : bool :=
  (0 <? advanced_confidence (i_network i) (i_file i) (i_memory i)
                            (i_ancestry i) (i_injection i))%float.

Definition advanced_lines (i : Indicators) : Z :=
  points (i_network i) 1 + points (i_file i) 1 + points (i_memory i) 1
  + points (i_ancestry i) 1 + points (i_injection i) 1.

(** The local [threat_score] at the decision. *)
Definition threat_of (i : Indicators) : Z :=
  points (i_spoof i) 2 + points (i_keywords i) 2 + points (i_unsigned i) 1
  + points (i_location i) 1 + points (i_unknown i) 1 + points (i_hidden i) 1
  + (if advanced_merged i then advanced_lines i else 0).

(** [len(evidence)] at the decision. *)
Definition lines_of (i : Indicators) : Z :=
  points (i_spoof i) 1 + points (i_keywords i) 1 + points (i_unsigned i) 1
  + points (i_location i) 1 + points (i_unknown i) 1 + points (i_hidden i) 1
  + (if advanced_merged i then advanced_lines i else 0).

Definition confidence_of (i : Indicators) : float :=
  total_confidence (i_spoof i) (i_keywords i) (i_unsigned i) (i_location i)
    (i_unknown i) (i_hidden i) (i_network i) (i_file i) (i_memory i)
    (i_ancestry i) (i_injection i).

(** A process on which all eleven indicators fire. *)
Definition loud_os : Os :=
  mkOs (fun _ =>
          Some (mkPsProcess
                  (Some [mkConnection "ESTABLISHED" (Some ("203.0.113.7", 4444))])
                  (Some ["C:\Users\u\AppData\keys.log"]) (Some 5242880)
                  (Some (Some (mkParentProcess (Some "cmd.exe") true)))
                  (Some "svchost.exe") (Some ["svchost.exe"]) (Some 2)))
       (fun _ => None).

Definition loud_dict : ProcDict :=
  mkProcDict (Some "svchost.exe") (Some "C:\Temp\keylog\svchost.exe") (Some 4120)
    (Some false) (Some true).

(** A publisher string that contains a trusted name. *)
Definition signed_os : Os :=
  mkOs (fun _ => None) (fun _ => Some "Contoso (a Microsoft partner)").

(** The dict [scan_system] builds from the facts of a hooked process. *)
Definition proc_dict_of (proc_info : Enumerator.ProcessInfo) : ProcDict :=
  mkProcDict (Some (Enumerator.name proc_info)) (Some (Enumerator.path proc_info))
    (Some (Enumerator.pid proc_info)) (Some (Enumerator.is_signed proc_info))
    (Some (Enumerator.is_hidden_window proc_info)).

(** The [for idx, pid in enumerate(hooked_pids, 1)] loop of [scan_system],
    without the progress bar it prints. *)
Fixpoint scan_loop (os : Os) (view : Enumerator.OsView) (pids : list Z)
    (detections : list KeyloggerDetection) : list KeyloggerDetection :=
  match pids with
  | [] => detections
  | pid :: rest =>
      match Enumerator.os_process view pid with
      | None => scan_loop os view rest detections
      | Some proc_info =>
          match analyze_process os (proc_dict_of proc_info) with
          | Some detection => scan_loop os view rest (detections ++ [detection])
          | None => scan_loop os view rest detections
          end
      end
  end.

(** [scan_system]: the hooks of the Windows probe, the set of their owner
    pids, and one analysis per pid.  Python does not fix the order in
    which the set is iterated; the model takes the order of [elements]. *)
Definition scan_system (os : Os) (view : Enumerator.OsView) (now : string)
    : list KeyloggerDetection :=
  let hooks := Enumerator.detect_hooks view now in
  let keyboard_hooks :=
    List.filter (fun h => Text.contains "KEYBOARD" (Enumerator.hook_type h)) hooks in
  let hooked_pids : gset Z := list_to_set (map Enumerator.owner_pid keyboard_hooks) in
  scan_loop os view (elements hooked_pids) [].

(** A tool under a folder named NETWORK on the desktop. *)
Definition desktop_dict : ProcDict :=
  mkProcDict (Some "kbd.exe") (Some "C:\Users\me\Desktop\NETWORK\kbd.exe") (Some 7)
    (Some false) (Some false).

End Detector.

(** ** report.py: the summary *)

Module Report.

Import Heuristics Monitor.

(** The dict [generate_summary_report] returns. *)
Record Summary := mkSummary {
  generated_at : string;
  total_hooks : Z;
  unique_processes : Z;
  total_events : Z;
  risk_distribution : gmap string Z;
  event_types : gmap string Z;
  high_risk_processes : list (Z * string * string * Z)
}.

(** [counter[key] += 1] on a [Counter]: a missing key counts as 0. *)
Definition count_up (key : string) (counter : gmap string Z) : gmap string Z :=
  <[key := default 0 (counter !! key) + 1]> counter.

(** [generate_summary_report]; [now] is [datetime.now().isoformat()]. *)
Definition generate_summary_report (snapshot_data : list SnapshotItem)
    (events : list MonitorEvent) (now : string) : Summary :=
  let risk_counts :=
    fold_left
      (fun counter item =>
         count_up (level_str (risk_level (item_assessment item))) counter)
      snapshot_data ∅ in
  let event_counts :=
    fold_left (fun counter e => count_up (event_type e) counter) events ∅ in
  let process_names : gset string :=
    fold_left (fun names item => names ∪ {[ Enumerator.name (item_process item) ]})
      snapshot_data ∅ in
  let high_risk_procs :=
    omap (fun item =>
            if String.eqb (level_str (risk_level (item_assessment item))) "HIGH"
            then Some (Enumerator.pid (item_process item),
                       Enumerator.name (item_process item),
                       Enumerator.path (item_process item),
                       risk_score (item_assessment item))
            else None)
         snapshot_data in
  mkSummary now (Z.of_nat (length snapshot_data)) (Z.of_nat (size process_names))
    (Z.of_nat (length events)) risk_counts event_counts high_risk_procs.

(** How many elements of [l] have the key [k]. *)
Definition tally {A : Type} (key : A -> string) (k : string) (l : list A) : Z :=
  Z.of_nat (length (List.filter (fun x => String.eqb (key x) k) l)).

End Report.

(** * Facts about substring search *)

Module TextFacts.

Lemma prefix_app_l n a b : String.prefix n a = true -> String.prefix n (a ++ b) = true.
Proof.
  revert a. induction n as [|c n IH]; intros a H; [destruct (a ++ b); reflexivity|].
  destruct a as [|c' a]; [discriminate H|].
  change (String c' a ++ b) with (String c' (a ++ b)). cbn [String.prefix] in *.
  destruct (ascii_dec c c'); [apply IH, H|discriminate H].
Qed.

Lemma contains_app_l n a b : Text.contains n a = true -> Text.contains n (a ++ b) = true.
Proof.
  induction a as [|c a IH]; cbn [Text.contains]; intros H.
  - rewrite orb_false_r in H. destruct n; [|discriminate H].
    destruct b; reflexivity.
  - apply orb_true_iff in H as [H|H].
    + pose proof (prefix_app_l _ (String c a) b H) as Hp.
      change (String c a ++ b) with (String c (a ++ b)) in *.
      cbn [Text.contains]. rewrite Hp. reflexivity.
    + change (String c a ++ b) with (String c (a ++ b)). cbn [Text.contains].
      rewrite (IH H). apply orb_true_r.
Qed.

Lemma contains_app_r n a b : Text.contains n b = true -> Text.contains n (a ++ b) = true.
Proof.
  intros H. induction a as [|c a IH]; [exact H|].
  change (String c a ++ b) with (String c (a ++ b)). cbn [Text.contains].
  rewrite IH. apply orb_true_r.
Qed.

End TextFacts.

(** * Facts about enumerator.py *)

Module EnumeratorFacts.

Import Enumerator.

Lemma detect_hooks_loop_lookup os now pids : forall hook_id hooks i h,
  detect_hooks_loop os now pids hook_id hooks !! i = Some h ->
  (hooks !! i = Some h)
  \/ ((length hooks <= i)%nat
      /\ Enumerator.hook_id h = hook_id + Z.of_nat (i - length hooks)
      /\ List.filter (is_candidate os) pids !! (i - length hooks)%nat
         = Some (owner_pid h)).
Proof.
  induction pids as [|pid pids IH]; intros hook_id hooks i h H; cbn in H.
  - left. exact H.
  - cbn [List.filter].
    assert (Hc : is_candidate os pid
                 = match os_process os pid with
                   | None => false
                   | Some proc_info =>
                       existsb (fun dll => Text.contains "user32" (Text.lower dll))
                               (loaded_dlls proc_info)
                       || existsb (fun dll => Text.contains "hook" (Text.lower dll))
                                  (loaded_dlls proc_info)
                       || _likely_has_hooks proc_info
                   end) by reflexivity.
    destruct (os_process os pid) as [proc_info|]; rewrite Hc; clear Hc;
      [|apply IH, H].
    destruct (_ || _ || _); [|apply IH, H].
    apply IH in H as [H | (Hle & Hid & Hf)].
    + destruct (decide (i < length hooks)%nat) as [Hlt|Hge].
      * left. rewrite lookup_app_l in H by exact Hlt. exact H.
      * right. rewrite lookup_app_r in H by lia.
        destruct (i - length hooks)%nat as [|n] eqn:En; [|destruct n; discriminate H].
        cbn in H. injection H as <-. cbn. split; [lia|]. split; [lia|reflexivity].
    + right. rewrite length_app in Hle, Hid, Hf. cbn [length] in Hle, Hid, Hf.
      split; [lia|]. split; [lia|].
      replace (i - length hooks)%nat with (S (i - (length hooks + 1)))%nat by lia.
      exact Hf.
Qed.

Lemma detect_hooks_lookup os now i h :
  detect_hooks os now !! i = Some h ->
  hook_id h = Z.of_nat i + 1
  /\ List.filter (is_candidate os) (os_pids os) !! i = Some (owner_pid h).
Proof.
  intros H. apply detect_hooks_loop_lookup in H as [H | (_ & Hid & Hf)].
  - discriminate H.
  - cbn [length] in Hid, Hf. rewrite Nat.sub_0_r in Hid, Hf. split; [lia|exact Hf].
Qed.

Lemma NoDup_list_filter {A} (f : A -> bool) (l : list A) :
  NoDup l -> NoDup (List.filter f l).
Proof.
  induction 1 as [|x l Hx Hnd IH]; cbn; [constructor|].
  destruct (f x); [|exact IH]. constructor; [|exact IH].
  rewrite list_elem_of_In, filter_In. intros [H _]. apply Hx, list_elem_of_In, H.
Qed.

(** C8 (as stated, refuted): process 20 keeps the same registration (same
    owner pid, hook type and module path) over two cycles of the Windows
    probe, and its hook id is 2 in the first and 1 in the second, because
    process 10 exited in between. *)
Lemma hook_id_shifts_when_earlier_process_exits :
  exists h1 h2,
    In h1 (detect_hooks exit_os_before "cycle 1")
    /\ In h2 (detect_hooks exit_os_after "cycle 2")
    /\ same_registration h1 h2
    /\ hook_id h1 = 2
    /\ hook_id h2 = 1.
Proof.
  exists (mkHookInfo 2 "WH_KEYBOARD_LL" 20 "second.exe" "C:\Apps\second.exe" "cycle 1"),
         (mkHookInfo 1 "WH_KEYBOARD_LL" 20 "second.exe" "C:\Apps\second.exe" "cycle 2").
  split; [vm_compute; right; left; reflexivity|].
  split; [vm_compute; left; reflexivity|].
  repeat split.
Qed.

(** C8 (amended): the mock probe gives a registration the same hook id in
    every cycle.  The Windows probe numbers the hook candidates from 1 in
    the order the processes are enumerated: a hook at the same position in
    two cycles has the same id, and when two cycles see the same candidate
    pids in the same order, hooks of the same owner have the same id. *)
Theorem hook_id_stability now1 now2 m1 m2 os1 os2 t1 t2 h1 h2 :
  (In m1 (mock_detect_hooks now1) -> In m2 (mock_detect_hooks now2) ->
   same_registration m1 m2 -> hook_id m1 = hook_id m2)
  /\ (forall i, detect_hooks os1 t1 !! i = Some h1 ->
                detect_hooks os2 t2 !! i = Some h2 ->
                hook_id h1 = Z.of_nat i + 1 /\ hook_id h2 = hook_id h1)
  /\ (NoDup (os_pids os1) ->
      List.filter (is_candidate os1) (os_pids os1)
      = List.filter (is_candidate os2) (os_pids os2) ->
      In h1 (detect_hooks os1 t1) -> In h2 (detect_hooks os2 t2) ->
      owner_pid h1 = owner_pid h2 -> hook_id h1 = hook_id h2).
Proof.
  split; [|split].
  - intros [<-|[<-|[<-|[]]]] [<-|[<-|[<-|[]]]] (Ho & Ht & Hm);
      try reflexivity; discriminate Ho.
  - intros i H1 H2.
    apply detect_hooks_lookup in H1 as [H1 _], H2 as [H2 _]. lia.
  - intros Hnd Hf Hin1 Hin2 Hown.
    apply list_elem_of_In, list_elem_of_lookup in Hin1 as [i Hi], Hin2 as [j Hj].
    apply detect_hooks_lookup in Hi as [Hi Hfi], Hj as [Hj Hfj].
    rewrite <- Hf, <- Hown in Hfj.
    assert (i = j) as ->.
    { eapply NoDup_lookup; [|exact Hfi|exact Hfj]. apply NoDup_list_filter, Hnd. }
    lia.
Qed.

Lemma hook_id_stability_witness :
  hook_id (mkHookInfo 2 "WH_KEYBOARD_LL" 4120 "badproc.exe" "C:\Temp\badproc.exe" "a")
  = hook_id (mkHookInfo 2 "WH_KEYBOARD_LL" 4120 "badproc.exe" "C:\Temp\badproc.exe" "b")
  /\ hook_id (mkHookInfo 2 "WH_KEYBOARD_LL" 20 "second.exe" "C:\Apps\second.exe" "c")
     = hook_id (mkHookInfo 2 "WH_KEYBOARD_LL" 20 "second.exe" "C:\Apps\second.exe" "d").
Proof.
  destruct (hook_id_stability "a" "b"
              (mkHookInfo 2 "WH_KEYBOARD_LL" 4120 "badproc.exe" "C:\Temp\badproc.exe" "a")
              (mkHookInfo 2 "WH_KEYBOARD_LL" 4120 "badproc.exe" "C:\Temp\badproc.exe" "b")
              exit_os_before exit_os_before "c" "d"
              (mkHookInfo 2 "WH_KEYBOARD_LL" 20 "second.exe" "C:\Apps\second.exe" "c")
              (mkHookInfo 2 "WH_KEYBOARD_LL" 20 "second.exe" "C:\Apps\second.exe" "d"))
    as (Hmock & _ & Hwin).
  split.
  - apply Hmock.
    + right; left; reflexivity.
    + right; left; reflexivity.
    + repeat split.
  - apply Hwin.
    + apply (bool_decide_unpack _). vm_compute. exact I.
    + reflexivity.
    + vm_compute. right; left; reflexivity.
    + vm_compute. right; left; reflexivity.
    + reflexivity.
Defined.

(** *** The list [detect_hooks] builds *)

Lemma detect_hooks_loop_maps os now pids : forall hook_id hooks,
  map owner_pid (detect_hooks_loop os now pids hook_id hooks)
  = (map owner_pid hooks ++ List.filter (is_candidate os) pids)%list
  /\ map Enumerator.hook_id (detect_hooks_loop os now pids hook_id hooks)
     = (map Enumerator.hook_id hooks
        ++ seqZ hook_id (Z.of_nat (length (List.filter (is_candidate os) pids))))%list
  /\ (Forall (hook_describes os now) hooks ->
      Forall (hook_describes os now) (detect_hooks_loop os now pids hook_id hooks)).
Proof.
  induction pids as [|pid pids IH]; intros hook_id hooks; cbn [detect_hooks_loop List.filter].
  - cbn. rewrite !app_nil_r. auto.
  - assert (Hc : is_candidate os pid
                 = match os_process os pid with
                   | None => false
                   | Some proc_info =>
                       existsb (fun dll => Text.contains "user32" (Text.lower dll))
                               (loaded_dlls proc_info)
                       || existsb (fun dll => Text.contains "hook" (Text.lower dll))
                                  (loaded_dlls proc_info)
                       || _likely_has_hooks proc_info
                   end) by reflexivity.
    destruct (os_process os pid) as [proc_info|] eqn:Hp; rewrite Hc; clear Hc;
      [|apply IH].
    destruct (_ || _ || _); [|apply IH].
    destruct (IH (hook_id + 1) (hooks ++ [mkHookInfo hook_id "WH_KEYBOARD_LL" pid
                                   (name proc_info) (path proc_info) now])%list)
      as (Ho & Hi & Hd).
    rewrite Ho, Hi. rewrite !map_app, <- !app_assoc.
    cbn [map app length owner_pid Enumerator.hook_id].
    split; [reflexivity|]. split.
    + rewrite (seqZ_cons hook_id) by lia. do 3 f_equal; lia.
    + intros H. apply Hd, Forall_app. split; [exact H|].
      constructor; [|constructor]. repeat split. exists proc_info. auto.
Qed.

(** X7: the Windows probe reports one hook for each listed pid that can be
    read and loads a user32 or hook module or has a listed name, in the
    order of the pid list and numbered 1, 2, 3, ...; every record has type
    WH_KEYBOARD_LL and carries the name and path of its owner. *)
Theorem detect_hooks_one_hook_per_candidate os now :
  map owner_pid (detect_hooks os now) = List.filter (is_candidate os) (os_pids os)
  /\ map hook_id (detect_hooks os now) = seqZ 1 (Z.of_nat (length (detect_hooks os now)))
  /\ Forall (hook_describes os now) (detect_hooks os now).
Proof.
  destruct (detect_hooks_loop_maps os now (os_pids os) 1 []) as (Ho & Hi & Hd).
  fold (detect_hooks os now) in Ho, Hi. cbn [map app] in Ho, Hi.
  split; [exact Ho|]. split; [|apply Hd; constructor].
  rewrite Hi. rewrite <- Ho, length_map. reflexivity.
Qed.

End EnumeratorFacts.

(** * Facts about heuristics.py *)

Module HeuristicsFacts.

Import Heuristics.

Lemma fire_lookup key ev st r :
  run_rules st !! key = Some r ->
  fire key ev st
  = Some (mkRun (<[key := mark_rule ev r]> (run_rules st))
                (run_triggered st ++ [mark_rule ev r])).
Proof. intros H. unfold fire. rewrite H. reflexivity. Qed.

(** *** Each check is one step *)

Lemma check_unsigned_binary_step proc hc st :
  _check_unsigned_binary proc st = exec_one (nth 0 (steps proc hc) ("", None)) st.
Proof.
  unfold _check_unsigned_binary, exec_one, outcome; simpl.
  destruct (Enumerator.is_signed proc); reflexivity.
Qed.

Lemma check_hidden_window_step proc hc st :
  _check_hidden_window proc st = exec_one (nth 1 (steps proc hc) ("", None)) st.
Proof.
  unfold _check_hidden_window, exec_one, outcome; simpl.
  destruct (Enumerator.is_hidden_window proc && negb (Enumerator.is_service proc));
    reflexivity.
Qed.

Lemma unusual_path_loop_closed pats proc path_lower st :
  unusual_path_loop pats proc path_lower st
  = exec_one ("unusual_path",
              outcome (Text.any_in pats path_lower)
                ("Executing from " ++ Enumerator.path proc)) st.
Proof.
  induction pats as [|pat pats IH]; simpl; [reflexivity|].
  destruct (Text.contains pat path_lower); simpl; [reflexivity|exact IH].
Qed.

Lemma check_unusual_path_step proc hc st :
  _check_unusual_path proc st = exec_one (nth 2 (steps proc hc) ("", None)) st.
Proof.
  unfold _check_unusual_path. cbn [nth steps].
  destruct (Text.contains "\windows\" (Text.lower (Enumerator.path proc))
            || Text.contains "\program files" (Text.lower (Enumerator.path proc)));
    [reflexivity|].
  apply unusual_path_loop_closed.
Qed.

Lemma check_elevated_privileges_step proc hc st :
  _check_elevated_privileges proc st = exec_one (nth 3 (steps proc hc) ("", None)) st.
Proof.
  unfold _check_elevated_privileges, exec_one, outcome. cbn [nth steps fst snd].
  destruct (Text.mem "ELEVATED" (Enumerator.privileges proc)
            && negb (Enumerator.is_service proc)); [|reflexivity].
  destruct (negb (Text.mem (Text.lower (Enumerator.name proc)) system_elevated));
    reflexivity.
Qed.

Lemma dll_pattern_loop_closed pats dll dll_lower st :
  dll_pattern_loop pats dll dll_lower st
  = if Text.any_in pats dll_lower
    then Some (fire "suspicious_dll" ("Loaded suspicious DLL: " ++ dll) st)
    else None.
Proof.
  induction pats as [|pat pats IH]; simpl; [reflexivity|].
  destruct (Text.contains pat dll_lower); simpl; [reflexivity|exact IH].
Qed.

Lemma check_suspicious_dlls_step proc hc st :
  _check_suspicious_dlls proc st = exec_one (nth 4 (steps proc hc) ("", None)) st.
Proof.
  unfold _check_suspicious_dlls, exec_one. cbn [nth steps fst snd].
  induction (Enumerator.loaded_dlls proc) as [|dll dlls IH]; [reflexivity|].
  cbn [dll_loop find]. rewrite dll_pattern_loop_closed.
  destruct (Text.any_in suspicious_dll_patterns (Text.lower dll));
    [reflexivity|exact IH].
Qed.

Lemma check_orphan_process_step proc hc st :
  _check_orphan_process proc st = exec_one (nth 5 (steps proc hc) ("", None)) st.
Proof.
  unfold _check_orphan_process, exec_one, outcome. cbn [nth steps fst snd].
  destruct ((0 <? Enumerator.parent_pid proc) && (Enumerator.parent_pid proc <? 4)
            && (100 <? Enumerator.pid proc)); reflexivity.
Qed.

Lemma temp_location_loop_closed pats proc path_lower st :
  temp_location_loop pats proc path_lower st
  = exec_one ("temp_location",
              outcome (Text.any_in pats path_lower)
                ("Running from temp: " ++ Enumerator.path proc)) st.
Proof.
  induction pats as [|pat pats IH]; simpl; [reflexivity|].
  destruct (Text.contains pat path_lower); simpl; [reflexivity|exact IH].
Qed.

Lemma check_temp_location_step proc hc st :
  _check_temp_location proc st = exec_one (nth 6 (steps proc hc) ("", None)) st.
Proof. apply temp_location_loop_closed. Qed.

Lemma check_name_spoofing_step proc hc st :
  _check_name_spoofing proc st = exec_one (nth 7 (steps proc hc) ("", None)) st.
Proof.
  unfold _check_name_spoofing, exec_one, outcome. cbn [nth steps fst snd].
  destruct (system_procs !! Text.lower (Enumerator.name proc)) as [expected|];
    [|reflexivity].
  destruct (negb (Text.contains expected (Text.lower (Enumerator.path proc))));
    reflexivity.
Qed.

Lemma check_service_anomaly_step proc hc st :
  _check_service_anomaly proc st = exec_one (nth 8 (steps proc hc) ("", None)) st.
Proof.
  unfold _check_service_anomaly, exec_one, outcome. cbn [nth steps fst snd].
  destruct (Enumerator.is_service proc && negb (Enumerator.is_signed proc));
    reflexivity.
Qed.

Lemma check_multiple_hooks_step proc hc st :
  _check_multiple_hooks hc st = exec_one (nth 9 (steps proc hc) ("", None)) st.
Proof.
  unfold _check_multiple_hooks, exec_one, outcome. cbn [nth steps fst snd].
  destruct (2 <? hc); reflexivity.
Qed.

(** *** A call is the run of its steps *)

(** One check of [analyze_process] against one step of [exec]: both sides
    run the same [exec_one], and go on only when it returned a state. *)
Ltac run_check H :=
  rewrite H; cbn [nth steps];
  match goal with
  | |- context [exec_one ?s ?st] =>
      destruct (exec_one s st); cbn [mbind option_bind]; [|reflexivity]
  end.

Lemma analyze_process_exec self proc hc now :
  analyze_process self proc hc now
  = st ← exec (steps proc hc) (mkRun (reset_rule <$> rules self) []);
    Some (mkRiskAssessment (Enumerator.pid proc) (Enumerator.name proc)
            (total_weight (run_triggered st))
            (level_of (total_weight (run_triggered st)))
            (run_triggered st)
            (_generate_explanation (run_triggered st) (total_weight (run_triggered st)))
            now,
          mkHeuristicEngine (sensitivity self) (run_rules st)).
Proof.
  unfold analyze_process. cbn [exec steps].
  run_check (check_unsigned_binary_step proc hc).
  run_check (check_hidden_window_step proc hc).
  run_check (check_unusual_path_step proc hc).
  run_check (check_elevated_privileges_step proc hc).
  run_check (check_suspicious_dlls_step proc hc).
  run_check (check_orphan_process_step proc hc).
  run_check (check_temp_location_step proc hc).
  run_check (check_name_spoofing_step proc hc).
  run_check (check_service_anomaly_step proc hc).
  run_check (check_multiple_hooks_step proc hc).
  reflexivity.
Qed.

(** *** Running steps keeps ids and weights *)

Lemma same_static_refl m : same_static m m.
Proof. intros k. reflexivity. Qed.

Lemma same_static_trans m1 m2 m3 :
  same_static m1 m2 -> same_static m2 m3 -> same_static m1 m3.
Proof. intros H12 H23 k. rewrite H12. apply H23. Qed.

Lemma same_static_reset m : same_static (reset_rule <$> m) m.
Proof. intros k. rewrite lookup_fmap. destruct (m !! k); reflexivity. Qed.

Lemma same_static_mark m key ev r :
  m !! key = Some r -> same_static (<[key := mark_rule ev r]> m) m.
Proof.
  intros Hr k. destruct (decide (key = k)) as [->|Hne].
  - rewrite lookup_insert_eq, Hr. reflexivity.
  - rewrite lookup_insert_ne by exact Hne. reflexivity.
Qed.

Lemma same_static_is_Some m1 m2 k :
  same_static m1 m2 -> is_Some (m2 !! k) -> is_Some (m1 !! k).
Proof.
  intros H [r Hr]. specialize (H k). rewrite Hr in H.
  destruct (m1 !! k); [eauto|discriminate].
Qed.

Lemma exec_spec l : forall st,
  (forall k, In k (map fst l) -> is_Some (run_rules st !! k)) ->
  exists st',
    exec l st = Some st'
    /\ same_static (run_rules st') (run_rules st)
    /\ map (fun r => Some (static r)) (run_triggered st')
       = (map (fun r => Some (static r)) (run_triggered st)
          ++ map (fun k => static <$> run_rules st !! k) (fired l))%list.
Proof.
  induction l as [|[k [ev|]] l IH]; intros st Hkeys.
  - exists st. cbn. rewrite app_nil_r. auto using same_static_refl.
  - destruct (Hkeys k) as [r Hr]; [left; reflexivity|].
    cbn [exec exec_one fst snd]. rewrite (fire_lookup _ _ _ _ Hr). cbn [mbind option_bind].
    set (st1 := mkRun _ _).
    assert (Hs1 : same_static (run_rules st1) (run_rules st))
      by (apply same_static_mark; exact Hr).
    destruct (IH st1) as (st' & He & Hs & Ht).
    { intros j Hj. apply (same_static_is_Some _ _ _ Hs1), Hkeys. right. exact Hj. }
    exists st'. split; [exact He|]. split; [eapply same_static_trans; eassumption|].
    rewrite Ht. cbn [st1 run_triggered run_rules fired].
    rewrite map_app, <- app_assoc. f_equal. cbn [map app]. rewrite Hr. cbn.
    f_equal. apply map_ext. intros j. apply Hs1.
  - cbn [exec exec_one fst snd mbind option_bind fired].
    apply IH. intros j Hj. apply Hkeys. right. exact Hj.
Qed.

Lemma fired_incl l k : In k (fired l) -> In k (map fst l).
Proof.
  induction l as [|[j [ev|]] l IH]; cbn; [tauto| |]; intros H.
  - destruct H as [->|H]; [left; reflexivity|right; auto].
  - right; auto.
Qed.

Lemma steps_keys proc hc : map fst (steps proc hc) = rule_keys.
Proof. reflexivity. Qed.

Lemma total_weight_sum trig : total_weight trig = sum_Z (map weight trig).
Proof.
  unfold total_weight, sum_Z.
  enough (H : forall l a, fold_left Z.add l a = a + foldr Z.add 0 l)
    by (rewrite H; reflexivity).
  induction l as [|x l IH]; intros a; cbn; [lia|]. rewrite IH. lia.
Qed.

(** *** The three rule tables *)

Lemma init_rules_cases s :
  rules (HeuristicEngine_init s) = rules (HeuristicEngine_init "high")
  \/ rules (HeuristicEngine_init s) = rules (HeuristicEngine_init "low")
  \/ rules (HeuristicEngine_init s) = rules (HeuristicEngine_init "medium").
Proof.
  unfold HeuristicEngine_init. cbn [rules].
  destruct (String.eqb s "high"); [left; reflexivity|].
  destruct (String.eqb s "low"); [right; left; reflexivity|right; right; reflexivity].
Qed.

Lemma init_static s k :
  In k rule_keys ->
  static <$> rules (HeuristicEngine_init s) !! k = Some (id_at k, weight_at s k).
Proof.
  intros Hk. unfold weight_at.
  destruct (init_rules_cases s) as [-> | [-> | ->]];
    cbn in Hk; repeat (destruct Hk as [<- | Hk]; [vm_compute; reflexivity|]);
    contradiction.
Qed.

Lemma weight_at_cases s k :
  weight_at s k = weight_at "high" k
  \/ weight_at s k = weight_at "low" k
  \/ weight_at s k = weight_at "medium" k.
Proof.
  unfold weight_at. destruct (init_rules_cases s) as [-> | [-> | ->]]; auto.
Qed.

Lemma engine_ok_keys s eng k :
  engine_ok s eng -> In k rule_keys -> is_Some (rules eng !! k).
Proof.
  intros Hok Hk. apply (same_static_is_Some _ _ _ Hok).
  pose proof (init_static s k Hk) as H.
  destruct (rules (HeuristicEngine_init s) !! k); [eauto|discriminate].
Qed.

(** *** What a call returns *)

Lemma analyze_process_ok s eng proc hc now :
  engine_ok s eng ->
  exists a eng',
    analyze_process eng proc hc now = Some (a, eng')
    /\ engine_ok s eng'
    /\ map rule_id (triggered_rules a) = map id_at (fired (steps proc hc))
    /\ risk_score a = sum_Z (map (weight_at s) (fired (steps proc hc)))
    /\ risk_level a = level_of (risk_score a).
Proof.
  intros Hok. rewrite analyze_process_exec.
  destruct (exec_spec (steps proc hc) (mkRun (reset_rule <$> rules eng) []))
    as (st & He & Hs & Ht).
  { intros k Hk. rewrite steps_keys in Hk. cbn [run_rules].
    apply (same_static_is_Some _ _ _ (same_static_reset _)).
    eapply engine_ok_keys; eassumption. }
  rewrite He. cbn [mbind option_bind]. eexists _, _. split; [reflexivity|].
  cbn [run_rules run_triggered app map] in *.
  assert (Hst : map (fun r => Some (static r)) (run_triggered st)
                = map (fun k => Some (id_at k, weight_at s k)) (fired (steps proc hc))).
  { rewrite Ht. apply map_ext_in. intros k Hk.
    rewrite same_static_reset, Hok. apply init_static.
    rewrite <- (steps_keys proc hc). apply fired_incl, Hk. }
  split; [|split; [|split]].
  - unfold engine_ok. cbn [rules].
    eapply same_static_trans; [exact Hs|].
    eapply same_static_trans; [apply same_static_reset|exact Hok].
  - cbn [triggered_rules].
    apply (f_equal (map (fun o : option (string * Z) => from_option fst "" o))) in Hst.
    rewrite !map_map in Hst. exact Hst.
  - cbn [risk_score]. rewrite total_weight_sum. f_equal.
    apply (f_equal (map (fun o : option (string * Z) => from_option snd 0 o))) in Hst.
    rewrite !map_map in Hst. exact Hst.
  - reflexivity.
Qed.

Lemma engine_from_ok s eng : engine_from s eng -> engine_ok s eng.
Proof.
  induction 1 as [|eng proc hc now a eng' _ IH Hcall].
  - apply same_static_refl.
  - destruct (analyze_process_ok s eng proc hc now IH) as (a0 & e0 & Hc & Hok & _).
    rewrite Hcall in Hc. injection Hc as _ <-. exact Hok.
Qed.

(** *** Weights *)

Lemma weight_at_order k :
  In k rule_keys ->
  0 <= weight_at "low" k
  /\ weight_at "low" k <= weight_at "medium" k
  /\ weight_at "medium" k <= weight_at "high" k.
Proof.
  intros Hk. cbn in Hk.
  repeat (destruct Hk as [<- | Hk]; [vm_compute; intuition discriminate|]).
  contradiction.
Qed.

Lemma weight_at_nonneg s k : In k rule_keys -> 0 <= weight_at s k.
Proof.
  intros Hk. pose proof (weight_at_order k Hk).
  destruct (weight_at_cases s k) as [-> | [-> | ->]]; lia.
Qed.

Lemma sum_Z_le (f g : string -> Z) l :
  (forall k, In k l -> f k <= g k) -> sum_Z (map f l) <= sum_Z (map g l).
Proof.
  induction l as [|k l IH]; intros H; cbn; [lia|].
  pose proof (H k (or_introl eq_refl)).
  assert (sum_Z (map f l) <= sum_Z (map g l)) by (apply IH; intros; apply H; right; assumption).
  unfold sum_Z in *. lia.
Qed.

Lemma sum_Z_nonneg (f : string -> Z) l :
  (forall k, In k l -> 0 <= f k) -> 0 <= sum_Z (map f l).
Proof.
  intros H. change 0 with (sum_Z (map (fun _ : string => 0) [])).
  induction l as [|k l IH]; cbn; [lia|].
  pose proof (H k (or_introl eq_refl)).
  assert (0 <= sum_Z (map f l)) by (apply IH; intros; apply H; right; assumption).
  unfold sum_Z in *. lia.
Qed.

Lemma fired_steps_keys proc hc k :
  In k (fired (steps proc hc)) -> In k rule_keys.
Proof. intros H. rewrite <- (steps_keys proc hc). apply fired_incl, H. Qed.

Lemma level_of_cases score :
  (level_of score = HIGH <-> 61 <= score)
  /\ (level_of score = MEDIUM <-> 31 <= score <= 60)
  /\ (level_of score = LOW <-> score <= 30)
  /\ level_of score <> UNKNOWN.
Proof.
  unfold level_of.
  destruct (Z.leb_spec 61 score); [|destruct (Z.leb_spec 31 score)];
    repeat split; intros; try discriminate; try lia.
Qed.

Lemma classify_risk_level_of score : 0 <= score -> classify_risk score = level_of score.
Proof.
  intros H. unfold classify_risk, level_of.
  destruct (61 <=? score); [reflexivity|].
  destruct (31 <=? score); [reflexivity|].
  destruct (Z.leb_spec 0 score); [reflexivity|lia].
Qed.

(** The three weight tables [__init__] can produce, in the order of the
    checks: [int(w * 1.3)], [w], [int(w * 0.7)]. *)
Lemma weight_tables :
  map (weight_at "high") rule_keys = [32; 26; 39; 19; 32; 13; 26; 45; 19; 26]
  /\ map (weight_at "medium") rule_keys = [25; 20; 30; 15; 25; 10; 20; 35; 15; 20]
  /\ map (weight_at "low") rule_keys = [17; 14; 21; 10; 17; 7; 14; 24; 10; 14].
Proof. repeat split; vm_compute; reflexivity. Qed.

(** *** The claims about the heuristic engine *)

(** C3 (as stated, refuted): on the name-spoofing process, with no parent
    known, a medium engine triggers seven rules, R004 among them, and the
    score is 170, not 155. *)
Lemma spoof_scenario_six_rules_refuted :
  exists a eng',
    analyze_process (HeuristicEngine_init "medium") (spoof_proc 0 "" "") 1 ""
    = Some (a, eng')
    /\ map rule_id (triggered_rules a)
       = ["R001"; "R002"; "R003"; "R004"; "R005"; "R007"; "R008"]
    /\ risk_score a = 170
    /\ ~ (map rule_id (triggered_rules a)
          = ["R001"; "R002"; "R003"; "R005"; "R007"; "R008"]
          /\ risk_score a = 155 /\ risk_level a = HIGH).
Proof.
  eexists _, _. split; [vm_compute; reflexivity|].
  split; [reflexivity|]. split; [reflexivity|].
  intros (H & _). discriminate H.
Qed.

Lemma spoof_proc_fired ppid user ts :
  ~ (0 < ppid < 4) ->
  fired (steps (spoof_proc ppid user ts) 1)
  = [ "unsigned_binary"; "hidden_window"; "unusual_path"; "elevated_privileges";
      "suspicious_dll"; "temp_location"; "name_spoofing" ].
Proof.
  intros Hp.
  assert (Ho : (0 <? ppid) && (ppid <? 4) = false).
  { destruct (Z.ltb_spec 0 ppid), (Z.ltb_spec ppid 4); try reflexivity. lia. }
  unfold steps, spoof_proc.
  cbn [Enumerator.parent_pid Enumerator.pid Enumerator.is_signed Enumerator.path
       Enumerator.name Enumerator.is_hidden_window Enumerator.is_service
       Enumerator.loaded_dlls Enumerator.privileges].
  rewrite Ho. vm_compute. reflexivity.
Qed.

(** C3 (amended): on the process of the name-spoofing scenario, whatever
    its user account and timestamp and for every parent pid outside 1..3,
    a medium engine triggers exactly R001, R002, R003, R004, R005, R007 and
    R008, the score is 170 and the level is HIGH. *)
Theorem spoof_scenario_assessment eng ppid user ts now :
  engine_from "medium" eng ->
  ~ (0 < ppid < 4) ->
  exists a eng',
    analyze_process eng (spoof_proc ppid user ts) 1 now = Some (a, eng')
    /\ map rule_id (triggered_rules a)
       = ["R001"; "R002"; "R003"; "R004"; "R005"; "R007"; "R008"]
    /\ risk_score a = 170
    /\ risk_level a = HIGH.
Proof.
  intros Heng Hp.
  destruct (analyze_process_ok "medium" eng (spoof_proc ppid user ts) 1 now
              (engine_from_ok _ _ Heng)) as (a & eng' & Hc & _ & Hid & Hsc & Hlv).
  rewrite (spoof_proc_fired _ _ _ Hp) in Hid, Hsc.
  exists a, eng'. split; [exact Hc|].
  split; [rewrite Hid; reflexivity|].
  assert (Hs : risk_score a = 170) by (rewrite Hsc; vm_compute; reflexivity).
  split; [exact Hs|]. rewrite Hlv, Hs. reflexivity.
Qed.

Lemma spoof_scenario_assessment_witness :
  engine_from "medium" (HeuristicEngine_init "medium")
  /\ ~ (0 < 0 < 4)
  /\ exists a eng',
       analyze_process (HeuristicEngine_init "medium") (spoof_proc 0 "" "") 1 ""
       = Some (a, eng')
       /\ map rule_id (triggered_rules a)
          = ["R001"; "R002"; "R003"; "R004"; "R005"; "R007"; "R008"]
       /\ risk_score a = 170
       /\ risk_level a = HIGH.
Proof.
  split; [apply engine_fresh|]. split; [lia|].
  apply (spoof_scenario_assessment (HeuristicEngine_init "medium") 0 "" "" "");
    [apply engine_fresh|lia].
Defined.

(** C4: every assessment [analyze_process] returns, and [classify_risk] on
    every score that is not negative, has level HIGH exactly when the score
    is at least 61, MEDIUM exactly when it is between 31 and 60, and LOW
    exactly when it is between 0 and 30; the two classifications agree. *)
Theorem risk_level_thresholds s eng proc hook_count now score :
  engine_from s eng ->
  0 <= score ->
  (exists a eng',
     analyze_process eng proc hook_count now = Some (a, eng')
     /\ (risk_level a = HIGH <-> 61 <= risk_score a)
     /\ (risk_level a = MEDIUM <-> 31 <= risk_score a <= 60)
     /\ (risk_level a = LOW <-> 0 <= risk_score a <= 30)
     /\ risk_level a = classify_risk (risk_score a))
  /\ (classify_risk score = HIGH <-> 61 <= score)
  /\ (classify_risk score = MEDIUM <-> 31 <= score <= 60)
  /\ (classify_risk score = LOW <-> 0 <= score <= 30).
Proof.
  intros Heng Hscore. split.
  - destruct (analyze_process_ok s eng proc hook_count now (engine_from_ok _ _ Heng))
      as (a & eng' & Hc & _ & _ & Hsc & Hlv).
    assert (Hnn : 0 <= risk_score a).
    { rewrite Hsc. apply sum_Z_nonneg. intros k Hk.
      exact (weight_at_nonneg s k (fired_steps_keys _ _ _ Hk)). }
    exists a, eng'. split; [exact Hc|].
    destruct (level_of_cases (risk_score a)) as (Hh & Hm & Hl & _).
    rewrite Hlv. split; [exact Hh|]. split; [exact Hm|]. split.
    + split; [intros H; apply Hl in H; lia|intros H; apply Hl; lia].
    + symmetry. apply classify_risk_level_of, Hnn.
  - rewrite (classify_risk_level_of _ Hscore).
    destruct (level_of_cases score) as (Hh & Hm & Hl & _).
    split; [exact Hh|]. split; [exact Hm|].
    split; [intros H; apply Hl in H; lia|intros H; apply Hl; lia].
Qed.

Lemma risk_level_thresholds_witness :
  engine_from "medium" (HeuristicEngine_init "medium")
  /\ 0 <= 45
  /\ (exists a eng',
        analyze_process (HeuristicEngine_init "medium") (spoof_proc 0 "" "") 1 ""
        = Some (a, eng')
        /\ (risk_level a = HIGH <-> 61 <= risk_score a)
        /\ (risk_level a = MEDIUM <-> 31 <= risk_score a <= 60)
        /\ (risk_level a = LOW <-> 0 <= risk_score a <= 30)
        /\ risk_level a = classify_risk (risk_score a))
  /\ (classify_risk 45 = HIGH <-> 61 <= 45)
  /\ (classify_risk 45 = MEDIUM <-> 31 <= 45 <= 60)
  /\ (classify_risk 45 = LOW <-> 0 <= 45 <= 30).
Proof.
  split; [apply engine_fresh|]. split; [lia|].
  apply (risk_level_thresholds "medium" (HeuristicEngine_init "medium")
           (spoof_proc 0 "" "") 1 "" 45); [apply engine_fresh|lia].
Defined.

(** C5: for every process and hook count, an engine built with sensitivity
    "high" scores at least what an engine built with "medium" scores, which
    scores at least what an engine built with "low" scores, and the three
    trigger the same rules. *)
Theorem sensitivity_monotone e_high e_medium e_low proc hook_count now :
  engine_from "high" e_high ->
  engine_from "medium" e_medium ->
  engine_from "low" e_low ->
  exists a_high a_medium a_low e_high' e_medium' e_low',
    analyze_process e_high proc hook_count now = Some (a_high, e_high')
    /\ analyze_process e_medium proc hook_count now = Some (a_medium, e_medium')
    /\ analyze_process e_low proc hook_count now = Some (a_low, e_low')
    /\ risk_score a_low <= risk_score a_medium
    /\ risk_score a_medium <= risk_score a_high
    /\ map rule_id (triggered_rules a_high) = map rule_id (triggered_rules a_medium)
    /\ map rule_id (triggered_rules a_medium) = map rule_id (triggered_rules a_low).
Proof.
  intros Hh Hm Hl.
  destruct (analyze_process_ok _ _ proc hook_count now (engine_from_ok _ _ Hh))
    as (ah & eh' & Hch & _ & Hih & Hsh & _).
  destruct (analyze_process_ok _ _ proc hook_count now (engine_from_ok _ _ Hm))
    as (am & em' & Hcm & _ & Him & Hsm & _).
  destruct (analyze_process_ok _ _ proc hook_count now (engine_from_ok _ _ Hl))
    as (al & el' & Hcl & _ & Hil & Hsl & _).
  exists ah, am, al, eh', em', el'.
  repeat split; try assumption; try congruence.
  - rewrite Hsl, Hsm. apply sum_Z_le. intros k Hk.
    pose proof (weight_at_order k (fired_steps_keys _ _ _ Hk)). lia.
  - rewrite Hsm, Hsh. apply sum_Z_le. intros k Hk.
    pose proof (weight_at_order k (fired_steps_keys _ _ _ Hk)). lia.
Qed.

Lemma sensitivity_monotone_witness :
  exists a_high a_medium a_low e_high' e_medium' e_low',
    analyze_process (HeuristicEngine_init "high") (spoof_proc 0 "" "") 1 ""
    = Some (a_high, e_high')
    /\ analyze_process (HeuristicEngine_init "medium") (spoof_proc 0 "" "") 1 ""
       = Some (a_medium, e_medium')
    /\ analyze_process (HeuristicEngine_init "low") (spoof_proc 0 "" "") 1 ""
       = Some (a_low, e_low')
    /\ risk_score a_low <= risk_score a_medium
    /\ risk_score a_medium <= risk_score a_high
    /\ map rule_id (triggered_rules a_high) = map rule_id (triggered_rules a_medium)
    /\ map rule_id (triggered_rules a_medium) = map rule_id (triggered_rules a_low).
Proof.
  apply (sensitivity_monotone (HeuristicEngine_init "high")
           (HeuristicEngine_init "medium") (HeuristicEngine_init "low")
           (spoof_proc 0 "" "") 1 ""); apply engine_fresh.
Defined.

(** C10: every assessment [analyze_process] returns has a score that is not
    negative and a level among LOW, MEDIUM and HIGH; [classify_risk] gives
    UNKNOWN exactly on the negative scores. *)
Theorem assessment_score_nonneg_level_known s eng proc hook_count now :
  engine_from s eng ->
  (exists a eng',
     analyze_process eng proc hook_count now = Some (a, eng')
     /\ 0 <= risk_score a
     /\ (risk_level a = LOW \/ risk_level a = MEDIUM \/ risk_level a = HIGH)
     /\ risk_level a <> UNKNOWN)
  /\ (forall score, classify_risk score = UNKNOWN <-> score < 0).
Proof.
  intros Heng. split.
  - destruct (analyze_process_ok s eng proc hook_count now (engine_from_ok _ _ Heng))
      as (a & eng' & Hc & _ & _ & Hsc & Hlv).
    exists a, eng'. split; [exact Hc|]. split.
    + rewrite Hsc. apply sum_Z_nonneg. intros k Hk.
      exact (weight_at_nonneg s k (fired_steps_keys _ _ _ Hk)).
    + rewrite Hlv. unfold level_of.
      destruct (61 <=? risk_score a); [split; [auto|discriminate]|].
      destruct (31 <=? risk_score a); split; auto; discriminate.
  - intros score. unfold classify_risk.
    destruct (Z.leb_spec 61 score); [split; [discriminate|lia]|].
    destruct (Z.leb_spec 31 score); [split; [discriminate|lia]|].
    destruct (Z.leb_spec 0 score); [split; [discriminate|lia]|].
    split; [lia|reflexivity].
Qed.

Lemma assessment_score_nonneg_level_known_witness :
  engine_from "low" (HeuristicEngine_init "low")
  /\ (exists a eng',
        analyze_process (HeuristicEngine_init "low") (spoof_proc 2 "" "") 3 ""
        = Some (a, eng')
        /\ 0 <= risk_score a
        /\ (risk_level a = LOW \/ risk_level a = MEDIUM \/ risk_level a = HIGH)
        /\ risk_level a <> UNKNOWN)
  /\ (forall score, classify_risk score = UNKNOWN <-> score < 0).
Proof.
  split; [apply engine_fresh|].
  apply (assessment_score_nonneg_level_known "low" (HeuristicEngine_init "low")
           (spoof_proc 2 "" "") 3 ""); apply engine_fresh.
Defined.

(** *** What a call leaves behind *)

Lemma fire_reset key ev st st' :
  fire key ev st = Some st' ->
  reset_rule <$> run_rules st' = reset_rule <$> run_rules st.
Proof.
  unfold fire. destruct (run_rules st !! key) as [r|] eqn:Hr; [|discriminate].
  cbn. intros [= <-]. cbn [run_rules].
  rewrite fmap_insert. apply insert_id. rewrite lookup_fmap, Hr. reflexivity.
Qed.

Lemma exec_reset l : forall st st',
  exec l st = Some st' ->
  reset_rule <$> run_rules st' = reset_rule <$> run_rules st.
Proof.
  induction l as [|[k [ev|]] l IH]; intros st st' H; cbn in H.
  - injection H as <-. reflexivity.
  - unfold exec_one in H. cbn [fst snd] in H.
    destruct (fire k ev st) as [st1|] eqn:Hf; [|discriminate].
    cbn in H. rewrite (IH _ _ H). exact (fire_reset _ _ _ _ Hf).
  - apply IH, H.
Qed.

Lemma reset_rule_idem (m : gmap string RiskRule) :
  reset_rule <$> (reset_rule <$> m) = reset_rule <$> m.
Proof.
  rewrite <- map_fmap_compose. apply map_fmap_ext. intros k r _. reflexivity.
Qed.

Lemma analyze_process_reset self proc hc now a self' :
  analyze_process self proc hc now = Some (a, self') ->
  reset_rule <$> rules self' = reset_rule <$> rules self.
Proof.
  rewrite analyze_process_exec.
  destruct (exec _ _) as [st|] eqn:He; [|discriminate].
  cbn. intros [= _ <-]. cbn [rules].
  rewrite (exec_reset _ _ _ He). cbn [run_rules]. apply reset_rule_idem.
Qed.

Lemma analyze_process_same_reset e1 e2 proc hc now :
  reset_rule <$> rules e1 = reset_rule <$> rules e2 ->
  fst <$> analyze_process e1 proc hc now = fst <$> analyze_process e2 proc hc now.
Proof.
  intros H. rewrite !analyze_process_exec, H.
  destruct (exec _ _) as [st|]; reflexivity.
Qed.

Lemma engine_from_reset s eng :
  engine_from s eng ->
  reset_rule <$> rules eng = reset_rule <$> rules (HeuristicEngine_init s).
Proof.
  induction 1 as [|eng proc hc now a eng' _ IH Hcall]; [reflexivity|].
  rewrite (analyze_process_reset _ _ _ _ _ _ Hcall). exact IH.
Qed.

(** X1: an engine that has been used for any number of analyses returns,
    for every process and hook count, the assessment a freshly built engine
    of the same sensitivity returns: the reset at the start of a call wipes
    what earlier calls left in the rule objects. *)
Theorem analysis_forgets_earlier_calls s eng proc hook_count now :
  engine_from s eng ->
  exists a eng1 eng2,
    analyze_process eng proc hook_count now = Some (a, eng1)
    /\ analyze_process (HeuristicEngine_init s) proc hook_count now = Some (a, eng2).
Proof.
  intros Heng.
  pose proof (analyze_process_same_reset eng (HeuristicEngine_init s) proc hook_count now
                (engine_from_reset _ _ Heng)) as Hsame.
  destruct (analyze_process_ok s eng proc hook_count now (engine_from_ok _ _ Heng))
    as (a & eng1 & Hc & _).
  rewrite Hc in Hsame. cbn in Hsame.
  destruct (analyze_process (HeuristicEngine_init s) proc hook_count now)
    as [[a' eng2]|]; [|discriminate].
  cbn in Hsame. injection Hsame as ->. exists a', eng1, eng2. auto.
Qed.

Lemma analysis_forgets_earlier_calls_witness :
  exists used,
    engine_from "high" used
    /\ used <> HeuristicEngine_init "high"
    /\ exists a eng1 eng2,
         analyze_process used (spoof_proc 2 "" "") 3 "" = Some (a, eng1)
         /\ analyze_process (HeuristicEngine_init "high") (spoof_proc 2 "" "") 3 ""
            = Some (a, eng2).
Proof.
  destruct (analyze_process (HeuristicEngine_init "high") (spoof_proc 0 "" "") 1 "")
    as [[a0 used]|] eqn:E; [|vm_compute in E; discriminate E].
  assert (Hu : engine_from "high" used) by (eapply engine_used; [apply engine_fresh|exact E]).
  exists used. split; [exact Hu|]. split.
  - intros ->. vm_compute in E. discriminate E.
  - exact (analysis_forgets_earlier_calls "high" used (spoof_proc 2 "" "") 3 "" Hu).
Defined.

Lemma init_rules_other s :
  s <> "high" -> s <> "low" ->
  rules (HeuristicEngine_init s) = rules (HeuristicEngine_init "medium").
Proof.
  intros Hh Hl. unfold HeuristicEngine_init. cbn [rules].
  apply String.eqb_neq in Hh, Hl. rewrite Hh, Hl. reflexivity.
Qed.

(** X2: the sensitivity is compared with the two lower-case words only.
    With any other string (another spelling, another case, the empty
    string) the engine gives every process the assessment a "medium"
    engine gives it. *)
Theorem unknown_sensitivity_is_medium s eng proc hook_count now :
  s <> "high" -> s <> "low" ->
  engine_from s eng ->
  exists a eng1 eng2,
    analyze_process eng proc hook_count now = Some (a, eng1)
    /\ analyze_process (HeuristicEngine_init "medium") proc hook_count now = Some (a, eng2).
Proof.
  intros Hh Hl Heng.
  assert (Hr : reset_rule <$> rules eng
               = reset_rule <$> rules (HeuristicEngine_init "medium")).
  { rewrite (engine_from_reset _ _ Heng), (init_rules_other s Hh Hl). reflexivity. }
  pose proof (analyze_process_same_reset _ _ proc hook_count now Hr) as Hsame.
  destruct (analyze_process_ok s eng proc hook_count now (engine_from_ok _ _ Heng))
    as (a & eng1 & Hc & _).
  rewrite Hc in Hsame. cbn in Hsame.
  destruct (analyze_process (HeuristicEngine_init "medium") proc hook_count now)
    as [[a' eng2]|]; [|discriminate].
  cbn in Hsame. injection Hsame as ->. exists a', eng1, eng2. auto.
Qed.

Lemma unknown_sensitivity_is_medium_witness :
  exists a eng1 eng2,
    analyze_process (HeuristicEngine_init "HIGH") (spoof_proc 0 "" "") 1 "" = Some (a, eng1)
    /\ analyze_process (HeuristicEngine_init "medium") (spoof_proc 0 "" "") 1 ""
       = Some (a, eng2).
Proof.
  apply (unknown_sensitivity_is_medium "HIGH");
    [discriminate | discriminate | apply engine_fresh].
Defined.

(** *** The score and the list of triggered rules *)

(** X3: the score is 0 exactly when no rule triggered, and one triggered
    rule is enough for a score of 7 or more, at every sensitivity. *)
Theorem zero_score_iff_no_rule s eng proc hook_count now :
  engine_from s eng ->
  exists a eng',
    analyze_process eng proc hook_count now = Some (a, eng')
    /\ (risk_score a = 0 <-> triggered_rules a = [])
    /\ (triggered_rules a <> [] -> 7 <= risk_score a).
Proof.
  intros Heng.
  destruct (analyze_process_ok s eng proc hook_count now (engine_from_ok _ _ Heng))
    as (a & eng' & Hc & _ & Hids & Hscore & _).
  exists a, eng'. split; [exact Hc|].
  pose proof (fired_steps_keys proc hook_count) as Hkeys.
  destruct (fired (steps proc hook_count)) as [|k l] eqn:Hf.
  - cbn in Hids, Hscore. destruct (triggered_rules a); [|discriminate].
    split; [tauto|]. intros H; contradiction H. reflexivity.
  - assert (Hne : triggered_rules a <> []).
    { intros E. rewrite E in Hids. discriminate. }
    assert (7 <= risk_score a).
    { rewrite Hscore. cbn.
      assert (0 <= sum_Z (map (weight_at s) l)).
      { apply sum_Z_nonneg. intros j Hj. apply weight_at_nonneg, Hkeys. right; exact Hj. }
      assert (Hk : In k rule_keys) by (apply Hkeys; left; reflexivity).
      assert (7 <= weight_at "low" k).
      { cbn in Hk. repeat (destruct Hk as [<- | Hk]; [vm_compute; discriminate|]).
        contradiction. }
      pose proof (weight_at_order k Hk).
      unfold sum_Z in *.
      destruct (weight_at_cases s k) as [-> | [-> | ->]]; lia. }
    split; [split; [lia|tauto]|auto].
Qed.

Lemma zero_score_iff_no_rule_witness :
  exists a eng',
    analyze_process (HeuristicEngine_init "low") (spoof_proc 0 "" "") 1 "" = Some (a, eng')
    /\ (risk_score a = 0 <-> triggered_rules a = [])
    /\ (triggered_rules a <> [] -> 7 <= risk_score a).
Proof. apply (zero_score_iff_no_rule "low"), engine_fresh. Defined.

Lemma fired_sublist l : sublist (fired l) (map fst l).
Proof.
  induction l as [|[k [ev|]] l IH]; cbn.
  - constructor.
  - apply sublist_skip, IH.
  - apply sublist_cons, IH.
Qed.

Lemma sublist_map {A B} (f : A -> B) (l1 l2 : list A) :
  sublist l1 l2 -> sublist (map f l1) (map f l2).
Proof. induction 1; cbn; constructor; assumption. Qed.

Lemma fire_triggered key ev st st' :
  fire key ev st = Some st' ->
  Forall (fun r => triggered r = true) (run_triggered st) ->
  Forall (fun r => triggered r = true) (run_triggered st').
Proof.
  unfold fire. destruct (run_rules st !! key) as [r|]; [|discriminate].
  cbn. intros [= <-] H. cbn [run_triggered].
  apply Forall_app. split; [exact H|]. constructor; [reflexivity|constructor].
Qed.

Lemma exec_triggered l : forall st st',
  exec l st = Some st' ->
  Forall (fun r => triggered r = true) (run_triggered st) ->
  Forall (fun r => triggered r = true) (run_triggered st').
Proof.
  induction l as [|[k [ev|]] l IH]; intros st st' H Hall; cbn in H.
  - injection H as <-. exact Hall.
  - unfold exec_one in H. cbn [fst snd] in H.
    destruct (fire k ev st) as [st1|] eqn:Hf; [|discriminate].
    cbn in H. exact (IH _ _ H (fire_triggered _ _ _ _ Hf Hall)).
  - exact (IH _ _ H Hall).
Qed.

(** X4: the triggered rules of an assessment are listed in the order of
    the catalogue, R001 to R010, each at most once, and every rule object
    in the list has its [triggered] flag set. *)
Theorem triggered_rules_in_catalogue_order s eng proc hook_count now :
  engine_from s eng ->
  exists a eng',
    analyze_process eng proc hook_count now = Some (a, eng')
    /\ sublist (map rule_id (triggered_rules a))
         ["R001"; "R002"; "R003"; "R004"; "R005"; "R006"; "R007"; "R008"; "R009"; "R010"]
    /\ NoDup (map rule_id (triggered_rules a))
    /\ Forall (fun r => triggered r = true) (triggered_rules a).
Proof.
  intros Heng.
  destruct (analyze_process_ok s eng proc hook_count now (engine_from_ok _ _ Heng))
    as (a & eng' & Hc & _ & Hids & _).
  exists a, eng'. split; [exact Hc|].
  assert (Hsub : sublist (map rule_id (triggered_rules a))
            ["R001"; "R002"; "R003"; "R004"; "R005"; "R006"; "R007"; "R008"; "R009"; "R010"]).
  { rewrite Hids. change (sublist (map id_at (fired (steps proc hook_count)))
                            (map id_at (map fst (steps proc hook_count)))).
    apply sublist_map, fired_sublist. }
  split; [exact Hsub|]. split.
  - refine (sublist_NoDup _ _ _ Hsub).
    apply (bool_decide_unpack _). vm_compute. exact I.
  - rewrite analyze_process_exec in Hc.
    destruct (exec _ _) as [st|] eqn:He; [|discriminate].
    cbn in Hc. injection Hc as <- _. cbn [triggered_rules].
    apply (exec_triggered _ _ _ He). constructor.
Qed.

Lemma triggered_rules_in_catalogue_order_witness :
  exists a eng',
    analyze_process (HeuristicEngine_init "medium") (spoof_proc 0 "" "") 1 ""
    = Some (a, eng')
    /\ sublist (map rule_id (triggered_rules a))
         ["R001"; "R002"; "R003"; "R004"; "R005"; "R006"; "R007"; "R008"; "R009"; "R010"]
    /\ NoDup (map rule_id (triggered_rules a))
    /\ Forall (fun r => triggered r = true) (triggered_rules a).
Proof. apply (triggered_rules_in_catalogue_order "medium"), engine_fresh. Defined.

(** The service rule fires on unsigned services only, and the two rules
    that leave services out never fire with it. *)
Lemma steps_shape proc hc :
  exists o1 o2 o3 o4 o5 o6 o7 o8 o9 o10,
    steps proc hc
    = [ ("unsigned_binary", o1); ("hidden_window", o2); ("unusual_path", o3);
        ("elevated_privileges", o4); ("suspicious_dll", o5); ("orphan_process", o6);
        ("temp_location", o7); ("name_spoofing", o8); ("service_anomaly", o9);
        ("multiple_hooks", o10) ]
    /\ (is_Some o9 -> o2 = None /\ o4 = None /\ is_Some o1).
Proof.
  do 10 eexists. split; [reflexivity|].
  unfold outcome. destruct (Enumerator.is_service proc); cbn.
  - rewrite !andb_false_r. cbn. destruct (Enumerator.is_signed proc); cbn; intros H.
    + destruct H; discriminate.
    + eauto.
  - intros H; destruct H; discriminate.
Qed.

Lemma fired_weight_bound proc hc :
  sum_Z (map (weight_at "high") (fired (steps proc hc))) <= 258
  /\ sum_Z (map (weight_at "medium") (fired (steps proc hc))) <= 200.
Proof.
  destruct (steps_shape proc hc)
    as (o1 & o2 & o3 & o4 & o5 & o6 & o7 & o8 & o9 & o10 & -> & Hx).
  destruct o9 as [e9|].
  - destruct Hx as (-> & -> & _); [eauto|].
    destruct o1, o3, o5, o6, o7, o8, o10; split; vm_compute; discriminate.
  - clear Hx.
    destruct o1, o2, o3, o4, o5, o6, o7, o8, o10; split; vm_compute; discriminate.
Qed.

(** X5: no process scores more than 258, and none more than 200 unless
    the sensitivity is "high": R009 needs a service, R002 and R004 need
    a process that is not one, so at most nine rules trigger together. *)
Theorem risk_score_upper_bound s eng proc hook_count now :
  engine_from s eng ->
  exists a eng',
    analyze_process eng proc hook_count now = Some (a, eng')
    /\ risk_score a <= 258
    /\ (s <> "high" -> risk_score a <= 200).
Proof.
  intros Heng.
  destruct (analyze_process_ok s eng proc hook_count now (engine_from_ok _ _ Heng))
    as (a & eng' & Hc & _ & _ & Hscore & _).
  exists a, eng'. split; [exact Hc|].
  destruct (fired_weight_bound proc hook_count) as [Hh Hm].
  pose proof (fired_steps_keys proc hook_count) as Hkeys.
  rewrite Hscore. split.
  - etransitivity; [|exact Hh]. apply sum_Z_le. intros k Hk.
    pose proof (weight_at_order k (Hkeys k Hk)).
    destruct (weight_at_cases s k) as [-> | [-> | ->]]; lia.
  - intros Hs. etransitivity; [|exact Hm]. apply sum_Z_le. intros k Hk.
    pose proof (weight_at_order k (Hkeys k Hk)).
    unfold weight_at. unfold HeuristicEngine_init at 1. cbn [rules].
    apply String.eqb_neq in Hs. rewrite Hs.
    destruct (String.eqb s "low"); [|reflexivity].
    change (weight_at "low" k <= weight_at "medium" k). lia.
Qed.

Lemma risk_score_upper_bound_witness :
  exists a eng',
    analyze_process (HeuristicEngine_init "medium") (spoof_proc 2 "" "") 3 "" = Some (a, eng')
    /\ risk_score a <= 258
    /\ ("medium" <> "high" -> risk_score a <= 200).
Proof. apply (risk_score_upper_bound "medium"), engine_fresh. Defined.

(** Both bounds are reached, by the name-spoofing process with a parent
    pid of 2 and three hooks. *)
Lemma risk_score_bounds_reached :
  (risk_score ∘ fst) <$> analyze_process (HeuristicEngine_init "high") (spoof_proc 2 "" "") 3 ""
  = Some 258
  /\ (risk_score ∘ fst) <$>
       analyze_process (HeuristicEngine_init "medium") (spoof_proc 2 "" "") 3 ""
     = Some 200.
Proof. split; vm_compute; reflexivity. Qed.

Lemma fired_app l1 l2 : fired (l1 ++ l2) = (fired l1 ++ fired l2)%list.
Proof.
  induction l1 as [|[k [ev|]] l1 IH]; cbn; [reflexivity| |]; rewrite IH; reflexivity.
Qed.

Lemma id_at_R010 k : In k rule_keys -> id_at k = "R010" <-> k = "multiple_hooks".
Proof.
  intros Hk. cbn in Hk.
  repeat (destruct Hk as [<- | Hk]; [vm_compute; split; intros; first [reflexivity|discriminate]|]).
  contradiction.
Qed.

Lemma multiple_hooks_fired proc hc :
  In "multiple_hooks" (fired (steps proc hc)) <-> 2 < hc.
Proof.
  assert (Hs : exists l o, steps proc hc = (l ++ [("multiple_hooks", o)])%list
            /\ ~ In "multiple_hooks" (map fst l)
            /\ (is_Some o <-> 2 < hc)).
  { eexists (removelast (steps proc hc)), _. split; [reflexivity|]. split.
    - cbn. intros H. repeat (destruct H as [H|H]; [discriminate H|]). exact H.
    - unfold outcome. destruct (Z.ltb_spec 2 hc); split; intros; try lia; eauto.
      destruct H0; discriminate. }
  destruct Hs as (l & o & -> & Hl & Ho).
  rewrite fired_app, in_app_iff. split.
  - intros [H|H]; [contradiction Hl; apply fired_incl, H|].
    apply Ho. destruct o; cbn in H; [eauto|contradiction].
  - intros H. apply Ho in H. destruct H as [ev ->]. right. left. reflexivity.
Qed.

Lemma R010_iff_three_hooks s eng proc hc now :
  engine_ok s eng ->
  exists a eng',
    analyze_process eng proc hc now = Some (a, eng')
    /\ engine_ok s eng'
    /\ (In "R010" (map rule_id (triggered_rules a)) <-> 2 < hc).
Proof.
  intros Hok.
  destruct (analyze_process_ok s eng proc hc now Hok)
    as (a & eng' & Hc & Hok' & Hids & _).
  exists a, eng'. split; [exact Hc|]. split; [exact Hok'|].
  rewrite Hids, <- multiple_hooks_fired, in_map_iff.
  split.
  - intros (k & Hk & Hin). apply id_at_R010 in Hk; [subst k; exact Hin|].
    apply (fired_steps_keys _ _ _ Hin).
  - intros H. exists "multiple_hooks". split; [reflexivity|exact H].
Qed.

(** X6: rule R010 (Multiple Hooks) triggers exactly when the caller passes
    a hook count above 2, whatever the process; [analyze_hook] passes 1,
    so an assessment it returns never lists R010. *)
Theorem multiple_hooks_rule_needs_three_hooks s eng proc hook_count hook now :
  engine_from s eng ->
  (exists a eng',
     analyze_process eng proc hook_count now = Some (a, eng')
     /\ (In "R010" (map rule_id (triggered_rules a)) <-> 2 < hook_count))
  /\ (exists a eng',
        analyze_hook eng hook proc now = Some (a, eng')
        /\ ~ In "R010" (map rule_id (triggered_rules a))).
Proof.
  intros Heng. pose proof (engine_from_ok _ _ Heng) as Hok. split.
  - destruct (R010_iff_three_hooks s eng proc hook_count now Hok)
      as (a & eng' & Hc & _ & H). eauto.
  - unfold analyze_hook.
    destruct (R010_iff_three_hooks s eng proc 1 now Hok) as (a & eng' & Hc & _ & H).
    exists a, eng'. split; [exact Hc|]. intros Hin. apply H in Hin. lia.
Qed.

Lemma multiple_hooks_rule_needs_three_hooks_witness :
  (exists a eng',
     analyze_process (HeuristicEngine_init "medium") (spoof_proc 0 "" "") 3 ""
     = Some (a, eng')
     /\ (In "R010" (map rule_id (triggered_rules a)) <-> 2 < 3))
  /\ (exists a eng',
        analyze_hook (HeuristicEngine_init "medium")
          (Enumerator.mkHookInfo 1 "WH_KEYBOARD_LL" 4120 "svchost.exe" "" "")
          (spoof_proc 0 "" "") ""
        = Some (a, eng')
        /\ ~ In "R010" (map rule_id (triggered_rules a))).
Proof. apply (multiple_hooks_rule_needs_three_hooks "medium"), engine_fresh. Defined.

End HeuristicsFacts.

(** * Facts about monitor.py *)

Module MonitorFacts.

Import Heuristics Monitor HeuristicsFacts.

Lemma extends_refl self : extends self self [].
Proof. unfold extends. cbn. rewrite !app_nil_r. auto. Qed.

Lemma deliveries_app cbs evs1 evs2 :
  deliveries cbs (evs1 ++ evs2) = (deliveries cbs evs1 ++ deliveries cbs evs2)%list.
Proof. unfold deliveries. apply flat_map_app. Qed.

Lemma extends_trans a b c evs1 evs2 :
  extends a b evs1 -> extends b c evs2 -> extends a c (evs1 ++ evs2).
Proof.
  intros (He1 & Hc1 & Hk1 & Hb1) (He2 & Hc2 & Hk2 & Hb2). unfold extends.
  rewrite He2, He1, Hc2, Hc1, Hk2, Hk1, Hb2, Hb1, deliveries_app, !app_assoc. auto.
Qed.

(** *** Delivery to the subscribers *)

Lemma trigger_callbacks_spec cbs event : forall self,
  let self' := trigger_callbacks cbs event self in
  events self' = events self
  /\ calls self' = (calls self ++ map (fun cb => (cb_id cb, event)) cbs)%list
  /\ known_hooks self' = known_hooks self
  /\ on_event_callbacks self' = on_event_callbacks self
  /\ heuristics self' = heuristics self.
Proof.
  induction cbs as [|cb cbs IH]; intros self; cbn.
  - rewrite app_nil_r. auto.
  - destruct (cb_raises cb (calls self) event) as [msg|];
      match goal with |- context [trigger_callbacks cbs event ?x] =>
        destruct (IH x) as (He & Hc & Hk & Hb & Hh) end;
      rewrite He, Hc, Hk, Hb, Hh; cbn; rewrite <- app_assoc; auto.
Qed.

(** *** The three handlers *)

Section Handlers.

Variable s : string.

Lemma handle_new_hook_spec self enum now hook :
  engine_ok s (heuristics self) ->
  exists self' evs,
    _handle_new_hook self enum now hook = (self', None)
    /\ extends self self' evs
    /\ engine_ok s (heuristics self')
    /\ match Enumerator.probe_get_process_info enum (Enumerator.owner_pid hook) with
       | None => evs = []
       | Some p =>
           exists e, evs = [e] /\ event_type e = "hook_added"
                     /\ hook_info e = Some hook /\ process_info e = Some p
       end.
Proof.
  intros Hok. unfold _handle_new_hook, analyze_hook.
  destruct (Enumerator.probe_get_process_info enum (Enumerator.owner_pid hook))
    as [proc_info|].
  - destruct (analyze_process_ok s _ proc_info 1 now Hok)
      as (a & eng' & Hc & Hok' & _).
    rewrite Hc. eexists _, [_]. split; [reflexivity|].
    match goal with |- context [trigger_callbacks ?c ?e ?x] =>
      destruct (trigger_callbacks_spec c e x) as (He & Hcl & Hk & Hb & Hh) end.
    split; [|split].
    + unfold extends. rewrite He, Hcl, Hk, Hb. cbn. rewrite app_nil_r. auto.
    + rewrite Hh. exact Hok'.
    + eexists. repeat split.
  - eexists _, []. split; [reflexivity|]. split; [|split; [exact Hok|reflexivity]].
    unfold extends. cbn. rewrite !app_nil_r. auto.
Qed.

Lemma handle_removed_hook_spec self now hook_id h :
  known_hooks self !! hook_id = Some h ->
  exists self' e,
    _handle_removed_hook self now hook_id = (self', None)
    /\ extends self self' [e]
    /\ heuristics self' = heuristics self
    /\ event_type e = "hook_removed"
    /\ hook_info e = Some h.
Proof.
  intros Hh. unfold _handle_removed_hook. rewrite Hh.
  eexists _, _. split; [reflexivity|].
  match goal with |- context [trigger_callbacks ?c ?e ?x] =>
    destruct (trigger_callbacks_spec c e x) as (He & Hcl & Hk & Hb & Hhe) end.
  split; [|split; [|split]].
  - unfold extends. rewrite He, Hcl, Hk, Hb. cbn. rewrite app_nil_r. auto.
  - rewrite Hhe. reflexivity.
  - reflexivity.
  - reflexivity.
Qed.

Lemma check_process_changes_spec self enum now hook :
  engine_ok s (heuristics self) ->
  exists self' evs,
    _check_process_changes self enum now hook = (self', None)
    /\ extends self self' evs
    /\ engine_ok s (heuristics self')
    /\ Forall (fun e => event_type e = "process_changed") evs.
Proof.
  intros Hok. unfold _check_process_changes, analyze_hook.
  destruct (Enumerator.probe_get_process_info enum (Enumerator.owner_pid hook))
    as [new_proc|].
  2:{ eexists _, []. split; [reflexivity|]. auto using extends_refl. }
  match goal with |- context [match ?c with [] => _ | _ :: _ => _ end] =>
    destruct c as [|change changes] end.
  { eexists _, []. split; [reflexivity|]. auto using extends_refl. }
  destruct (analyze_process_ok s _ new_proc 1 now Hok)
    as (a & eng' & Hc & Hok' & _).
  rewrite Hc.
  assert (Hgen : forall self1 : HookMonitor, forall e,
            event_type e = "process_changed" ->
            events self1 = (events self ++ [e])%list ->
            calls self1 = calls self ->
            known_hooks self1 = known_hooks self ->
            on_event_callbacks self1 = on_event_callbacks self ->
            extends self self1 [e]).
  { intros self1 e Hty He Hcl Hk Hb. unfold extends, deliveries. cbn.
    rewrite Hty. cbn. rewrite app_nil_r. auto. }
  destruct (risk_level a); (eexists _, [_]; split; [reflexivity|];
    split; [apply Hgen; [|reflexivity..]; reflexivity
           |split; [exact Hok'|repeat constructor]]).
Qed.

(** *** Loops *)

Lemma for_each_spec {A : Type} (body : HookMonitor -> A -> Outcome)
    (R : A -> list MonitorEvent -> Prop) (Inv : HookMonitor -> Prop) (l : list A) :
  (forall self x, In x l -> Inv self ->
     exists self' evs,
       body self x = (self', None) /\ extends self self' evs /\ Inv self' /\ R x evs) ->
  forall self, Inv self ->
    exists self' evss,
      for_each body l self = (self', None)
      /\ extends self self' (concat evss) /\ Inv self' /\ Forall2 R l evss.
Proof.
  induction l as [|x l IH]; intros Hbody self Hinv.
  - exists self, []. cbn. auto using extends_refl.
  - destruct (Hbody self x (or_introl eq_refl) Hinv) as (self1 & evs & Hb & He & Hi & Hr).
    destruct (IH (fun self y Hy => Hbody self y (or_intror Hy)) self1 Hi)
      as (self2 & evss & Hf & He2 & Hi2 & Hr2).
    exists self2, (evs :: evss). cbn [for_each]. rewrite Hb. cbn [bind_outcome].
    split; [exact Hf|]. split; [exact (extends_trans _ _ _ _ _ He He2)|].
    split; [exact Hi2|]. constructor; assumption.
Qed.

Lemma find_current_hook enum id :
  id ∈ current_ids enum ->
  exists hook,
    find (fun h => Z.eqb (Enumerator.hook_id h) id) (Enumerator.probe_detect_hooks enum)
    = Some hook
    /\ Enumerator.hook_id hook = id.
Proof.
  unfold current_ids. rewrite elem_of_list_to_set, list_elem_of_In, in_map_iff.
  intros (h & Hid & Hin).
  destruct (find _ _) as [hook|] eqn:Ef.
  - exists hook. split; [reflexivity|]. apply find_some in Ef as [_ Ef]. lia.
  - exfalso. apply (find_none _ _ Ef) in Hin. lia.
Qed.

Lemma added_events enum l evss :
  Forall2 (added_for enum) l evss ->
  Forall (fun e => event_type e = "hook_added") (concat evss)
  /\ omap event_id (concat evss) = List.filter (accessible enum) l.
Proof.
  induction 1 as [|id evs l evss Hx _ IH]; cbn; [auto|].
  destruct IH as [IHt IHi]. unfold added_for in Hx.
  destruct (accessible enum id).
  - destruct Hx as (e & -> & Hty & Hid). cbn. rewrite Hid, IHi. auto.
  - subst evs. cbn. auto.
Qed.

Lemma removed_events l evss :
  Forall2 removed_for l evss ->
  Forall (fun e => event_type e = "hook_removed") (concat evss)
  /\ omap event_id (concat evss) = l.
Proof.
  induction 1 as [|id evs l evss Hx _ IH]; cbn; [auto|].
  destruct IH as [IHt IHi]. destruct Hx as (e & -> & Hty & Hid).
  cbn. rewrite Hid, IHi. auto.
Qed.

Lemma changed_events l evss :
  Forall2 changed_for l evss ->
  Forall (fun e => event_type e = "process_changed") (concat evss).
Proof.
  induction 1 as [|h evs l evss Hx _ IH]; cbn; [constructor|].
  apply Forall_app. split; assumption.
Qed.

(** *** One scan *)

Lemma hooks_by_id_spec hooks :
  dom (hooks_by_id hooks) = list_to_set (map Enumerator.hook_id hooks)
  /\ (forall k h, hooks_by_id hooks !! k = Some h -> Enumerator.hook_id h = k).
Proof.
  unfold hooks_by_id.
  enough (H : forall (m : gmap Z Enumerator.HookInfo),
            (forall k h, m !! k = Some h -> Enumerator.hook_id h = k) ->
            dom (fold_left (fun m hook => <[Enumerator.hook_id hook := hook]> m) hooks m)
            = dom m ∪ list_to_set (map Enumerator.hook_id hooks)
            /\ (forall k h,
                  fold_left (fun m hook => <[Enumerator.hook_id hook := hook]> m) hooks m
                  !! k = Some h -> Enumerator.hook_id h = k)).
  { destruct (H ∅) as [Hd Hk]; [intros k h; rewrite lookup_empty; discriminate|].
    split; [rewrite Hd; set_solver|exact Hk]. }
  induction hooks as [|hook hooks IH]; intros m Hm; cbn.
  - split; [set_solver|exact Hm].
  - destruct (IH (<[Enumerator.hook_id hook := hook]> m)) as [Hd Hk].
    + intros k h. rewrite lookup_insert. case_decide; [|apply Hm].
      intros [= <-]. assumption.
    + split; [rewrite Hd, dom_insert_L; set_solver|exact Hk].
Qed.

Lemma perform_scan_spec self enum now :
  engine_ok s (heuristics self) ->
  (forall k h, known_hooks self !! k = Some h -> Enumerator.hook_id h = k) ->
  exists added removed changed,
    let self' := _perform_scan self enum now in
    events self' = (events self ++ added ++ removed ++ changed)%list
    /\ calls self'
       = (calls self
          ++ deliveries (on_event_callbacks self) (added ++ removed ++ changed))%list
    /\ known_hooks self' = hooks_by_id (Enumerator.probe_detect_hooks enum)
    /\ on_event_callbacks self' = on_event_callbacks self
    /\ engine_ok s (heuristics self')
    /\ Forall (fun e => event_type e = "hook_added") added
    /\ omap event_id added
       = List.filter (accessible enum)
           (elements (current_ids enum ∖ dom (known_hooks self)))
    /\ Forall (fun e => event_type e = "hook_removed") removed
    /\ omap event_id removed = elements (dom (known_hooks self) ∖ current_ids enum)
    /\ Forall (fun e => event_type e = "process_changed") changed.
Proof.
  intros Hok Hkeys.
  set (Inv := fun m : HookMonitor =>
                engine_ok s (heuristics m) /\ known_hooks m = known_hooks self).
  assert (Hinv0 : Inv self) by (split; [exact Hok|reflexivity]).
  (* new hooks *)
  destruct (for_each_spec
              (fun self hook_id =>
                 match find (fun h => Z.eqb (Enumerator.hook_id h) hook_id)
                            (Enumerator.probe_detect_hooks enum) with
                 | Some hook => _handle_new_hook self enum now hook
                 | None => (self, Some "StopIteration")
                 end)
              (added_for enum) Inv
              (elements (current_ids enum ∖ dom (known_hooks self))))
    with (self := self) as (self1 & ass & Hf1 & He1 & Hi1 & Hr1); [|exact Hinv0|].
  { intros m id Hin [Hm Hk].
    apply list_elem_of_In, elem_of_elements, elem_of_difference in Hin as [Hcur _].
    destruct (find_current_hook enum id Hcur) as (hook & Hfind & Hid).
    rewrite Hfind.
    destruct (handle_new_hook_spec m enum now hook Hm) as (m' & evs & Hh & He & Hm' & Hev).
    exists m', evs. split; [exact Hh|]. split; [exact He|].
    split; [split; [exact Hm'|destruct He as (_ & _ & -> & _); exact Hk]|].
    unfold added_for, accessible. rewrite Hfind.
    destruct (Enumerator.probe_get_process_info enum (Enumerator.owner_pid hook)).
    - destruct Hev as (e & -> & Hty & Hhi & _). exists e. repeat split; [exact Hty|].
      unfold event_id. rewrite Hhi. cbn. rewrite Hid. reflexivity.
    - exact Hev. }
  (* removed hooks *)
  destruct (for_each_spec
              (fun self hook_id => _handle_removed_hook self now hook_id)
              removed_for Inv
              (elements (dom (known_hooks self) ∖ current_ids enum)))
    with (self := self1) as (self2 & rss & Hf2 & He2 & Hi2 & Hr2); [|exact Hi1|].
  { intros m id Hin [Hm Hk].
    apply list_elem_of_In, elem_of_elements, elem_of_difference in Hin as [Hkn _].
    apply elem_of_dom in Hkn as [h Hh]. pose proof (Hkeys _ _ Hh) as Hid.
    rewrite <- Hk in Hh.
    destruct (handle_removed_hook_spec m now id h Hh) as (m' & e & Hr & He & Hheur & Hty & Hhi).
    exists m', [e]. split; [exact Hr|]. split; [exact He|].
    split; [split; [rewrite Hheur; exact Hm|destruct He as (_ & _ & -> & _); exact Hk]|].
    exists e. repeat split; [exact Hty|]. unfold event_id. rewrite Hhi. cbn.
    rewrite Hid. reflexivity. }
  (* process changes *)
  destruct (for_each_spec
              (fun self hook =>
                 if bool_decide (Enumerator.hook_id hook ∈ dom (known_hooks self))
                 then _check_process_changes self enum now hook
                 else (self, None))
              changed_for Inv (Enumerator.probe_detect_hooks enum))
    with (self := self2) as (self3 & css & Hf3 & He3 & Hi3 & Hr3); [|exact Hi2|].
  { intros m hook _ [Hm Hk]. case_bool_decide.
    - destruct (check_process_changes_spec m enum now hook Hm)
        as (m' & evs & Hc & He & Hm' & Hev).
      exists m', evs. split; [exact Hc|]. split; [exact He|].
      split; [split; [exact Hm'|destruct He as (_ & _ & -> & _); exact Hk]|exact Hev].
    - exists m, []. split; [reflexivity|]. split; [apply extends_refl|].
      split; [split; assumption|constructor]. }
  exists (concat ass), (concat rss), (concat css).
  pose proof (extends_trans _ _ _ _ _ He1 (extends_trans _ _ _ _ _ He2 He3))
    as (Hev & Hcl & _ & Hcb).
  destruct (added_events _ _ _ Hr1) as [Hat Hai].
  destruct (removed_events _ _ Hr2) as [Hrt Hri].
  pose proof (changed_events _ _ Hr3) as Hct.
  unfold _perform_scan, scan_body. fold (current_ids enum).
  rewrite Hf1. cbn [bind_outcome]. rewrite Hf2. cbn [bind_outcome].
  rewrite Hf3. cbn [bind_outcome].
  cbn [set_known_hooks events calls known_hooks on_event_callbacks heuristics].
  destruct Hi3 as [Hok3 _]. repeat split; assumption.
Qed.

End Handlers.

(** *** Reachable monitors *)

Lemma reachable_ok self : reachable self -> monitor_ok self.
Proof.
  induction 1 as [s|self cb _ IH|self enum now _ IH].
  - split; [exists s; apply same_static_refl|].
    intros k h. cbn. rewrite lookup_empty. discriminate.
  - exact IH.
  - destruct IH as [[s Hs] Hk].
    destruct (perform_scan_spec s self enum now Hs Hk)
      as (a & r & c & _ & _ & Hkn & _ & Hok & _).
    split; [exists s; exact Hok|]. rewrite Hkn. apply hooks_by_id_spec.
Qed.

Lemma new_events_app (self self' : HookMonitor) evs :
  events self' = (events self ++ evs)%list -> new_events self self' = evs.
Proof. intros H. unfold new_events. rewrite H. apply drop_app_length. Qed.

Lemma new_calls_app (self self' : HookMonitor) cls :
  calls self' = (calls self ++ cls)%list -> new_calls self self' = cls.
Proof. intros H. unfold new_calls. rewrite H. apply drop_app_length. Qed.

(** *** Which hooks a scan reports *)

Lemma ids_of_type ty ty' evs :
  Forall (fun e => event_type e = ty') evs ->
  omap (fun e => if String.eqb (event_type e) ty
                 then Enumerator.hook_id <$> hook_info e else None) evs
  = if String.eqb ty' ty then omap event_id evs else [].
Proof.
  induction 1 as [|e evs He _ IH]; cbn.
  - destruct (String.eqb ty' ty); reflexivity.
  - rewrite IH, He. unfold event_id. destruct (String.eqb ty' ty); reflexivity.
Qed.

Lemma event_hook_ids_segments ty added removed changed :
  Forall (fun e => event_type e = "hook_added") added ->
  Forall (fun e => event_type e = "hook_removed") removed ->
  Forall (fun e => event_type e = "process_changed") changed ->
  event_hook_ids ty (added ++ removed ++ changed)
  = list_to_set
      ((if String.eqb "hook_added" ty then omap event_id added else [])
       ++ (if String.eqb "hook_removed" ty then omap event_id removed else [])
       ++ (if String.eqb "process_changed" ty then omap event_id changed else [])).
Proof.
  intros Ha Hr Hc. unfold event_hook_ids.
  rewrite !omap_app, (ids_of_type _ _ _ Ha), (ids_of_type _ _ _ Hr),
    (ids_of_type _ _ _ Hc). reflexivity.
Qed.

(** C6 (as stated, refuted): hook 7 is new (it is among the current ids and
    not among the known ones), its owner cannot be read, and the scan emits
    no hook_added event for it. *)
Lemma unreadable_owner_gets_no_hook_added :
  let self := HookMonitor_init "medium" in
  let self' := _perform_scan self ghost_probe "t" in
  7 ∈ current_ids ghost_probe ∖ dom (known_hooks self)
  /\ new_events self self' = []
  /\ 7 ∉ event_hook_ids "hook_added" (new_events self self').
Proof.
  cbv zeta. split; [apply (bool_decide_unpack _); vm_compute; exact I|].
  assert (H : new_events (HookMonitor_init "medium")
                (_perform_scan (HookMonitor_init "medium") ghost_probe "t") = [])
    by (vm_compute; reflexivity).
  split; [exact H|]. rewrite H. unfold event_hook_ids. cbn. set_solver.
Qed.

(** C6 (amended): in every monitor cycle a hook_added event is emitted for
    exactly the ids that are current, not previously known, and whose owner
    process the probe can read; a hook_removed event for exactly the ids
    previously known and not current; and after the cycle the key set of
    known_hooks is the set of current ids. *)
Theorem scan_reports_the_diff self enum now :
  reachable self ->
  (forall id,
     id ∈ event_hook_ids "hook_added" (new_events self (_perform_scan self enum now))
     <-> id ∈ current_ids enum ∖ dom (known_hooks self) /\ accessible enum id = true)
  /\ event_hook_ids "hook_removed" (new_events self (_perform_scan self enum now))
     = dom (known_hooks self) ∖ current_ids enum
  /\ dom (known_hooks (_perform_scan self enum now)) = current_ids enum.
Proof.
  intros Hreach. destruct (reachable_ok self Hreach) as [[s Hs] Hk].
  destruct (perform_scan_spec s self enum now Hs Hk)
    as (a & r & c & Hev & _ & Hkn & _ & _ & Hat & Hai & Hrt & Hri & Hct).
  cbv zeta in *. rewrite (new_events_app _ _ _ Hev).
  split; [|split].
  - intros id. rewrite (event_hook_ids_segments _ _ _ _ Hat Hrt Hct). cbn.
    rewrite app_nil_r, Hai, elem_of_list_to_set, list_elem_of_In, filter_In,
      <- list_elem_of_In, elem_of_elements. tauto.
  - rewrite (event_hook_ids_segments _ _ _ _ Hat Hrt Hct). cbn.
    rewrite app_nil_r, Hri. apply set_eq. intros id.
    rewrite elem_of_list_to_set, elem_of_elements. tauto.
  - rewrite Hkn. apply hooks_by_id_spec.
Qed.

Lemma scan_reports_the_diff_witness :
  reachable after_AB
  /\ (forall id,
        id ∈ event_hook_ids "hook_added" (new_events after_AB after_BC)
        <-> id ∈ current_ids (probe_BC "t2") ∖ dom (known_hooks after_AB)
            /\ accessible (probe_BC "t2") id = true)
  /\ event_hook_ids "hook_removed" (new_events after_AB after_BC)
     = dom (known_hooks after_AB) ∖ current_ids (probe_BC "t2")
  /\ dom (known_hooks after_BC) = current_ids (probe_BC "t2").
Proof.
  assert (Hr : reachable after_AB) by (apply reach_scan, reach_init).
  split; [exact Hr|].
  exact (scan_reports_the_diff after_AB (probe_BC "t2") "t2" Hr).
Defined.

(** *** In which order *)

Lemma deliveries_typed cbs ty evs :
  Forall (fun e => event_type e = ty) evs ->
  Forall (fun c : Call => event_type (snd c) = ty) (deliveries cbs evs).
Proof.
  induction 1 as [|e evs He _ IH]; cbn; [constructor|].
  apply Forall_app. split; [|exact IH].
  destruct (String.eqb (event_type e) "process_changed"); [constructor|].
  apply Forall_forall. intros c Hc. apply list_elem_of_In, in_map_iff in Hc as (cb & <- & _).
  exact He.
Qed.

Lemma added_segment_first {X : Type} (ty : X -> string) (A R C : list X) i j x y :
  Forall (fun e => ty e = "hook_added") A ->
  Forall (fun e => ty e = "hook_removed") R ->
  Forall (fun e => ty e = "process_changed") C ->
  (A ++ R ++ C)%list !! i = Some x ->
  (A ++ R ++ C)%list !! j = Some y ->
  ty x = "hook_added" -> ty y = "hook_removed" ->
  (i < j)%nat.
Proof.
  intros HA HR HC Hi Hj Hx Hy.
  assert (Hia : (i < length A)%nat).
  { destruct (decide (i < length A)%nat) as [|Hge]; [assumption|exfalso].
    rewrite lookup_app_r in Hi by lia.
    apply list_elem_of_lookup_2, elem_of_app in Hi as [Hi|Hi].
    - rewrite Forall_forall in HR. apply HR in Hi. congruence.
    - rewrite Forall_forall in HC. apply HC in Hi. congruence. }
  assert (Hja : (length A <= j)%nat).
  { destruct (decide (length A <= j)%nat) as [|Hlt]; [assumption|exfalso].
    rewrite lookup_app_l in Hj by lia.
    apply list_elem_of_lookup_2 in Hj.
    rewrite Forall_forall in HA. apply HA in Hj. congruence. }
  lia.
Qed.

(** C7 (as stated, refuted): in the second cycle of the monitor-diff
    scenario the events are hook_added(C) and then hook_removed(A), and the
    known hooks are B and C afterwards. *)
Lemma diff_scenario_adds_before_removing :
  map (fun e => (event_type e, event_id e)) (new_events after_AB after_BC)
  = [("hook_added", Some 3); ("hook_removed", Some 1)]
  /\ dom (known_hooks after_AB) = {[ 1; 2 ]}
  /\ dom (known_hooks after_BC) = {[ 2; 3 ]}
  /\ exists i j e1 e2,
       new_events after_AB after_BC !! i = Some e1
       /\ new_events after_AB after_BC !! j = Some e2
       /\ event_type e1 = "hook_added"
       /\ event_type e2 = "hook_removed"
       /\ (i < j)%nat.
Proof.
  split; [vm_compute; reflexivity|].
  split; [vm_compute; reflexivity|].
  split; [vm_compute; reflexivity|].
  destruct (new_events after_AB after_BC) as [|e1 [|e2 l]] eqn:E;
    try (vm_compute in E; discriminate E).
  assert (Ht : map event_type (new_events after_AB after_BC)
               = ["hook_added"; "hook_removed"]) by (vm_compute; reflexivity).
  rewrite E in Ht. cbn in Ht. injection Ht as Ht1 Ht2 _.
  exists 0%nat, 1%nat, e1, e2. repeat split; try assumption. lia.
Qed.

(** C7 (amended): within one monitor cycle every hook_added event is
    recorded, and delivered to the subscribers, before any hook_removed
    event of that cycle. *)
Theorem added_before_removed self enum now :
  reachable self ->
  (forall i j e1 e2,
     new_events self (_perform_scan self enum now) !! i = Some e1 ->
     new_events self (_perform_scan self enum now) !! j = Some e2 ->
     event_type e1 = "hook_added" -> event_type e2 = "hook_removed" ->
     (i < j)%nat)
  /\ (forall i j (c1 c2 : Call),
        new_calls self (_perform_scan self enum now) !! i = Some c1 ->
        new_calls self (_perform_scan self enum now) !! j = Some c2 ->
        event_type (snd c1) = "hook_added" -> event_type (snd c2) = "hook_removed" ->
        (i < j)%nat).
Proof.
  intros Hreach. destruct (reachable_ok self Hreach) as [[s Hs] Hk].
  destruct (perform_scan_spec s self enum now Hs Hk)
    as (a & r & c & Hev & Hcl & _ & _ & _ & Hat & _ & Hrt & _ & Hct).
  cbv zeta in *. rewrite (new_events_app _ _ _ Hev), (new_calls_app _ _ _ Hcl).
  split.
  - intros i j e1 e2. apply (added_segment_first event_type); assumption.
  - intros i j c1 c2. rewrite !deliveries_app.
    apply (added_segment_first (fun c : Call => event_type (snd c)));
      apply deliveries_typed; assumption.
Qed.

Lemma added_before_removed_witness :
  reachable after_AB
  /\ (forall i j e1 e2,
        new_events after_AB after_BC !! i = Some e1 ->
        new_events after_AB after_BC !! j = Some e2 ->
        event_type e1 = "hook_added" -> event_type e2 = "hook_removed" ->
        (i < j)%nat)
  /\ (forall i j (c1 c2 : Call),
        new_calls after_AB after_BC !! i = Some c1 ->
        new_calls after_AB after_BC !! j = Some c2 ->
        event_type (snd c1) = "hook_added" -> event_type (snd c2) = "hook_removed" ->
        (i < j)%nat).
Proof.
  assert (Hr : reachable after_AB) by (apply reach_scan, reach_init).
  split; [exact Hr|].
  exact (added_before_removed after_AB (probe_BC "t2") "t2" Hr).
Defined.

(** *** Subscribers *)

(** C9 (the code at the failing input): one subscriber is registered and
    is called for the hook_added event of the first cycle.  In the second
    cycle the hooked process has loaded one more module: the monitor
    records a process_changed event of HIGH risk and prints its alert, and
    calls no subscriber, although [add_event_callback] registers a callback
    to be called on each event and the two other handlers call it. *)
Theorem process_changed_event_reaches_no_subscriber :
  map cb_id (on_event_callbacks watched_second) = [2%nat]
  /\ map (fun c : Call => (fst c, event_type (snd c))) (new_calls watched watched_first)
     = [(2%nat, "hook_added")]
  /\ map (fun e => (event_type e, details e, risk_level <$> risk_assessment e))
         (new_events watched_first watched_second)
     = [("process_changed",
         "Process updater.exe changed: loaded new DLLs: keyhook.dll",
         Some HIGH)]
  /\ last (ui_out watched_second)
     = Some (ui_alert "HIGH"
               ("Process updater.exe changed: loaded new DLLs: keyhook.dll"
                ++ " | Risk: HIGH (120/100) | Flags: Unsigned Binary, Hidden Window"))
  /\ new_calls watched_first watched_second = [].
Proof. repeat split; vm_compute; reflexivity. Qed.

(** *** What the subscribers do receive *)

Lemma reachable_register_all self cbs :
  reachable self -> reachable (register_all self cbs).
Proof.
  revert self. induction cbs as [|cb cbs IH]; intros self H; [exact H|].
  apply IH, reach_callback, H.
Qed.

Lemma register_all_callbacks self cbs :
  on_event_callbacks (register_all self cbs) = (on_event_callbacks self ++ cbs)%list.
Proof.
  revert self. induction cbs as [|cb cbs IH]; intros self; cbn.
  - rewrite app_nil_r. reflexivity.
  - unfold register_all in IH. rewrite IH. cbn. rewrite <- app_assoc. reflexivity.
Qed.

(** X8: callbacks registered one after the other are kept in that order,
    and a scan does not change the list.  The subscriber calls of a cycle
    are, for each hook_added and hook_removed event the cycle records and
    in the order it records them, one call of every callback in
    registration order, whether the callbacks return or raise an
    [Exception]; a process_changed event gives no call. *)
Theorem subscribers_called_in_registration_order self cbs enum now :
  reachable self ->
  let registered := register_all self cbs in
  let scanned := _perform_scan registered enum now in
  on_event_callbacks registered = (on_event_callbacks self ++ cbs)%list
  /\ on_event_callbacks scanned = on_event_callbacks registered
  /\ new_calls registered scanned
     = flat_map
         (fun e =>
            if String.eqb (event_type e) "process_changed" then []
            else map (fun cb => (cb_id cb, e)) (on_event_callbacks self ++ cbs)%list)
         (new_events registered scanned).
Proof.
  intros Hreach registered scanned.
  pose proof (reachable_register_all self cbs Hreach) as Hr.
  destruct (reachable_ok _ Hr) as [[s Hs] Hkeys].
  split; [apply register_all_callbacks|].
  destruct (perform_scan_spec s _ enum now Hs Hkeys)
    as (a & r & c & Hev & Hcl & _ & Hcb & _).
  cbv zeta in *. split; [exact Hcb|].
  unfold scanned, registered.
  rewrite (new_events_app _ _ _ Hev), (new_calls_app _ _ _ Hcl), register_all_callbacks.
  reflexivity.
Qed.

Lemma subscribers_called_in_registration_order_witness :
  on_event_callbacks (register_all (HookMonitor_init "medium") [s1; s2]) = [s1; s2]
  /\ on_event_callbacks
       (_perform_scan (register_all (HookMonitor_init "medium") [s1; s2])
          (Enumerator.mock_probe "t") "t")
     = on_event_callbacks (register_all (HookMonitor_init "medium") [s1; s2])
  /\ new_calls (register_all (HookMonitor_init "medium") [s1; s2])
       (_perform_scan (register_all (HookMonitor_init "medium") [s1; s2])
          (Enumerator.mock_probe "t") "t")
     = flat_map
         (fun e =>
            if String.eqb (event_type e) "process_changed" then []
            else map (fun cb => (cb_id cb, e)) [s1; s2])
         (new_events (register_all (HookMonitor_init "medium") [s1; s2])
            (_perform_scan (register_all (HookMonitor_init "medium") [s1; s2])
               (Enumerator.mock_probe "t") "t")).
Proof.
  exact (subscribers_called_in_registration_order (HookMonitor_init "medium") [s1; s2]
           (Enumerator.mock_probe "t") "t" (reach_init "medium")).
Defined.



(** The subscriber-isolation scenario: [s1] raises on each of the three
    hook_added events of the scan, [s2] is called right after it each time,
    and each failure is printed. *)
Lemma subscriber_isolation_scenario :
  length (calls two_subscribers_scanned) = 6%nat
  /\ (forall id, In id [1; 2; 3] ->
        map (fun c : Call => (fst c, event_type (snd c)))
            (List.filter (fun c : Call => bool_decide (event_id (snd c) = Some id))
                         (calls two_subscribers_scanned))
        = [(1%nat, "hook_added"); (2%nat, "hook_added")])
  /\ List.filter (fun l => match l with ui_error _ => true | _ => false end)
       (ui_out two_subscribers_scanned)
     = [ ui_error "Callback error: s1 failed";
         ui_error "Callback error: s1 failed";
         ui_error "Callback error: s1 failed" ].
Proof.
  split; [vm_compute; reflexivity|]. split; [|vm_compute; reflexivity].
  intros id [<-|[<-|[<-|[]]]]; vm_compute; reflexivity.
Qed.

(** *** The event log and the snapshot *)

Lemma list_filter_sublist {A} (f : A -> bool) (l : list A) : sublist (List.filter f l) l.
Proof.
  induction l as [|x l IH]; cbn; [constructor|].
  destruct (f x); [apply sublist_skip|apply sublist_cons]; exact IH.
Qed.

Lemma list_filter_Forall {A} (f : A -> bool) (l : list A) :
  Forall (fun x => f x = true) (List.filter f l).
Proof. apply Forall_forall. intros x Hx. apply list_elem_of_In, filter_In in Hx. tauto. Qed.

Lemma Forall_list_filter {A} (P : A -> Prop) (f : A -> bool) (l : list A) :
  Forall P l -> Forall P (List.filter f l).
Proof.
  intros H. apply Forall_forall. intros x Hx. apply list_elem_of_In, filter_In in Hx.
  rewrite Forall_forall in H. apply H, list_elem_of_In. tauto.
Qed.

(** X18: [get_events] returns the log itself when no filter is given, an
    empty event type filters nothing, the result keeps the order of the
    log, a type filter returns events of that type only, and with a
    minimum risk every returned event carries an assessment of at least
    that level. *)
Theorem get_events_filters self ty min_risk :
  get_events self None None = events self
  /\ get_events self (Some "") min_risk = get_events self None min_risk
  /\ sublist (get_events self ty min_risk) (events self)
  /\ (forall t, ty = Some t -> t <> "" ->
        Forall (fun e => event_type e = t) (get_events self ty min_risk))
  /\ (forall m, min_risk = Some m ->
        Forall (fun e => exists a, risk_assessment e = Some a
                                   /\ risk_order m <= risk_order (risk_level a))
               (get_events self ty min_risk)).
Proof.
  split; [reflexivity|]. split; [reflexivity|]. split; [|split].
  - unfold get_events.
    assert (H1 : sublist (match ty with
                          | None | Some "" => events self
                          | Some t => List.filter (fun e => String.eqb (event_type e) t)
                                        (events self)
                          end) (events self)).
    { destruct ty as [[|c t]|]; [reflexivity|apply list_filter_sublist|reflexivity]. }
    destruct min_risk as [m|]; [|exact H1].
    etransitivity; [apply list_filter_sublist|exact H1].
  - intros t -> Hne. unfold get_events.
    destruct t as [|c t]; [contradiction Hne; reflexivity|].
    assert (H1 : Forall (fun e => event_type e = String c t)
                   (List.filter (fun e => String.eqb (event_type e) (String c t))
                      (events self))).
    { eapply Forall_impl; [apply list_filter_Forall|].
      intros e He. apply String.eqb_eq, He. }
    destruct min_risk as [m|]; [|exact H1]. apply Forall_list_filter, H1.
  - intros m ->. unfold get_events.
    eapply Forall_impl; [apply list_filter_Forall|].
    intros e He. cbn beta in He. destruct (risk_assessment e) as [a|]; [|discriminate He].
    exists a. split; [reflexivity|]. apply Z.leb_le, He.
Qed.

(** *** What the handlers record *)

Lemma trigger_callbacks_events cbs event self :
  events (trigger_callbacks cbs event self) = events self.
Proof. apply (trigger_callbacks_spec cbs event self). Qed.

Lemma handle_new_hook_wf self enum now hook :
  exists evs,
    events (fst (_handle_new_hook self enum now hook)) = (events self ++ evs)%list
    /\ Forall event_wf evs.
Proof.
  unfold _handle_new_hook.
  destruct (Enumerator.probe_get_process_info enum (Enumerator.owner_pid hook))
    as [proc_info|].
  2:{ exists []. cbn. rewrite app_nil_r. auto. }
  destruct (analyze_hook (heuristics self) hook proc_info now) as [[a eng]|].
  2:{ exists []. cbn. rewrite app_nil_r. auto. }
  eexists [_]. cbn [fst]. rewrite trigger_callbacks_events. cbn.
  split; [reflexivity|]. constructor; [|constructor].
  split; cbn; [eauto|left; reflexivity].
Qed.

Lemma handle_removed_hook_wf self now hook_id :
  exists evs,
    events (fst (_handle_removed_hook self now hook_id)) = (events self ++ evs)%list
    /\ Forall event_wf evs.
Proof.
  unfold _handle_removed_hook.
  destruct (known_hooks self !! hook_id) as [removed_hook|].
  2:{ exists []. cbn. rewrite app_nil_r. auto. }
  eexists [_]. cbn [fst]. rewrite trigger_callbacks_events. cbn.
  split; [reflexivity|]. constructor; [|constructor].
  split; cbn; [eauto|reflexivity].
Qed.

Lemma check_process_changes_wf self enum now hook :
  exists evs,
    events (fst (_check_process_changes self enum now hook)) = (events self ++ evs)%list
    /\ Forall event_wf evs.
Proof.
  unfold _check_process_changes.
  destruct (Enumerator.probe_get_process_info enum (Enumerator.owner_pid hook))
    as [new_proc|].
  2:{ exists []. cbn. rewrite app_nil_r. auto. }
  match goal with |- context [match ?c with [] => _ | _ :: _ => _ end] =>
    destruct c as [|change changes] end.
  { exists []. cbn. rewrite app_nil_r. auto. }
  destruct (analyze_hook (heuristics self) hook new_proc now) as [[a eng]|].
  2:{ exists []. cbn. rewrite app_nil_r. auto. }
  destruct (risk_level a); (eexists [_]; cbn; split; [reflexivity|];
    constructor; [|constructor]; split; cbn; [eauto|right; reflexivity]).
Qed.

Lemma for_each_wf {A : Type} (body : HookMonitor -> A -> Outcome) (l : list A) :
  (forall self x, exists evs,
      events (fst (body self x)) = (events self ++ evs)%list /\ Forall event_wf evs) ->
  forall self, exists evs,
    events (fst (for_each body l self)) = (events self ++ evs)%list
    /\ Forall event_wf evs.
Proof.
  intros Hbody. induction l as [|x l IH]; intros self; cbn [for_each].
  - exists []. cbn. rewrite app_nil_r. auto.
  - destruct (Hbody self x) as (evs & He & Hwf).
    destruct (body self x) as [self1 [e|]]; cbn [bind_outcome fst] in *.
    + exists evs. auto.
    + destruct (IH self1) as (evs2 & He2 & Hwf2).
      exists (evs ++ evs2)%list. rewrite He2, He, app_assoc.
      split; [reflexivity|]. apply Forall_app. auto.
Qed.

Lemma perform_scan_wf self enum now :
  exists evs,
    events (_perform_scan self enum now) = (events self ++ evs)%list
    /\ Forall event_wf evs.
Proof.
  unfold _perform_scan, scan_body.
  match goal with |- context [bind_outcome (for_each ?b ?l self) ?k] =>
    destruct (for_each_wf b l) with (self := self) as (evs1 & He1 & Hw1);
    [|destruct (for_each b l self) as [self1 [e|]]] end.
  { intros m id. destruct (find _ _); [apply handle_new_hook_wf|].
    exists []. cbn. rewrite app_nil_r. auto. }
  { cbn in *. exists evs1. auto. }
  cbn [bind_outcome fst] in *.
  match goal with |- context [bind_outcome (for_each ?b ?l self1) ?k] =>
    destruct (for_each_wf b l) with (self := self1) as (evs2 & He2 & Hw2);
    [|destruct (for_each b l self1) as [self2 [e|]]] end.
  { intros m id. apply handle_removed_hook_wf. }
  { cbn in *. exists (evs1 ++ evs2)%list. rewrite He2, He1, app_assoc.
    split; [reflexivity|]. apply Forall_app. auto. }
  cbn [bind_outcome fst] in *.
  match goal with |- context [bind_outcome (for_each ?b ?l self2) ?k] =>
    destruct (for_each_wf b l) with (self := self2) as (evs3 & He3 & Hw3);
    [|destruct (for_each b l self2) as [self3 [e|]]] end.
  { intros m h. destruct (bool_decide _); [apply check_process_changes_wf|].
    exists []. cbn. rewrite app_nil_r. auto. }
  { cbn in *. exists (evs1 ++ evs2 ++ evs3)%list. rewrite He3, He2, He1, !app_assoc.
    split; [reflexivity|]. rewrite <- app_assoc. repeat (apply Forall_app; split); auto. }
  cbn in *. exists (evs1 ++ evs2 ++ evs3)%list. rewrite He3, He2, He1, !app_assoc.
  split; [reflexivity|]. rewrite <- app_assoc. repeat (apply Forall_app; split); auto.
Qed.

Lemma reachable_events_wf self : reachable self -> Forall event_wf (events self).
Proof.
  induction 1 as [s|self cb _ IH|self enum now _ IH].
  - constructor.
  - exact IH.
  - destruct (perform_scan_wf self enum now) as (evs & -> & Hw).
    apply Forall_app. auto.
Qed.

Lemma get_events_min_risk_In self ty min_risk e :
  In e (get_events self ty (Some min_risk)) ->
  In e (events self)
  /\ is_Some (risk_assessment e)
  /\ match ty with
     | Some (String c t) => event_type e = String c t
     | _ => True
     end.
Proof.
  unfold get_events. rewrite filter_In. intros [Hin Ha].
  split; [|split].
  - destruct ty as [[|c t]|]; [exact Hin| |exact Hin].
    apply filter_In in Hin. tauto.
  - destruct (risk_assessment e); [eauto|discriminate Ha].
  - destruct ty as [[|c t]|]; [exact I| |exact I].
    apply filter_In in Hin. apply String.eqb_eq. tauto.
Qed.

(** X19: in every monitor a program can hold, hook_removed events carry
    no assessment, so [get_events] with any minimum risk, also LOW or
    UNKNOWN, returns no hook_removed event; with UNKNOWN it returns all
    the other events. *)
Theorem min_risk_filter_hides_removed_hooks self ty min_risk :
  reachable self ->
  Forall (fun e => event_type e <> "hook_removed") (get_events self ty (Some min_risk))
  /\ get_events self (Some "hook_removed") (Some min_risk) = []
  /\ get_events self None (Some UNKNOWN)
     = List.filter (fun e => negb (String.eqb (event_type e) "hook_removed"))
         (events self).
Proof.
  intros Hreach. pose proof (reachable_events_wf self Hreach) as Hwf.
  assert (H1 : forall ty e, In e (get_events self ty (Some min_risk)) ->
                            event_type e <> "hook_removed").
  { intros ty' e He.
    apply get_events_min_risk_In in He as (Hin & [a Ha] & _).
    rewrite Forall_forall in Hwf.
    destruct (Hwf e (proj2 (list_elem_of_In _ _) Hin)) as [_ Hty].
    rewrite Ha in Hty. destruct Hty as [-> | ->]; discriminate. }
  split; [apply Forall_forall; intros e He; apply (H1 ty), list_elem_of_In, He|]. split.
  - destruct (get_events self (Some "hook_removed") (Some min_risk)) as [|e l] eqn:E;
      [reflexivity|exfalso].
    assert (He : In e (get_events self (Some "hook_removed") (Some min_risk)))
      by (rewrite E; left; reflexivity).
    apply (H1 _ e He).
    apply get_events_min_risk_In in He as (_ & _ & Hty). exact Hty.
  - unfold get_events. cbn [risk_order]. clear H1.
    induction Hwf as [|e l [_ He] _ IH]; [reflexivity|].
    cbn [List.filter]. rewrite IH.
    destruct (risk_assessment e) as [a|].
    + assert (Hr : (-1 <=? risk_order (risk_level a)) = true)
        by (destruct (risk_level a); reflexivity).
      rewrite Hr. destruct He as [-> | ->]; reflexivity.
    + rewrite He. reflexivity.
Qed.

Lemma min_risk_filter_hides_removed_hooks_witness :
  In "hook_removed" (map event_type (events after_BC))
  /\ Forall (fun e => event_type e <> "hook_removed") (get_events after_BC None (Some LOW))
  /\ get_events after_BC (Some "hook_removed") (Some LOW) = []
  /\ get_events after_BC None (Some UNKNOWN)
     = List.filter (fun e => negb (String.eqb (event_type e) "hook_removed"))
         (events after_BC).
Proof.
  split; [vm_compute; tauto|].
  exact (min_risk_filter_hides_removed_hooks after_BC None LOW
           (reach_scan _ _ _ (reach_scan _ _ _ (reach_init "medium")))).
Defined.





End MonitorFacts.

(** * Facts about keylogger_detector.py *)

Module DetectorFacts.

Import Detector.

Lemma tally_confidence_indicator fired line points conf t :
  tally_confidence (indicator fired line points conf t)
  = add_if fired conf (tally_confidence t).
Proof. destruct fired; reflexivity. Qed.







(** The detection of the name-spoofing scenario under [spoof_os]: ten
    points, confidence clamped to 1.0, and the network, memory and
    injection flags. *)
Lemma spoof_scenario_detection :
  exists d,
    analyze_process spoof_os spoof_dict = Some d
    /\ threat_score d = 10
    /\ confidence d = 1.0%float
    /\ length (evidence d) = 9%nat
    /\ (network_activity d, file_logging d, memory_suspicious d, process_injection d)
       = (true, false, true, true).
Proof. eexists. split; [vm_compute; reflexivity|]. repeat split. Qed.

(** *** The whitelist *)

Lemma safe_names_are_lower name :
  name ∈ safe_process_names -> Text.lower name = name.
Proof.
  unfold safe_process_names. rewrite elem_of_list_to_set, list_elem_of_In. cbn [In].
  intros H. repeat (destruct H as [<- | H]; [reflexivity|]). contradiction.
Qed.

(** C2: a process whose name is in the safe-process set (as written or
    after lowering) and whose path is under a trusted location gets [None]
    from [analyze_process] when name spoofing does not fire, whatever the
    operating system reports and whatever the other entries of the record
    are. *)
Theorem whitelist_short_circuit os proc :
  (default "" (d_name proc) ∈ safe_process_names
   \/ Text.lower (default "" (d_name proc)) ∈ safe_process_names) ->
  _is_trusted_location (default "" (d_path proc)) = true ->
  fst (_detect_name_spoofing (default "" (d_name proc)) (default "" (d_path proc)))
  = false ->
  analyze_process os proc = None.
Proof.
  intros Hsafe _ Hspoof.
  assert (Hin : Text.lower (default "" (d_name proc)) ∈ safe_process_names).
  { destruct Hsafe as [H|H]; [|exact H]. rewrite (safe_names_are_lower _ H). exact H. }
  unfold analyze_process, whitelisted.
  rewrite (bool_decide_eq_true_2 _ Hin), Hspoof. reflexivity.
Qed.

Lemma whitelist_short_circuit_witness :
  (default "" (d_name genuine_dict) ∈ safe_process_names
   \/ Text.lower (default "" (d_name genuine_dict)) ∈ safe_process_names)
  /\ _is_trusted_location (default "" (d_path genuine_dict)) = true
  /\ fst (_detect_name_spoofing (default "" (d_name genuine_dict))
            (default "" (d_path genuine_dict))) = false
  /\ analyze_process spoof_os genuine_dict = None.
Proof.
  assert (H1 : default "" (d_name genuine_dict) ∈ safe_process_names
               \/ Text.lower (default "" (d_name genuine_dict)) ∈ safe_process_names)
    by (left; apply (bool_decide_unpack _); vm_compute; exact I).
  assert (H2 : _is_trusted_location (default "" (d_path genuine_dict)) = true)
    by (vm_compute; reflexivity).
  assert (H3 : fst (_detect_name_spoofing (default "" (d_name genuine_dict))
                      (default "" (d_path genuine_dict))) = false)
    by (vm_compute; reflexivity).
  split; [exact H1|]. split; [exact H2|]. split; [exact H3|].
  exact (whitelist_short_circuit spoof_os genuine_dict H1 H2 H3).
Defined.

(** *** The eleven indicators *)


Lemma indicator_fields fired line p conf t :
  tally_threat (indicator fired line p conf t) = tally_threat t + points fired p
  /\ Z.of_nat (length (tally_evidence (indicator fired line p conf t)))
     = Z.of_nat (length (tally_evidence t)) + points fired 1
  /\ tally_confidence (indicator fired line p conf t)
     = add_if fired conf (tally_confidence t).
Proof.
  destruct fired; cbn; [|repeat split; lia].
  rewrite length_app. cbn. repeat split; lia.
Qed.

Lemma advanced_closed os pid :
  fst (_advanced_behavioral_analysis os pid)
  = advanced_confidence (fst (_check_network_exfiltration os pid))
      (fst (_check_file_logging os pid)) (fst (_check_memory_patterns os pid))
      (fst (_check_process_ancestry os pid))
      (fst (_check_dll_injection_indicators os pid))
  /\ Z.of_nat (length (snd (_advanced_behavioral_analysis os pid)))
     = points (fst (_check_network_exfiltration os pid)) 1
       + points (fst (_check_file_logging os pid)) 1
       + points (fst (_check_memory_patterns os pid)) 1
       + points (fst (_check_process_ancestry os pid)) 1
       + points (fst (_check_dll_injection_indicators os pid)) 1.
Proof.
  unfold _advanced_behavioral_analysis.
  destruct (_check_network_exfiltration os pid) as [net net_msg].
  destruct (_check_file_logging os pid) as [file log_msg].
  destruct (_check_memory_patterns os pid) as [mem mem_msg].
  destruct (_check_process_ancestry os pid) as [anc parent_msg].
  destruct (_check_dll_injection_indicators os pid) as [inj dll_msg].
  cbn [fst snd]. split.
  - rewrite !tally_confidence_indicator. reflexivity.
  - destruct net, file, mem, anc, inj; reflexivity.
Qed.

Lemma accumulate_closed os proc :
  tally_threat (accumulate os proc) = threat_of (indicators os proc)
  /\ Z.of_nat (length (tally_evidence (accumulate os proc))) = lines_of (indicators os proc)
  /\ tally_confidence (accumulate os proc) = confidence_of (indicators os proc).
Proof.
  unfold accumulate, threat_of, lines_of, confidence_of, total_confidence,
    advanced_merged, advanced_lines, indicators.
  cbn [i_spoof i_keywords i_unsigned i_location i_unknown i_hidden
       i_network i_file i_memory i_ancestry i_injection].
  destruct (advanced_closed os (default 0 (d_pid proc))) as [Hc Hl].
  rewrite <- Hc, <- Hl.
  destruct (_detect_name_spoofing _ _) as [spoof spoof_msg].
  destruct (_advanced_behavioral_analysis os _) as [adv_confidence adv_evidence].
  cbn [fst snd].
  destruct (0 <? adv_confidence)%float; cbn [tally_threat tally_evidence tally_confidence].
  - rewrite length_app, Nat2Z.inj_add.
    repeat match goal with
    | |- context [indicator ?b ?l ?p ?c ?t] =>
        destruct (indicator_fields b l p c t) as (-> & -> & ->)
    end.
    cbn [tally_threat tally_evidence tally_confidence length]. repeat split; lia.
  - repeat match goal with
    | |- context [indicator ?b ?l ?p ?c ?t] =>
        destruct (indicator_fields b l p c t) as (-> & -> & ->)
    end.
    cbn [tally_threat tally_evidence tally_confidence length]. repeat split; lia.
Qed.


Lemma analyze_process_some os proc d :
  analyze_process os proc = Some d ->
  whitelisted os (default "" (d_name proc)) (default "" (d_path proc)) = false
  /\ 3 <= tally_threat (accumulate os proc)
  /\ threat_score d = tally_threat (accumulate os proc)
  /\ evidence d = tally_evidence (accumulate os proc)
  /\ confidence d = clamp (tally_confidence (accumulate os proc))
  /\ network_activity d = existsb (Text.contains "NETWORK") (evidence d)
  /\ file_logging d = existsb (Text.contains "FILE LOGGING") (evidence d)
  /\ memory_suspicious d = existsb (Text.contains "MEMORY") (evidence d)
  /\ process_injection d
     = existsb (fun e => Text.contains "INJECTION" e || Text.contains "ANCESTRY" e)
               (evidence d).
Proof.
  unfold analyze_process, decide_detection.
  destruct (whitelisted os _ _); [discriminate|].
  destruct (Z.leb_spec 3 (tally_threat (accumulate os proc))); [|discriminate].
  intros [= <-]. cbn. repeat split; assumption.
Qed.

Lemma analyze_process_reports os proc :
  whitelisted os (default "" (d_name proc)) (default "" (d_path proc)) = false ->
  3 <= threat_of (indicators os proc) ->
  exists d, analyze_process os proc = Some d.
Proof.
  intros Hw Ht. unfold analyze_process, decide_detection. rewrite Hw.
  rewrite <- (proj1 (accumulate_closed os proc)) in Ht.
  apply Z.leb_le in Ht. rewrite Ht. eauto.
Qed.

Lemma threat_of_range i :
  threat_of i <= 13
  /\ lines_of i <= threat_of i <= lines_of i + 2
  /\ (3 <= threat_of i -> 2 <= lines_of i)
  /\ (3 <= threat_of i -> (0.55 <=? clamp (confidence_of i))%float = true).
Proof.
  destruct i as [[] [] [] [] [] [] [] [] [] [] []]; vm_compute;
    repeat split; intros; try discriminate; try reflexivity;
    match goal with H : _ -> False |- _ => contradiction H; reflexivity end.
Qed.

(** X10: a detection never has a threat score above 13, its score is the
    number of its evidence lines plus at most 2 (name spoofing and the
    keyword match count twice), and it carries at least two evidence
    lines. *)
Theorem detection_threat_score_range os proc d :
  analyze_process os proc = Some d ->
  threat_score d <= 13
  /\ Z.of_nat (length (evidence d)) <= threat_score d <= Z.of_nat (length (evidence d)) + 2
  /\ (2 <= length (evidence d))%nat.
Proof.
  intros H. apply analyze_process_some in H as (_ & Hge & -> & -> & _).
  destruct (accumulate_closed os proc) as (Ht & Hl & _).
  rewrite Ht in *. rewrite Hl.
  destruct (threat_of_range (indicators os proc)) as (H13 & Hlines & H2 & _).
  split; [exact H13|]. split; [exact Hlines|].
  specialize (H2 Hge). lia.
Qed.

Lemma detection_threat_score_range_witness :
  exists d,
    analyze_process spoof_os spoof_dict = Some d
    /\ threat_score d <= 13
    /\ Z.of_nat (length (evidence d)) <= threat_score d <= Z.of_nat (length (evidence d)) + 2
    /\ (2 <= length (evidence d))%nat.
Proof.
  destruct (analyze_process spoof_os spoof_dict) as [d|] eqn:E.
  - exists d. split; [reflexivity|].
    exact (detection_threat_score_range spoof_os spoof_dict d E).
  - vm_compute in E. discriminate E.
Defined.

(** The score of 13 is reached. *)
Lemma threat_score_13_reached :
  threat_score <$> analyze_process loud_os loud_dict = Some 13.
Proof. vm_compute. reflexivity. Qed.

(** X11: every returned detection has a confidence of at least 0.55: no
    combination of indicators reaches the threat score 3 with less. *)
Theorem detection_confidence_at_least_55_percent os proc d :
  analyze_process os proc = Some d ->
  (0.55 <=? confidence d)%float = true.
Proof.
  intros H. apply analyze_process_some in H as (_ & Hge & _ & _ & -> & _).
  destruct (accumulate_closed os proc) as (Ht & _ & ->).
  rewrite Ht in Hge.
  exact (proj2 (proj2 (proj2 (threat_of_range (indicators os proc)))) Hge).
Qed.

Lemma detection_confidence_at_least_55_percent_witness :
  exists d,
    analyze_process spoof_os spoof_dict = Some d
    /\ (0.55 <=? confidence d)%float = true.
Proof.
  destruct (analyze_process spoof_os spoof_dict) as [d|] eqn:E.
  - exists d. split; [reflexivity|].
    exact (detection_confidence_at_least_55_percent spoof_os spoof_dict d E).
  - vm_compute in E. discriminate E.
Defined.

Lemma indicator_evidence fired line p conf t :
  tally_evidence (indicator fired line p conf t)
  = (tally_evidence t ++ if fired then [line] else [])%list.
Proof. destruct fired; cbn; [reflexivity|rewrite app_nil_r; reflexivity]. Qed.

Lemma whitelisted_spoofing os name path :
  fst (_detect_name_spoofing name path) = true -> whitelisted os name path = false.
Proof.
  intros H. unfold whitelisted. rewrite H. cbn [negb]. rewrite !andb_false_r.
  destruct (get_publisher os path); [apply andb_false_r|reflexivity].
Qed.

Lemma threat_of_lower_bound i :
  points (i_spoof i) 2 + points (i_keywords i) 2 + points (i_unsigned i) 1 <= threat_of i.
Proof.
  unfold threat_of, advanced_lines, points.
  destruct (i_location i), (i_unknown i), (i_hidden i), (advanced_merged i),
    (i_network i), (i_file i), (i_memory i), (i_ancestry i), (i_injection i); lia.
Qed.

(** X12: when the name-spoofing test fires and the record is not marked
    signed, [analyze_process] returns a detection, whatever the safe-name
    set, the trusted locations, the publisher and the operating system
    say; its first evidence line is the name-spoofing line. *)
Theorem unsigned_spoofed_name_is_always_reported os proc :
  fst (_detect_name_spoofing (default "" (d_name proc)) (default "" (d_path proc))) = true ->
  d_is_signed proc <> Some true ->
  exists d,
    analyze_process os proc = Some d
    /\ 3 <= threat_score d
    /\ exists line rest, evidence d = line :: rest /\ Text.contains "NAME SPOOFING" line = true.
Proof.
  intros Hs Hu.
  assert (H3 : 3 <= threat_of (indicators os proc)).
  { pose proof (threat_of_lower_bound (indicators os proc)) as H.
    unfold indicators in H at 1 2 3.
    cbn [i_spoof i_keywords i_unsigned] in H. rewrite Hs in H.
    assert (Hn : negb (default false (d_is_signed proc)) = true).
    { destruct (d_is_signed proc) as [[]|]; [contradiction Hu| |]; reflexivity. }
    rewrite Hn in H. unfold points in H at 1 3.
    destruct (_has_keylogger_keywords _ _); cbn [points] in H; lia. }
  destruct (analyze_process_reports os proc (whitelisted_spoofing os _ _ Hs) H3) as [d Hd].
  exists d. split; [exact Hd|].
  apply analyze_process_some in Hd as (_ & Hge & -> & -> & _).
  split; [exact Hge|].
  unfold accumulate.
  destruct (_detect_name_spoofing _ _) as [spoof spoof_msg]. cbn [fst] in Hs. subst spoof.
  destruct (_advanced_behavioral_analysis os _) as [adv_confidence adv_evidence].
  destruct (0 <? adv_confidence)%float; cbn [tally_evidence];
    rewrite !indicator_evidence; cbn [tally_evidence app];
    rewrite <- !app_assoc; cbn [app];
    do 2 eexists; (split; [reflexivity|apply TextFacts.contains_app_l; vm_compute; reflexivity]).
Qed.

Lemma unsigned_spoofed_name_is_always_reported_witness :
  exists d,
    analyze_process silent_os spoof_dict = Some d
    /\ 3 <= threat_score d
    /\ exists line rest, evidence d = line :: rest /\ Text.contains "NAME SPOOFING" line = true.
Proof.
  apply (unsigned_spoofed_name_is_always_reported silent_os spoof_dict);
    [vm_compute; reflexivity | discriminate].
Defined.

(** X13: when the name-spoofing test does not fire, a path in a trusted
    location, or a non-empty publisher string that contains a trusted
    publisher name, is enough for [None], whatever the name of the process
    and whatever else is observed. *)
Theorem trusted_location_or_publisher_is_never_reported os proc :
  fst (_detect_name_spoofing (default "" (d_name proc)) (default "" (d_path proc))) = false ->
  (_is_trusted_location (default "" (d_path proc)) = true
   \/ exists publisher trusted,
        get_publisher os (default "" (d_path proc)) = Some publisher
        /\ publisher <> ""
        /\ trusted ∈ trusted_publishers
        /\ Text.contains trusted (Text.lower publisher) = true) ->
  analyze_process os proc = None.
Proof.
  intros Hs H. unfold analyze_process, whitelisted. rewrite Hs. cbn [negb].
  rewrite !andb_true_r.
  destruct (bool_decide _); [reflexivity|].
  destruct (_is_trusted_location _) eqn:Hloc; [reflexivity|].
  destruct H as [H | (publisher & trusted & -> & Hne & Hin & Hc)]; [discriminate H|].
  assert (He : existsb (fun t => Text.contains t (Text.lower publisher))
                 (elements trusted_publishers) = true).
  { apply existsb_exists. exists trusted. split; [|exact Hc].
    exact (proj1 (list_elem_of_In _ _) (proj2 (elem_of_elements _ _) Hin)). }
  rewrite He. destruct publisher; [contradiction Hne; reflexivity|]. reflexivity.
Qed.

Lemma trusted_location_or_publisher_is_never_reported_witness :
  analyze_process signed_os
    (mkProcDict (Some "keylogger.exe") (Some "C:\Temp\keylogger.exe") (Some 7)
       (Some false) (Some true))
  = None.
Proof.
  apply trusted_location_or_publisher_is_never_reported; [vm_compute; reflexivity|].
  right. exists "Contoso (a Microsoft partner)", "microsoft".
  split; [reflexivity|]. split; [discriminate|].
  split; [apply (bool_decide_unpack _); vm_compute; exact I|vm_compute; reflexivity].
Defined.

Lemma spoofing_loop_fires items name name_lower path_lower :
  fst (spoofing_loop items name name_lower path_lower) = true
  <-> exists required_path,
        In (name_lower, required_path) items
        /\ Text.contains required_path path_lower = false.
Proof.
  induction items as [|[sys_name required] items IH]; cbn [spoofing_loop].
  - cbn. split; [discriminate|]. intros (r & [] & _).
  - destruct (String.eqb_spec name_lower sys_name) as [->|Hne]; cbn [andb].
    + destruct (Text.contains required path_lower) eqn:Hc; cbn [negb].
      * rewrite IH. split; intros (r & Hin & Hr); exists r.
        -- split; [right; exact Hin|exact Hr].
        -- destruct Hin as [[= <-]|Hin]; [congruence|]. auto.
      * cbn. split; [|reflexivity]. intros _. exists required. split; [left; reflexivity|exact Hc].
    + rewrite IH. split; intros (r & Hin & Hr); exists r.
      * split; [right; exact Hin|exact Hr].
      * destruct Hin as [[= <- <-]|Hin]; [contradiction Hne; reflexivity|]. auto.
Qed.

(** X14: the name-spoofing test fires exactly when the lowered name is one
    of the six critical process names and the lowered path does not
    contain the directory required for that name. *)
Theorem name_spoofing_fires_iff name path :
  fst (_detect_name_spoofing name path) = true
  <-> exists required_path,
        In (Text.lower name, required_path) critical_processes
        /\ Text.contains required_path (Text.lower path) = false.
Proof. apply spoofing_loop_fires. Qed.

Lemma existsb_here {A} (f : A -> bool) x l : f x = true -> existsb f (x :: l) = true.
Proof. intros H. cbn. rewrite H. reflexivity. Qed.

Lemma existsb_later {A} (f : A -> bool) x l : existsb f l = true -> existsb f (x :: l) = true.
Proof. intros H. cbn. rewrite H. apply orb_true_r. Qed.

Lemma existsb_app_r {A} (f : A -> bool) l1 l2 :
  existsb f l2 = true -> existsb f (l1 ++ l2) = true.
Proof. intros H. rewrite existsb_app, H. apply orb_true_r. Qed.

Lemma existsb_app_l {A} (f : A -> bool) l1 l2 :
  existsb f l1 = true -> existsb f (l1 ++ l2) = true.
Proof. intros H. rewrite existsb_app, H. reflexivity. Qed.

Ltac find_line :=
  repeat first
    [ apply existsb_here; apply TextFacts.contains_app_l; vm_compute; reflexivity
    | apply existsb_here; apply orb_true_iff; left; apply TextFacts.contains_app_l;
      vm_compute; reflexivity
    | apply existsb_here; apply orb_true_iff; right; apply TextFacts.contains_app_l;
      vm_compute; reflexivity
    | apply existsb_later ].

(** The lines of a check that fires are in the advanced evidence. *)
Lemma advanced_evidence_lines os pid :
  let ev := snd (_advanced_behavioral_analysis os pid) in
  (fst (_check_network_exfiltration os pid) = true ->
   existsb (Text.contains "NETWORK") ev = true)
  /\ (fst (_check_file_logging os pid) = true ->
      existsb (Text.contains "FILE LOGGING") ev = true)
  /\ (fst (_check_memory_patterns os pid) = true ->
      existsb (Text.contains "MEMORY") ev = true)
  /\ (fst (_check_process_ancestry os pid) = true
      \/ fst (_check_dll_injection_indicators os pid) = true ->
      existsb (fun e => Text.contains "INJECTION" e || Text.contains "ANCESTRY" e) ev
      = true).
Proof.
  unfold _advanced_behavioral_analysis.
  destruct (_check_network_exfiltration os pid) as [net net_msg].
  destruct (_check_file_logging os pid) as [file log_msg].
  destruct (_check_memory_patterns os pid) as [mem mem_msg].
  destruct (_check_process_ancestry os pid) as [anc parent_msg].
  destruct (_check_dll_injection_indicators os pid) as [inj dll_msg].
  cbn [fst snd].
  repeat split; intros H;
    destruct net, file, mem, anc, inj;
    try discriminate H; try (destruct H as [H|H]; discriminate H);
    cbn [indicator tally_evidence app]; find_line.
Qed.

Lemma advanced_fires_merged i :
  i_network i = true \/ i_file i = true \/ i_memory i = true
  \/ i_ancestry i = true \/ i_injection i = true ->
  advanced_merged i = true.
Proof.
  unfold advanced_merged.
  destruct (i_network i), (i_file i), (i_memory i), (i_ancestry i), (i_injection i);
    intros H; try (vm_compute; reflexivity);
    repeat (destruct H as [H|H]; [discriminate H|]); discriminate H.
Qed.

Lemma accumulate_evidence_advanced os proc :
  advanced_merged (indicators os proc) = true ->
  exists base,
    tally_evidence (accumulate os proc)
    = (base ++ snd (_advanced_behavioral_analysis os (default 0 (d_pid proc))))%list.
Proof.
  unfold advanced_merged, indicators.
  cbn [i_network i_file i_memory i_ancestry i_injection].
  rewrite <- (proj1 (advanced_closed os (default 0 (d_pid proc)))).
  unfold accumulate.
  destruct (_detect_name_spoofing _ _) as [spoof spoof_msg].
  destruct (_advanced_behavioral_analysis os _) as [adv_confidence adv_evidence].
  cbn [fst snd]. intros ->. cbn [tally_evidence]. eauto.
Qed.

(** X15: in a returned detection, the network, file-logging and memory
    flags are set whenever the corresponding behavioural check fires, and
    the injection flag whenever the ancestry or the thread-count check
    fires. *)
Theorem detection_flags_follow_the_checks os proc d :
  analyze_process os proc = Some d ->
  let pid := default 0 (d_pid proc) in
  (fst (_check_network_exfiltration os pid) = true -> network_activity d = true)
  /\ (fst (_check_file_logging os pid) = true -> file_logging d = true)
  /\ (fst (_check_memory_patterns os pid) = true -> memory_suspicious d = true)
  /\ (fst (_check_process_ancestry os pid) = true
      \/ fst (_check_dll_injection_indicators os pid) = true ->
      process_injection d = true).
Proof.
  intros H pid.
  apply analyze_process_some in H as (_ & _ & _ & Hev & _ & -> & -> & -> & ->).
  rewrite Hev.
  destruct (advanced_evidence_lines os pid) as (Hn & Hf & Hm & Hi).
  assert (Hmerge : i_network (indicators os proc) = true
                   \/ i_file (indicators os proc) = true
                   \/ i_memory (indicators os proc) = true
                   \/ i_ancestry (indicators os proc) = true
                   \/ i_injection (indicators os proc) = true ->
                   exists base,
                     tally_evidence (accumulate os proc)
                     = (base ++ snd (_advanced_behavioral_analysis os pid))%list).
  { intros Hany. apply accumulate_evidence_advanced, advanced_fires_merged, Hany. }
  cbn [indicators i_network i_file i_memory i_ancestry i_injection] in Hmerge.
  fold pid in Hmerge.
  repeat split; intros Hc.
  - destruct Hmerge as [base ->]; [tauto|]. apply existsb_app_r, Hn, Hc.
  - destruct Hmerge as [base ->]; [tauto|]. apply existsb_app_r, Hf, Hc.
  - destruct Hmerge as [base ->]; [tauto|]. apply existsb_app_r, Hm, Hc.
  - destruct Hmerge as [base ->]; [tauto|]. apply existsb_app_r, Hi, Hc.
Qed.

Lemma detection_flags_follow_the_checks_witness :
  exists d,
    analyze_process spoof_os spoof_dict = Some d
    /\ network_activity d = true
    /\ memory_suspicious d = true
    /\ process_injection d = true.
Proof.
  destruct (analyze_process spoof_os spoof_dict) as [d|] eqn:E.
  - exists d. split; [reflexivity|].
    destruct (detection_flags_follow_the_checks spoof_os spoof_dict d E)
      as (Hn & _ & Hm & Hi).
    split; [apply Hn; vm_compute; reflexivity|].
    split; [apply Hm; vm_compute; reflexivity|].
    apply Hi. right. vm_compute. reflexivity.
  - vm_compute in E. discriminate E.
Defined.


Lemma location_line_in_evidence os proc :
  _is_suspicious_location (default "" (d_path proc)) = true ->
  exists (before : list string) (lit : string) (after : list string),
    tally_evidence (accumulate os proc)
    = (before ++ String.append lit (default "" (d_path proc)) :: after)%list.
Proof.
  intros Hloc. unfold accumulate.
  destruct (_detect_name_spoofing _ _) as [spoof spoof_msg].
  destruct (_advanced_behavioral_analysis os _) as [adv_confidence adv_evidence].
  rewrite Hloc.
  destruct (0 <? adv_confidence)%float; cbn [tally_evidence];
    rewrite !indicator_evidence; cbn [tally_evidence app];
    rewrite <- !app_assoc; cbn [app];
    match goal with
    | |- context [(?A ++ ?B ++ ?C ++ String.append ?lit _ :: ?R)%list] =>
        exists (A ++ B ++ C)%list, lit, R; rewrite <- !app_assoc; reflexivity
    end.
Qed.

(** X16: the flags are read back from the text of the evidence lines, so
    the path of a process in a suspicious location sets a flag by
    containing its keyword, whether or not the behavioural check fired. *)
Theorem detection_flags_can_come_from_the_path os proc d :
  analyze_process os proc = Some d ->
  _is_suspicious_location (default "" (d_path proc)) = true ->
  (Text.contains "NETWORK" (default "" (d_path proc)) = true -> network_activity d = true)
  /\ (Text.contains "FILE LOGGING" (default "" (d_path proc)) = true ->
      file_logging d = true)
  /\ (Text.contains "MEMORY" (default "" (d_path proc)) = true ->
      memory_suspicious d = true)
  /\ (Text.contains "INJECTION" (default "" (d_path proc)) = true
      \/ Text.contains "ANCESTRY" (default "" (d_path proc)) = true ->
      process_injection d = true).
Proof.
  intros H Hloc.
  apply analyze_process_some in H as (_ & _ & _ & Hev & _ & -> & -> & -> & ->).
  rewrite Hev.
  destruct (location_line_in_evidence os proc Hloc) as (before & lit & after & ->).
  repeat split; intros Hc; apply existsb_app_r, existsb_here.
  - apply TextFacts.contains_app_r, Hc.
  - apply TextFacts.contains_app_r, Hc.
  - apply TextFacts.contains_app_r, Hc.
  - apply orb_true_iff. destruct Hc as [Hc|Hc]; [left|right]; apply TextFacts.contains_app_r, Hc.
Qed.

Lemma detection_flags_can_come_from_the_path_witness :
  exists d,
    analyze_process silent_os desktop_dict = Some d
    /\ fst (_check_network_exfiltration silent_os 7) = false
    /\ network_activity d = true.
Proof.
  destruct (analyze_process silent_os desktop_dict) as [d|] eqn:E.
  - exists d. split; [reflexivity|]. split; [reflexivity|].
    apply (proj1 (detection_flags_can_come_from_the_path silent_os desktop_dict d E
                    ltac:(vm_compute; reflexivity))).
    vm_compute. reflexivity.
  - vm_compute in E. discriminate E.
Defined.

Lemma scan_loop_In os view pids : forall detections d,
  In d (scan_loop os view pids detections)
  <-> In d detections
      \/ exists pid proc_info,
           In pid pids
           /\ Enumerator.os_process view pid = Some proc_info
           /\ analyze_process os (proc_dict_of proc_info) = Some d.
Proof.
  induction pids as [|pid pids IH]; intros detections d; cbn [scan_loop].
  - split; [auto|]. intros [H|(p & pi & [] & _)]. exact H.
  - assert (Hrest : (exists p pi,
                       In p pids /\ Enumerator.os_process view p = Some pi
                       /\ analyze_process os (proc_dict_of pi) = Some d)
                    -> exists p pi,
                         In p (pid :: pids) /\ Enumerator.os_process view p = Some pi
                         /\ analyze_process os (proc_dict_of pi) = Some d).
    { intros (p & pi & Hin & Hpi & Hd). exists p, pi.
      split; [right; exact Hin|]. split; assumption. }
    destruct (Enumerator.os_process view pid) as [proc_info|] eqn:Hp.
    + destruct (analyze_process os (proc_dict_of proc_info)) as [det|] eqn:Ha.
      * rewrite IH, in_app_iff. cbn [In]. split.
        -- intros [[H|[H|[]]]|H].
           ++ left; exact H.
           ++ subst det. right. exists pid, proc_info.
              split; [left; reflexivity|]. split; assumption.
           ++ right. apply Hrest, H.
        -- intros [H|(p & pi & [Hin|Hin] & Hpi & Hd)].
           ++ left; left; exact H.
           ++ subst p. rewrite Hp in Hpi. injection Hpi as <-. rewrite Ha in Hd.
              injection Hd as <-. left; right; left; reflexivity.
           ++ right. exists p, pi. split; [exact Hin|]. split; assumption.
      * rewrite IH. split.
        -- intros [H|H]; [left; exact H|]. right. apply Hrest, H.
        -- intros [H|(p & pi & [Hin|Hin] & Hpi & Hd)]; [left; exact H| |].
           ++ subst p. rewrite Hp in Hpi. injection Hpi as <-. rewrite Ha in Hd.
              discriminate Hd.
           ++ right. exists p, pi. split; [exact Hin|]. split; assumption.
    + rewrite IH. split.
      * intros [H|H]; [left; exact H|]. right. apply Hrest, H.
      * intros [H|(p & pi & [Hin|Hin] & Hpi & Hd)]; [left; exact H| |].
        -- subst p. rewrite Hp in Hpi. discriminate Hpi.
        -- right. exists p, pi. split; [exact Hin|]. split; assumption.
Qed.

Lemma scan_loop_length os view pids : forall detections,
  (length (scan_loop os view pids detections) <= length detections + length pids)%nat.
Proof.
  induction pids as [|pid pids IH]; intros detections; cbn [scan_loop length]; [lia|].
  destruct (Enumerator.os_process view pid) as [proc_info|].
  - destruct (analyze_process os (proc_dict_of proc_info)).
    + specialize (IH (detections ++ [k])%list). rewrite length_app in IH. cbn in IH. lia.
    + specialize (IH detections). lia.
  - specialize (IH detections). lia.
Qed.

Lemma keyboard_hooks_all os now :
  List.filter (fun h => Text.contains "KEYBOARD" (Enumerator.hook_type h))
    (Enumerator.detect_hooks os now)
  = Enumerator.detect_hooks os now.
Proof.
  destruct (EnumeratorFacts.detect_hooks_loop_maps os now (Enumerator.os_pids os) 1 [])
    as (_ & _ & Hd).
  specialize (Hd (Forall_nil_2 _)). fold (Enumerator.detect_hooks os now) in Hd.
  induction Hd as [|h l (Hty & _) _ IH]; [reflexivity|].
  cbn [List.filter]. rewrite Hty, IH. reflexivity.
Qed.

(** X17: [scan_system] returns exactly the detections [analyze_process]
    gives for the listed pids that can be read and that load a user32 or
    hook module or have a listed name, and never more detections than
    there are pids. *)
Theorem scan_system_reports_hooked_detections os view now d :
  (In d (scan_system os view now)
   <-> exists pid proc_info,
         In pid (Enumerator.os_pids view)
         /\ Enumerator.is_candidate view pid = true
         /\ Enumerator.os_process view pid = Some proc_info
         /\ analyze_process os (proc_dict_of proc_info) = Some d)
  /\ (length (scan_system os view now) <= length (Enumerator.os_pids view))%nat.
Proof.
  unfold scan_system. rewrite keyboard_hooks_all.
  destruct (EnumeratorFacts.detect_hooks_loop_maps view now (Enumerator.os_pids view) 1 [])
    as (Ho & _ & _).
  fold (Enumerator.detect_hooks view now) in Ho. cbn [map app] in Ho. rewrite Ho.
  set (cands := List.filter (Enumerator.is_candidate view) (Enumerator.os_pids view)).
  assert (Hel : forall pid, In pid (elements (list_to_set cands : gset Z))
                            <-> In pid (Enumerator.os_pids view)
                                /\ Enumerator.is_candidate view pid = true).
  { intros pid. rewrite <- list_elem_of_In, elem_of_elements, elem_of_list_to_set,
      list_elem_of_In. apply filter_In. }
  split.
  - rewrite scan_loop_In. split.
    + intros [[]|(pid & pi & Hin & Hpi & Hd)]. apply Hel in Hin as [Hin Hc].
      exists pid, pi. auto.
    + intros (pid & pi & Hin & Hc & Hpi & Hd). right. exists pid, pi.
      split; [apply Hel; auto|auto].
  - pose proof (scan_loop_length os view (elements (list_to_set cands : gset Z)) []) as Hl.
    cbn [length] in Hl.
    assert (length (elements (list_to_set cands : gset Z)) <= length cands)%nat.
    { change (size (list_to_set cands : gset Z) <= length cands)%nat.
      clear. induction cands as [|x l IH]; [rewrite list_to_set_nil, size_empty; lia|].
      rewrite list_to_set_cons. cbn [length].
      pose proof (size_union_alt {[x]} (list_to_set l : gset Z)) as Hs.
      rewrite Hs, size_singleton.
      pose proof (subseteq_size (list_to_set l ∖ {[x]}) (list_to_set l : gset Z)
                    ltac:(set_solver)).
      lia. }
    assert (length cands <= length (Enumerator.os_pids view))%nat
      by apply filter_length_le.
    lia.
Qed.

End DetectorFacts.

(** * Facts about report.py *)

Module ReportFacts.

Import Heuristics Monitor Report.

Lemma count_fold {A : Type} (key : A -> string) (l : list A) : forall counter k,
  default 0 (fold_left (fun c x => count_up (key x) c) l counter !! k)
  = default 0 (counter !! k) + tally key k l.
Proof.
  unfold tally.
  induction l as [|x l IH]; intros counter k; cbn [fold_left List.filter length].
  - lia.
  - rewrite IH. unfold count_up.
    destruct (String.eqb_spec (key x) k) as [->|Hne].
    + rewrite lookup_insert_eq. cbn. lia.
    + rewrite lookup_insert_ne by exact Hne. lia.
Qed.

Lemma count_fold_pos {A : Type} (key : A -> string) (l : list A) : forall counter,
  (forall k n, counter !! k = Some n -> 0 < n) ->
  forall k n, fold_left (fun c x => count_up (key x) c) l counter !! k = Some n -> 0 < n.
Proof.
  induction l as [|x l IH]; intros counter Hpos k n; cbn [fold_left]; [apply Hpos|].
  apply IH. intros j m. unfold count_up.
  destruct (String.eqb_spec (key x) j) as [->|Hne].
  - rewrite lookup_insert_eq. intros [= <-].
    destruct (counter !! j) as [v|] eqn:E; cbn; [pose proof (Hpos j v E)|]; lia.
  - rewrite lookup_insert_ne by exact Hne. apply Hpos.
Qed.

Lemma tally_levels (l : list SnapshotItem) :
  let key := fun item => level_str (risk_level (item_assessment item)) in
  tally key "LOW" l + tally key "MEDIUM" l + tally key "HIGH" l + tally key "UNKNOWN" l
  = Z.of_nat (length l).
Proof.
  unfold tally. induction l as [|x l IH]; [reflexivity|].
  cbn [List.filter length]. cbv zeta in IH.
  destruct (risk_level (item_assessment x)); cbn [level_str String.eqb Ascii.eqb Bool.eqb];
    cbn [length]; lia.
Qed.

Lemma names_size (l : list SnapshotItem) : forall names : gset string,
  (size (fold_left (fun names item => names ∪ {[ Enumerator.name (item_process item) ]})
           l names)
   <= size names + length l)%nat.
Proof.
  induction l as [|x l IH]; intros names; cbn [fold_left length]; [lia|].
  specialize (IH (names ∪ {[ Enumerator.name (item_process x) ]})).
  pose proof (size_union_alt names {[ Enumerator.name (item_process x) ]}) as Hs.
  pose proof (subseteq_size ({[ Enumerator.name (item_process x) ]} ∖ names)
                ({[ Enumerator.name (item_process x) ]} : gset string)
                ltac:(set_solver)) as Hsub.
  rewrite size_singleton in Hsub. lia.
Qed.

Lemma high_risk_length (l : list SnapshotItem) :
  Z.of_nat (length
    (omap (fun item =>
            if String.eqb (level_str (risk_level (item_assessment item))) "HIGH"
            then Some (Enumerator.pid (item_process item),
                       Enumerator.name (item_process item),
                       Enumerator.path (item_process item),
                       risk_score (item_assessment item))
            else None) l))
  = tally (fun item => level_str (risk_level (item_assessment item))) "HIGH" l.
Proof.
  unfold tally. induction l as [|x l IH]; [reflexivity|].
  cbn -[Z.of_nat String.eqb] in *.
  destruct (String.eqb _ "HIGH"); cbn -[Z.of_nat] in *; lia.
Qed.

(** X21: in the summary, the count of each risk level is the number of
    snapshot entries at that level, the four counts add up to
    [total_hooks], a level or an event type without any entry is absent
    from its dict rather than 0, [high_risk_processes] has as many
    entries as the HIGH count, and [unique_processes] never exceeds
    [total_hooks]. *)
Theorem summary_counts_add_up snapshot_data events now :
  let summary := generate_summary_report snapshot_data events now in
  let level_count k := default 0 (risk_distribution summary !! k) in
  (forall k, level_count k
             = tally (fun item => level_str (risk_level (item_assessment item))) k
                     snapshot_data)
  /\ level_count "LOW" + level_count "MEDIUM" + level_count "HIGH" + level_count "UNKNOWN"
     = total_hooks summary
  /\ (forall k n, risk_distribution summary !! k = Some n -> 0 < n)
  /\ Z.of_nat (length (high_risk_processes summary)) = level_count "HIGH"
  /\ unique_processes summary <= total_hooks summary
  /\ (forall ty, default 0 (event_types summary !! ty) = tally event_type ty events)
  /\ (forall ty n, event_types summary !! ty = Some n -> 0 < n).
Proof.
  intros summary level_count.
  assert (Hl : forall k, level_count k
                 = tally (fun item => level_str (risk_level (item_assessment item))) k
                         snapshot_data).
  { intros k. unfold level_count, summary, generate_summary_report.
    cbn [risk_distribution]. rewrite count_fold, lookup_empty. reflexivity. }
  split; [exact Hl|]. split; [|split; [|split; [|split; [|split]]]].
  - rewrite !Hl. apply tally_levels.
  - apply count_fold_pos. intros k n. rewrite lookup_empty. discriminate.
  - rewrite Hl. apply high_risk_length.
  - unfold summary, generate_summary_report. cbn [unique_processes total_hooks].
    pose proof (names_size snapshot_data ∅) as H. rewrite size_empty in H. lia.
  - intros ty. unfold summary, generate_summary_report. cbn [event_types].
    rewrite count_fold, lookup_empty. reflexivity.
  - apply count_fold_pos. intros k n. rewrite lookup_empty. discriminate.
Qed.

End ReportFacts.
